(** * PCR snapshot pipeline: a shallow embedding of [generate_snapshot.py]

    The script aggregates per-expiry option volume and open interest into
    put/call ratios, enriches the table with derived signals, groups the
    expiries into maturity bands and extracts top-N rankings.

    Modelling conventions.
    - A Python/NumPy float is an exact rational, or NaN: a float cell is an
      [option Q] with [None] for NaN.  Rounding to [n] decimals is exact
      round-half-to-even, as [round] and [numpy.rint] do.  Binary
      floating-point error and infinities are not represented in the
      pipeline itself.  A stored cell can therefore differ from the
      script's in its last decimal (at a decimal tie, or when the quotient
      is large), and a statement that relates a stored cell to an exact
      quotient or sum carries the tolerance (one unit of the last stored
      decimal) and the size bound under which binary64 stays inside it.
      [Float64] evaluates single expressions of the script in binary64,
      and [Binary64Error] bounds the error of those expressions under any
      rounding with a relative error of 2^-53.
    - An integer cell is a [Z]: unbounded, where pandas holds an [int64]
      and sums whole numbers exactly only up to 2^53 once they are floats.
      Statements that depend on it carry the bound.
    - [_to_num] ([pd.to_numeric] with [errors="coerce"]) leaves a numeric
      cell as it is and is not written out; on a text cell it is the
      parameter [to_numeric_str] of the ranking.
    - A pandas DataFrame is a record of its column names, its rows and its
      [attrs]; every row carries all fourteen cells of the enriched table,
      and a cell whose column has not been added yet holds a placeholder
      that no function reads.
    - An exception is a value of [exn]; a function that may raise returns a
      [result]. *)

From Stdlib Require Import ZArith QArith Qround Qabs List String Ascii Bool Lia Lqa.
From Stdlib Require Import Permutation Sorted.
Import ListNotations.

Local Open Scope Z_scope.

(** ** Numbers *)

Module Num.

(** [a < b] on rationals, as a boolean. *)
Definition Qltb (a b : Q) : bool := negb (Qle_bool b a).

(** Python's [round(x)] and NumPy's [rint]: the nearest integer, a tie
    going to the even neighbour. *)
Definition round_half_even (x : Q) : Z :=
  let f := Qfloor x in
  match Qcompare (x - inject_Z f) (1 # 2) with
  | Lt => f
  | Gt => f + 1
  | Eq => if Z.even f then f else f + 1
  end.

Fixpoint pow10 (n : nat) : positive :=
  match n with
  | O => 1%positive
  | S k => (10 * pow10 k)%positive
  end.

(** [round(x, n)] / [Series.round(n)]: round half even at the [n]-th
    decimal.  The result is stored in lowest terms, so that equal values
    are equal cells. *)
Definition round_nd (n : nat) (x : Q) : Q :=
  Qred (Qmake (round_half_even (x * inject_Z (Zpos (pow10 n)))) (pow10 n)).

(** A float cell: [None] is NaN. *)
Definition float := option Q.

Definition nan : float := None.

Definition isfinite (x : float) : bool :=
  match x with Some _ => true | None => false end.

Definition notna (x : float) : bool := isfinite x.

(** Element-wise arithmetic of two float cells: NaN propagates. *)
Definition lift2 (op : Q -> Q -> Q) (x y : float) : float :=
  match x, y with
  | Some a, Some b => Some (op a b)
  | _, _ => None
  end.

Definition fsub := lift2 Qminus.
Definition fmul := lift2 Qmult.
Definition fdiv := lift2 Qdiv.

(** [Series.round(n)] on a float cell. *)
Definition fround (n : nat) (x : float) : float := option_map (round_nd n) x.

(** [round(float(x), n) if np.isfinite(x) else np.nan] *)
Definition round_if_finite (n : nat) (x : float) : float :=
  if isfinite x then option_map (round_nd n) x else nan.

(** [Series.sum()] of a float column: NaN cells are skipped, the empty
    sum is 0. *)
Definition nansum (l : list float) : Q :=
  fold_left (fun acc x => match x with Some q => acc + q | None => acc end)%Q l 0%Q.

(** [Series.sum()] of an integer column. *)
Definition zsum (l : list Z) : Z := fold_left Z.add l 0.

(** [a / b if b > 0 else np.nan] *)
Definition ratio_or_nan (a b : Q) : float :=
  if Qltb 0 b then Some (a / b)%Q else nan.

End Num.

(** ** Python values the script relies on *)

Module Py.

Inductive exn : Type :=
| RuntimeError (msg : string)
| ValueError (msg : string)
| TypeError (msg : string).

(** The outcome of a call that may raise. *)
Inductive result (A : Type) : Type :=
| Ok (a : A)
| Raise (e : exn).
Arguments Ok {A} a.
Arguments Raise {A} e.

Definition bind {A B : Type} (m : result A) (k : A -> result B) : result B :=
  match m with
  | Ok a => k a
  | Raise e => Raise e
  end.

(** [for x in l: f(x)] collecting the values, stopping at the first
    exception. *)
Fixpoint map_result {A B : Type} (f : A -> result B) (l : list A) : result (list B) :=
  match l with
  | [] => Ok []
  | x :: tl =>
      bind (f x) (fun y => bind (map_result f tl) (fun ys => Ok (y :: ys)))
  end.

(** The slice [l[:n]] (also [DataFrame.head(n)], which is [iloc[:n]]):
    a negative [n] counts from the end. *)
Definition prefix {A : Type} (n : Z) (l : list A) : list A :=
  if 0 <=? n then firstn (Z.to_nat n) l
  else firstn (Z.to_nat (Z.of_nat (List.length l) + n)) l.

(** [x in l] for strings. *)
Definition str_in (x : string) (l : list string) : bool :=
  existsb (String.eqb x) l.

(** A sort by a boolean order.  pandas' default [quicksort] leaves the
    relative order of equal keys unspecified; this insertion sort keeps
    it, and no statement below depends on that choice. *)
Fixpoint insert_by {A : Type} (leb : A -> A -> bool) (x : A) (l : list A) : list A :=
  match l with
  | [] => [x]
  | y :: tl => if leb x y then x :: y :: tl else y :: insert_by leb x tl
  end.

Fixpoint sort_by {A : Type} (leb : A -> A -> bool) (l : list A) : list A :=
  match l with
  | [] => []
  | x :: tl => insert_by leb x (sort_by leb tl)
  end.

(** [datetime.date], with [toordinal] as in CPython's [datetime]. *)
Record date : Type := mkDate { year : Z; month : Z; day : Z }.

Definition is_leap (y : Z) : bool :=
  (y mod 4 =? 0) && (negb (y mod 100 =? 0) || (y mod 400 =? 0)).

Definition days_before_year (y : Z) : Z :=
  let p := y - 1 in p * 365 + p / 4 - p / 100 + p / 400.

Definition days_before_month (y m : Z) : Z :=
  nth (Z.to_nat m) [-1; 0; 31; 59; 90; 120; 151; 181; 212; 243; 273; 304; 334] 0
  + (if (2 <? m) && is_leap y then 1 else 0).

Definition toordinal (d : date) : Z :=
  days_before_year (year d) + days_before_month (year d) (month d) + day d.

(** [(x - d0).days] for two dates. *)
Definition days_between (x d0 : date) : Z := toordinal x - toordinal d0.

(** An element of the object column [pd.to_datetime(...).dt.date]: a
    [datetime.date], or pandas' missing-timestamp marker [NaT], which
    [.dt.date] leaves in place.  [PyNone] is Python's [None]. *)
Inductive date_obj : Type :=
| PyNone
| PyDate (d : date)
| NaT.

End Py.

Import Num Py.

(** ** Tables *)

(** One row of the per-expiry table, with every column the pipeline ever
    adds. *)
Record Row : Type := mkRow {
  Symbol : string;
  Expiry : string;
  Put_Volume : Z;
  Call_Volume : Z;
  Volume_PCR : float;
  Put_OI : Z;
  Call_OI : Z;
  OI_PCR : float;
  Total_OI : Z;
  DTE : option Z;
  Divergence_Vol_minus_OI : float;
  Impulse_Vol_over_OI : float;
  Quality_OK : bool;
  EventScore_OIshare_x_OI_PCR : float
}.

Definition set_DTE (v : option Z) (r : Row) : Row :=
  mkRow (Symbol r) (Expiry r) (Put_Volume r) (Call_Volume r) (Volume_PCR r)
        (Put_OI r) (Call_OI r) (OI_PCR r) (Total_OI r) v
        (Divergence_Vol_minus_OI r) (Impulse_Vol_over_OI r) (Quality_OK r)
        (EventScore_OIshare_x_OI_PCR r).

Definition set_flow (dv imp : float) (r : Row) : Row :=
  mkRow (Symbol r) (Expiry r) (Put_Volume r) (Call_Volume r) (Volume_PCR r)
        (Put_OI r) (Call_OI r) (OI_PCR r) (Total_OI r) (DTE r)
        dv imp (Quality_OK r) (EventScore_OIshare_x_OI_PCR r).

Definition set_Quality_OK (b : bool) (r : Row) : Row :=
  mkRow (Symbol r) (Expiry r) (Put_Volume r) (Call_Volume r) (Volume_PCR r)
        (Put_OI r) (Call_OI r) (OI_PCR r) (Total_OI r) (DTE r)
        (Divergence_Vol_minus_OI r) (Impulse_Vol_over_OI r) b
        (EventScore_OIshare_x_OI_PCR r).

Definition set_EventScore (v : float) (r : Row) : Row :=
  mkRow (Symbol r) (Expiry r) (Put_Volume r) (Call_Volume r) (Volume_PCR r)
        (Put_OI r) (Call_OI r) (OI_PCR r) (Total_OI r) (DTE r)
        (Divergence_Vol_minus_OI r) (Impulse_Vol_over_OI r) (Quality_OK r) v.

(** A DataFrame: column names in order, rows, and the [attrs] side
    dictionary. *)
Record DataFrame : Type := mkDF {
  columns : list string;
  rows : list Row;
  attrs : list (string * Z)
}.

Definition with_rows (f : list Row -> list Row) (df : DataFrame) : DataFrame :=
  mkDF (columns df) (f (rows df)) (attrs df).

(** [out[name] = ...]: an existing column keeps its place, a new one goes
    last. *)
Definition add_column (name : string) (cols : list string) : list string :=
  if str_in name cols then cols else cols ++ [name].

Definition empty (df : DataFrame) : bool :=
  match rows df with [] => true | _ => false end.

(** [d.update(e)] on [attrs]. *)
Definition attrs_update (d e : list (string * Z)) : list (string * Z) :=
  filter (fun kv => negb (str_in (fst kv) (map fst e))) d ++ e.

Definition attrs_get (k : string) (d : list (string * Z)) : option Z :=
  option_map snd (find (fun kv => String.eqb k (fst kv)) d).

(** ** Configuration *)

Definition SYMBOL : string := "SPY".
Definition MIN_CALL_OI : Z := 1000.
Definition MIN_CALL_VOL : Z := 500.
Definition MIN_TOTAL_OI : Z := 10000.
Definition MAX_EXPIRIES : option Z := None.
Definition TOP_N : Z := 5.

(** ** Core aggregation *)

(** One side of an option chain as the data provider returns it: the
    [volume] and [openInterest] columns, a null entry being NaN.  A column
    the provider did not send is [None]; indexing it raises [KeyError]. *)
Record Frame : Type := mkFrame {
  volume : option (list float);
  openInterest : option (list float)
}.

Record OptionChain : Type := mkChain { calls : Frame; puts : Frame }.

(** [yf.Ticker(symbol)]: the listed expiries, and the retrieval of one
    chain, [None] when the call raises. *)
Record Ticker : Type := mkTicker {
  options : list string;
  option_chain : string -> option OptionChain
}.

(** [col.fillna(v)] *)
Definition fillna (v : Q) (col : list float) : list Q :=
  map (fun x => match x with Some q => q | None => v end) col.

(** [float(col.sum())] on a column without NaN. *)
Definition qsum (l : list Q) : Q := fold_left Qplus l 0%Q.

Definition BASE_COLUMNS : list string :=
  ["Symbol"; "Expiry"; "Put_Volume"; "Call_Volume"; "Volume_PCR";
   "Put_OI"; "Call_OI"; "OI_PCR"; "Total_OI"]%string.

(** The body of the [try] block for one expiry: [None] when anything in it
    raises (the retrieval, or a missing column). *)
Definition try_expiry (tk : Ticker) (symbol exp : string) : option Row :=
  match option_chain tk exp with
  | None => None
  | Some ch =>
      match volume (calls ch), volume (puts ch),
            openInterest (calls ch), openInterest (puts ch) with
      | Some cv, Some pv, Some co, Some po =>
          let c_vol := qsum (fillna 0 cv) in
          let p_vol := qsum (fillna 0 pv) in
          let c_oi := qsum (fillna 0 co) in
          let p_oi := qsum (fillna 0 po) in
          let vol_pcr := ratio_or_nan p_vol c_vol in
          let oi_pcr := ratio_or_nan p_oi c_oi in
          Some (mkRow symbol exp
                      (round_half_even p_vol)
                      (round_half_even c_vol)
                      (round_if_finite 6 vol_pcr)
                      (round_half_even p_oi)
                      (round_half_even c_oi)
                      (round_if_finite 6 oi_pcr)
                      (round_half_even (p_oi + c_oi))
                      None nan nan false nan)
      | _, _, _, _ => None
      end
  end.

(** One turn of the [for exp in expiries] loop on the state
    [(rows, used)]. *)
Definition loop_step (tk : Ticker) (symbol : string)
           (st : list Row * Z) (exp : string) : list Row * Z :=
  match try_expiry tk symbol exp with
  | Some row => (fst st ++ [row], snd st + 1)
  | None => st
  end.

Definition sort_values_Expiry (l : list Row) : list Row :=
  sort_by (fun a b => String.leb (Expiry a) (Expiry b)) l.

Definition requested_expiries (tk : Ticker) (max_expiries : option Z) : list string :=
  match max_expiries with
  | Some n => prefix n (options tk)
  | None => options tk
  end.

Definition per_expiry_totals (yf : string -> Ticker) (symbol : string)
           (max_expiries : option Z) : result DataFrame :=
  let tk := yf symbol in
  match options tk with
  | [] => Raise (RuntimeError ("No option expirations for " ++ symbol))
  | _ =>
      let expiries := requested_expiries tk max_expiries in
      let st := fold_left (loop_step tk symbol) expiries ([], 0) in
      match fst st with
      | [] => Raise (RuntimeError ("No chain data aggregated for " ++ symbol))
      | _ =>
          Ok (mkDF BASE_COLUMNS (sort_values_Expiry (fst st))
                   [("Expiries_Used"%string, snd st);
                    ("Expiries_Requested"%string, Z.of_nat (List.length expiries))])
      end
  end.

(** ** Signal layer *)

Section SignalLayer.

(** [pd.to_datetime(s, errors="coerce")] on one label: the calendar date,
    or [None] when pandas cannot parse it (the cell is then [NaT]). *)
Variable to_datetime : string -> option date.

(** [date.today()] *)
Variable today : date.

(** One cell of [pd.to_datetime(out["Expiry"], errors="coerce").dt.date]. *)
Definition dt_date (s : string) : date_obj :=
  match to_datetime s with
  | Some d => PyDate d
  | None => NaT
  end.

(** [lambda x: (x - d0).days if x is not None else np.nan].  [NaT] is
    not [None]; subtracting a [datetime.date] from it is a [TypeError]. *)
Definition dte_of (d0 : date) (x : date_obj) : result (option Z) :=
  match x with
  | PyNone => Ok None
  | PyDate d => Ok (Some (days_between d d0))
  | NaT =>
      Raise (TypeError "unsupported operand type(s) for -: 'NaTType' and 'datetime.date'")
  end.

Definition add_dte (df : DataFrame) (asof : option date) : result DataFrame :=
  let d0 := match asof with Some d => d | None => today end in
  bind (map_result (fun r => bind (dte_of d0 (dt_date (Expiry r)))
                                  (fun v => Ok (set_DTE v r)))
                   (rows df))
       (fun rs => Ok (mkDF (add_column "DTE" (columns df)) rs (attrs df))).

(** [oi > 0] on a float cell; false on NaN. *)
Definition fgt0 (x : float) : bool :=
  match x with Some q => Qltb 0 q | None => false end.

Definition flow_row (r : Row) : Row :=
  let v := Volume_PCR r in
  let oi := OI_PCR r in
  set_flow (fround 6 (fsub v oi))
           (fround 6 (if fgt0 oi && isfinite oi && isfinite v
                      then fdiv v oi else nan))
           r.

Definition add_flow_vs_positioning (df : DataFrame) : DataFrame :=
  mkDF (add_column "Impulse_Vol_over_OI"
          (add_column "Divergence_Vol_minus_OI" (columns df)))
       (map flow_row (rows df)) (attrs df).

Definition add_quality_flags (df : DataFrame)
           (min_call_oi min_call_vol min_total_oi : Z) : DataFrame :=
  mkDF (add_column "Quality_OK" (columns df))
       (map (fun r => set_Quality_OK
                        ((min_call_oi <=? Call_OI r)
                         && (min_call_vol <=? Call_Volume r)
                         && (min_total_oi <=? Total_OI r)) r)
            (rows df))
       (attrs df).

(** [float(_to_num(t["Total_OI"]).fillna(0.0).sum())] *)
Definition total_oi_sum (l : list Row) : Q := inject_Z (zsum (map Total_OI l)).

Definition add_event_score (df : DataFrame) : DataFrame :=
  let denom := total_oi_sum (rows df) in
  mkDF (add_column "EventScore_OIshare_x_OI_PCR" (columns df))
       (if Qle_bool denom 0
        then map (set_EventScore nan) (rows df)
        else map (fun r =>
                    let share := (inject_Z (Total_OI r) / denom)%Q in
                    set_EventScore (fround 8 (fmul (Some share) (OI_PCR r))) r)
                 (rows df))
       (attrs df).

Definition enrich_per_expiry (yf : string -> Ticker) (symbol : string)
           (max_expiries : option Z) : result DataFrame :=
  bind (per_expiry_totals yf symbol max_expiries) (fun base =>
  bind (add_dte base None) (fun df =>
  let df := add_flow_vs_positioning df in
  let df := add_quality_flags df MIN_CALL_OI MIN_CALL_VOL MIN_TOTAL_OI in
  let df := add_event_score df in
  Ok (mkDF (columns df) (rows df) (attrs_update (attrs df) (attrs base))))).

End SignalLayer.

(** ** Buckets and bucket concentration scoring *)

Record BucketRow : Type := mkBucket {
  Bucket : string;
  DTE_Min : Z;
  DTE_Max : Z;
  Sum_Put_OI : Z;
  Sum_Call_OI : Z;
  Bucket_OI_PCR : float;
  Sum_Put_Volume : Z;
  Sum_Call_Volume : Z;
  Bucket_Volume_PCR : float;
  Bucket_TotalOI : Z;
  Bucket_TotalOI_Share : float;
  Bucket_Concentration_Score : float;
  Bucket_Concentration_Share : float
}.

Definition set_concentration (score share : float) (b : BucketRow) : BucketRow :=
  mkBucket (Bucket b) (DTE_Min b) (DTE_Max b) (Sum_Put_OI b) (Sum_Call_OI b)
           (Bucket_OI_PCR b) (Sum_Put_Volume b) (Sum_Call_Volume b)
           (Bucket_Volume_PCR b) (Bucket_TotalOI b) (Bucket_TotalOI_Share b)
           score share.

Definition BUCKETS : list (string * Z * Z) :=
  [("Short_1_20"%string, 1, 20);
   ("Mid_21_60"%string, 21, 60);
   ("Long_61_120"%string, 61, 120)].

(** [t[t["Quality_OK"] == True]] when asked for and the column exists. *)
Definition quality_filter (require_quality_ok : bool) (df : DataFrame) : list Row :=
  if require_quality_ok && str_in "Quality_OK" (columns df)
  then filter Quality_OK (rows df)
  else rows df.

(** [(t["DTE"] >= lo) & (t["DTE"] <= hi)]; false on a NaN [DTE]. *)
Definition in_band (lo hi : Z) (r : Row) : bool :=
  match DTE r with
  | Some d => (lo <=? d) && (d <=? hi)
  | None => false
  end.

Definition col_sum (f : Row -> Z) (w : list Row) : Q := inject_Z (zsum (map f w)).

(** The body of [for name, lo, hi in buckets], before the concentration
    columns are added. *)
Definition bucket_row (t : list Row) (denom_total_oi : Q)
           (b : string * Z * Z) : BucketRow :=
  let '(name, lo, hi) := b in
  let w := filter (in_band lo hi) t in
  let put_oi := col_sum Put_OI w in
  let call_oi := col_sum Call_OI w in
  let put_vol := col_sum Put_Volume w in
  let call_vol := col_sum Call_Volume w in
  let total_oi := col_sum Total_OI w in
  let oi_pcr := ratio_or_nan put_oi call_oi in
  let vol_pcr := ratio_or_nan put_vol call_vol in
  let oi_share := ratio_or_nan total_oi denom_total_oi in
  mkBucket name lo hi
           (round_half_even put_oi)
           (round_half_even call_oi)
           (round_if_finite 6 oi_pcr)
           (round_half_even put_vol)
           (round_half_even call_vol)
           (round_if_finite 6 vol_pcr)
           (round_half_even total_oi)
           (round_if_finite 6 oi_share)
           nan nan.

(** The unrounded column
    [out["Bucket_TotalOI_Share"] * out["Bucket_OI_PCR"]]. *)
Definition raw_score (b : BucketRow) : float :=
  fmul (Bucket_TotalOI_Share b) (Bucket_OI_PCR b).

(** The concentration columns: score, its share of the NaN-skipping sum of
    scores, and the final rounding of both. *)
Definition add_concentration (out : list BucketRow) : list BucketRow :=
  let denom := nansum (map raw_score out) in
  map (fun b =>
         let score := raw_score b in
         let share := if Qltb 0 denom then fdiv score (Some denom) else nan in
         set_concentration (fround 8 score) (fround 6 share) b)
      out.

(** [bucket_term_structure] for a given list of bands. *)
Definition bucket_term_structure_on (buckets : list (string * Z * Z))
           (df : DataFrame) (require_quality_ok : bool) : list BucketRow :=
  let t := quality_filter require_quality_ok df in
  let denom_total_oi := col_sum Total_OI t in
  add_concentration (map (bucket_row t denom_total_oi) buckets).

Definition bucket_term_structure (df : DataFrame) (require_quality_ok : bool)
  : list BucketRow :=
  bucket_term_structure_on BUCKETS df require_quality_ok.

(** ** Tables *)

(** [t[cols]]: the cells of the other columns are dropped (reset to the
    placeholder). *)
Definition project (cols : list string) (r : Row) : Row :=
  let keep {A : Type} (name : string) (v d : A) : A :=
    if str_in name cols then v else d in
  mkRow (keep "Symbol"%string (Symbol r) ""%string)
        (keep "Expiry"%string (Expiry r) ""%string)
        (keep "Put_Volume"%string (Put_Volume r) 0)
        (keep "Call_Volume"%string (Call_Volume r) 0)
        (keep "Volume_PCR"%string (Volume_PCR r) nan)
        (keep "Put_OI"%string (Put_OI r) 0)
        (keep "Call_OI"%string (Call_OI r) 0)
        (keep "OI_PCR"%string (OI_PCR r) nan)
        (keep "Total_OI"%string (Total_OI r) 0)
        (keep "DTE"%string (DTE r) None)
        (keep "Divergence_Vol_minus_OI"%string (Divergence_Vol_minus_OI r) nan)
        (keep "Impulse_Vol_over_OI"%string (Impulse_Vol_over_OI r) nan)
        (keep "Quality_OK"%string (Quality_OK r) false)
        (keep "EventScore_OIshare_x_OI_PCR"%string (EventScore_OIshare_x_OI_PCR r) nan).

Definition TOP_OI_COLUMNS : list string :=
  ["Symbol"; "Expiry"; "OI_PCR"; "Volume_PCR";
   "Put_OI"; "Call_OI"; "Total_OI"; "Put_Volume"; "Call_Volume"]%string.

(** [sort_values(key, ascending=...)] on rows whose key is not NaN. *)
Definition sort_values (key : Row -> float) (ascending : bool) (l : list Row)
  : list Row :=
  let k r := match key r with Some q => q | None => 0%Q end in
  sort_by (fun a b => if ascending then Qle_bool (k a) (k b)
                      else Qle_bool (k b) (k a)) l.

Definition top_expiries_by_oi_pcr (df : DataFrame) (top_n : Z) : DataFrame :=
  let out := with_rows (filter (fun r => notna (OI_PCR r))) df in
  if empty out then out
  else
    let out := with_rows (fun l => prefix top_n (sort_values OI_PCR false l)) out in
    mkDF TOP_OI_COLUMNS (map (project TOP_OI_COLUMNS) (rows out)) (attrs out).

Definition TOP_METRIC_COLUMNS : list string :=
  ["Symbol"; "Expiry"; "DTE"; "Volume_PCR"; "OI_PCR";
   "Divergence_Vol_minus_OI"; "Impulse_Vol_over_OI";
   "EventScore_OIshare_x_OI_PCR"; "Put_OI"; "Call_OI";
   "Total_OI"; "Put_Volume"; "Call_Volume"; "Quality_OK"]%string.

Section Ranker.

(** [pd.to_numeric(s, errors="coerce")] on a text cell: the number it
    spells, or NaN. *)
Variable to_numeric_str : string -> float.

(** [_to_num(t[metric])] read on one row.  Integer and boolean cells are
    already numeric.  (The coerced column replaces the text column in
    [t]; the row record keeps the text, and the number is read here.) *)
Definition metric_value (metric : string) (r : Row) : float :=
  if String.eqb metric "Symbol" then to_numeric_str (Symbol r)
  else if String.eqb metric "Expiry" then to_numeric_str (Expiry r)
  else if String.eqb metric "Put_Volume" then Some (inject_Z (Put_Volume r))
  else if String.eqb metric "Call_Volume" then Some (inject_Z (Call_Volume r))
  else if String.eqb metric "Volume_PCR" then Volume_PCR r
  else if String.eqb metric "Put_OI" then Some (inject_Z (Put_OI r))
  else if String.eqb metric "Call_OI" then Some (inject_Z (Call_OI r))
  else if String.eqb metric "OI_PCR" then OI_PCR r
  else if String.eqb metric "Total_OI" then Some (inject_Z (Total_OI r))
  else if String.eqb metric "DTE" then option_map inject_Z (DTE r)
  else if String.eqb metric "Divergence_Vol_minus_OI" then Divergence_Vol_minus_OI r
  else if String.eqb metric "Impulse_Vol_over_OI" then Impulse_Vol_over_OI r
  else if String.eqb metric "Quality_OK"
       then Some (if Quality_OK r then 1%Q else 0%Q)
  else if String.eqb metric "EventScore_OIshare_x_OI_PCR"
       then EventScore_OIshare_x_OI_PCR r
  else nan.

Definition top_by_metric (df : DataFrame) (metric : string) (top_n : Z)
           (descending require_quality_ok : bool) : result DataFrame :=
  if negb (str_in metric (columns df))
  then Raise (ValueError ("Metric '" ++ metric ++ "' not found"))
  else
    let t := mkDF (columns df) (quality_filter require_quality_ok df) (attrs df) in
    let t := with_rows (filter (fun r => notna (metric_value metric r))) t in
    if empty t then Ok t
    else
      let t := with_rows (fun l => prefix top_n
                                     (sort_values (metric_value metric)
                                                  (negb descending) l)) t in
      let cols := filter (fun c => str_in c (columns t)) TOP_METRIC_COLUMNS in
      Ok (mkDF cols (map (project cols) (rows t)) (attrs t)).

(** The keyword defaults of [top_by_metric]. *)
Definition top_by_metric_default (df : DataFrame) (metric : string)
  : result DataFrame :=
  top_by_metric df metric 5 true true.

End Ranker.

(** The keyword default of [top_expiries_by_oi_pcr]. *)
Definition top_expiries_by_oi_pcr_default (df : DataFrame) : DataFrame :=
  top_expiries_by_oi_pcr df 5.

(** The fourteen columns of the enriched table, in the order the passes add
    them. *)
Definition ENRICHED_COLUMNS : list string :=
  BASE_COLUMNS ++
  ["DTE"; "Divergence_Vol_minus_OI"; "Impulse_Vol_over_OI"; "Quality_OK";
   "EventScore_OIshare_x_OI_PCR"]%string.

(** ** Sample data *)

Module Sample.

Definition digit (c : ascii) : option Z :=
  let n := Z.of_nat (nat_of_ascii c) in
  if (48 <=? n) && (n <=? 57) then Some (n - 48) else None.

Fixpoint number (acc : Z) (s : string) : option Z :=
  match s with
  | EmptyString => Some acc
  | String c tl =>
      match digit c with
      | Some d => number (10 * acc + d) tl
      | None => None
      end
  end.

(** A parser for [YYYY-MM-DD] labels, standing for [pd.to_datetime] on
    the sample tables. *)
Definition iso_date (s : string) : option date :=
  if (String.length s =? 10)%nat
     && String.eqb (substring 4 1 s) "-" && String.eqb (substring 7 1 s) "-"
  then
    match number 0 (substring 0 4 s), number 0 (substring 5 2 s),
          number 0 (substring 8 2 s) with
    | Some y, Some m, Some d =>
        if (1 <=? m) && (m <=? 12) && (1 <=? d) && (d <=? 31)
        then Some (mkDate y m d) else None
    | _, _, _ => None
    end
  else None.

(** Text cells of the sample tables are not numbers. *)
Definition no_number (s : string) : float := nan.

Definition one_contract (vol oi : Z) : Frame :=
  mkFrame (Some [Some (inject_Z vol)]) (Some [Some (inject_Z oi)]).

Definition expiry_A : string := "2024-01-19".
Definition expiry_B : string := "2024-02-16".

(** Expiry A: call_vol=600, put_vol=900, call_oi=2000, put_oi=1000.
    Expiry B: call_vol=0, put_vol=50, call_oi=500, put_oi=2000. *)
Definition two_expiries (symbol : string) : Ticker :=
  mkTicker [expiry_A; expiry_B]
           (fun exp =>
              if String.eqb exp expiry_A
              then Some (mkChain (one_contract 600 2000) (one_contract 900 1000))
              else if String.eqb exp expiry_B
              then Some (mkChain (one_contract 0 500) (one_contract 50 2000))
              else None).

Definition asof_2024 : date := mkDate 2024 1 2.

(** One expiry whose two sides each report an open interest of 3/8. *)
Definition fractional_oi (symbol : string) : Ticker :=
  mkTicker [expiry_A]
           (fun exp =>
              let side := mkFrame (Some [Some (10 # 1)]) (Some [Some (3 # 8)]) in
              Some (mkChain side side)).

Definition expiry_C : string := "2024-03-15".

(** Three listed expiries; the retrieval of the second one raises and
    the third arrives without its [volume] column. *)
Definition one_good_of_three (symbol : string) : Ticker :=
  mkTicker [expiry_A; expiry_B; expiry_C]
           (fun exp =>
              if String.eqb exp expiry_A
              then Some (mkChain (one_contract 600 2000) (one_contract 900 1000))
              else if String.eqb exp expiry_C
              then Some (mkChain (mkFrame None (Some [Some (5 # 1)]))
                                 (one_contract 1 1))
              else None).

(** A row of the raw table with the given label, as [try_expiry] builds
    it from one contract per side. *)
Definition raw_row (exp : string) (call_vol put_vol call_oi put_oi : Z) : Row :=
  mkRow SYMBOL exp put_vol call_vol
        (round_if_finite 6 (ratio_or_nan (inject_Z put_vol) (inject_Z call_vol)))
        put_oi call_oi
        (round_if_finite 6 (ratio_or_nan (inject_Z put_oi) (inject_Z call_oi)))
        (put_oi + call_oi) None nan nan false nan.

Definition raw_table (l : list Row) : DataFrame := mkDF BASE_COLUMNS l [].

(** A raw table whose second label is not a date. *)
Definition bad_label_table : DataFrame :=
  raw_table [raw_row expiry_A 600 900 2000 1000;
             raw_row "not-a-date" 600 900 2000 1000].

(** A raw table with one expiry before and one after [asof_2024]. *)
Definition dated_table : DataFrame :=
  raw_table [raw_row "2023-12-29" 600 900 2000 1000;
             raw_row expiry_A 600 900 2000 1000].

Definition expiry_D : string := "2024-12-20".

(** Four expiries seen from [asof_2024]: A (17 days) and C (73 days)
    pass the quality gate, B (45 days) does not, and D (353 days) passes
    it but lies beyond the last band. *)
Definition four_expiries (symbol : string) : Ticker :=
  mkTicker [expiry_A; expiry_B; expiry_C; expiry_D]
           (fun exp =>
              if String.eqb exp expiry_A
              then Some (mkChain (one_contract 5000 20000) (one_contract 6000 30000))
              else if String.eqb exp expiry_B
              then Some (mkChain (one_contract 10 100) (one_contract 5 50))
              else if String.eqb exp expiry_C
              then Some (mkChain (one_contract 1000 10000) (one_contract 500 5000))
              else if String.eqb exp expiry_D
              then Some (mkChain (one_contract 800 20000) (one_contract 900 15000))
              else None).

(** One expiry in each band, all three with the same figures. *)
Definition three_equal (symbol : string) : Ticker :=
  mkTicker [expiry_A; expiry_B; expiry_C]
           (fun exp => Some (mkChain (one_contract 1000 10000)
                                     (one_contract 1000 10000))).

(** One expiry with put volume 300000 against call volume 1, and put open
    interest 7 against call open interest 1000000. *)
Definition steep_ratios (symbol : string) : Ticker :=
  mkTicker [expiry_A]
           (fun exp => Some (mkChain (one_contract 1 1000000)
                                     (one_contract 300000 7))).

(** A short-dated expiry with one put against a million calls, next to a
    far larger expiry beyond the last band. *)
Definition thin_puts (symbol : string) : Ticker :=
  mkTicker [expiry_A; expiry_D]
           (fun exp =>
              if String.eqb exp expiry_A
              then Some (mkChain (one_contract 1000 1000000) (one_contract 1 1))
              else Some (mkChain (one_contract 1000 1000000000) (one_contract 1 0))).

(** The enriched table of a provider, dated [asof_2024]. *)
Definition enriched (yf : string -> Ticker) : DataFrame :=
  match enrich_per_expiry iso_date asof_2024 yf SYMBOL None with
  | Ok df => df
  | Raise _ => mkDF [] [] []
  end.

(** Every retrieval raises. *)
Definition all_fail (symbol : string) : Ticker :=
  mkTicker [expiry_A; expiry_B] (fun _ => None).

End Sample.


(** ** Vocabulary of the statements *)

(** [asof or date.today()] *)
Definition as_of (today : date) (asof : option date) : date :=
  match asof with Some d => d | None => today end.

(** [q] is a whole number. *)
Definition integral (q : Q) : bool := Qeq_bool q (inject_Z (Qfloor q)).

(** Every non-null entry of a column is a whole number. *)
Definition integral_col (c : option (list float)) : bool :=
  match c with
  | Some l => forallb (fun x => match x with Some q => integral q | None => true end) l
  | None => true
  end.

(** The open-interest columns retrieved for [exp] hold whole numbers. *)
Definition integral_oi (tk : Ticker) (exp : string) : bool :=
  match option_chain tk exp with
  | Some ch => integral_col (openInterest (calls ch))
               && integral_col (openInterest (puts ch))
  | None => true
  end.

(** The [try] block of [exp] ran to its end. *)
Definition succeeded (tk : Ticker) (symbol exp : string) : bool :=
  match try_expiry tk symbol exp with Some _ => true | None => false end.

(** The rows the loop appends over the expiries [l], in loop order. *)
Definition aggregated (tk : Ticker) (symbol : string) (l : list string) : list Row :=
  flat_map (fun exp => match try_expiry tk symbol exp with
                       | Some row => [row]
                       | None => []
                       end) l.

(** The numbers of a float column, NaN cells left out. *)
Definition somes (l : list float) : list Q :=
  flat_map (fun x => match x with Some q => [q] | None => [] end) l.

(** No cell of a float column is negative. *)
Definition nonneg_cells (l : list float) : Prop :=
  Forall (fun x => match x with Some q => (0 <= q)%Q | None => True end) l.

(** [x <= y] on two cells that are numbers. *)
Definition metric_le (x y : float) : Prop :=
  match x, y with
  | Some a, Some b => (a <= b)%Q
  | _, _ => False
  end.

(** Consecutive rows follow the requested direction; equal keys may be
    neighbours. *)
Definition ordered (key : Row -> float) (descending : bool) (l : list Row) : Prop :=
  Sorted (fun a b => if descending then metric_le (key b) (key a)
                     else metric_le (key a) (key b)) l.

(** No entry of a retrieved column is negative. *)
Definition nonneg_col (c : option (list float)) : bool :=
  match c with
  | Some l => forallb (fun x => match x with Some q => Qle_bool 0 q | None => true end) l
  | None => true
  end.

(** The open-interest columns retrieved for [exp] have no negative entry. *)
Definition nonneg_oi (tk : Ticker) (exp : string) : bool :=
  match option_chain tk exp with
  | Some ch => nonneg_col (openInterest (calls ch))
               && nonneg_col (openInterest (puts ch))
  | None => true
  end.

(** What a row's impulse is, given its two ratios, in exact arithmetic.
    (For binary64 see [impulse_near_quotient].) *)
Definition impulse_consistent (r : Row) : Prop :=
  (OI_PCR r = nan -> Impulse_Vol_over_OI r = nan)
  /\ (forall o, OI_PCR r = Some o -> (o <= 0)%Q -> Impulse_Vol_over_OI r = nan)
  /\ (forall o v, OI_PCR r = Some o -> (0 < o)%Q -> Volume_PCR r = Some v ->
        exists i, Impulse_Vol_over_OI r = Some i
                  /\ (Qabs (i - v / o) <= (1 # 2) / inject_Z (10 ^ 6))%Q
                  /\ (Qabs (i * o - v) <= (1 # 2) / inject_Z (10 ^ 6) * o)%Q)
  /\ (forall o, OI_PCR r = Some o -> (0 < o)%Q -> Volume_PCR r = nan ->
                Impulse_Vol_over_OI r = nan).

(** ** Concentration summary and the per-expiry view *)

From Stdlib Require Import DecimalString.

(** A value of the summary dictionary: an [int] or a [float]. *)
Inductive value : Type :=
| VInt (z : Z)
| VFloat (x : float).

(** [str(n)] for an [int], as the f-string prints it. *)
Definition str_of_int (z : Z) : string := NilZero.string_of_int (Z.to_int z).

(** [share.sort_values(ascending=False)] on a column without NaN. *)
Definition sort_desc (l : list Q) : list Q := sort_by (fun a b => Qle_bool b a) l.

Definition compute_concentration_metrics (df : DataFrame) (top_k : Z)
  : list (string * value) :=
  let sum_total_oi := total_oi_sum (rows df) in
  let key := ("Top" ++ str_of_int top_k ++ "_TotalOIShare")%string in
  if Qle_bool sum_total_oi 0
  then [("Sum_Total_OI"%string, VInt 0); (key, VFloat nan)]
  else
    let share := map (fun r => inject_Z (Total_OI r) / sum_total_oi)%Q (rows df) in
    let top_share := qsum (prefix top_k (sort_desc share)) in
    [("Sum_Total_OI"%string, VInt (round_half_even sum_total_oi));
     (key, VFloat (Some (round_nd 6 top_share)))].

(** [d[k]] when the key is there. *)
Definition dict_get (k : string) (d : list (string * value)) : option value :=
  option_map snd (find (fun kv => String.eqb k (fst kv)) d).

Definition PER_EXPIRY_COLUMNS : list string :=
  ["Symbol"; "Expiry"; "DTE"; "Put_Volume"; "Call_Volume";
   "Volume_PCR"; "Put_OI"; "Call_OI"; "OI_PCR"; "Total_OI";
   "Divergence_Vol_minus_OI"; "Impulse_Vol_over_OI";
   "EventScore_OIshare_x_OI_PCR"; "Quality_OK"]%string.

Definition _per_expiry_table (df : DataFrame) : DataFrame :=
  let cols := filter (fun c => str_in c (columns df)) PER_EXPIRY_COLUMNS in
  mkDF cols (map (project cols) (rows df)) (attrs df).

(** ** Further vocabulary *)

(** Every non-null entry of a column is a whole number that is not
    negative: a count. *)
Definition count_col (c : option (list float)) : bool :=
  integral_col c && nonneg_col c.

(** The four columns retrieved for [exp] hold counts. *)
Definition count_feed (tk : Ticker) (exp : string) : bool :=
  match option_chain tk exp with
  | Some ch => count_col (volume (calls ch)) && count_col (volume (puts ch))
               && count_col (openInterest (calls ch))
               && count_col (openInterest (puts ch))
  | None => true
  end.

(** Row [b] does not rank before row [a] in the requested direction. *)
Definition not_before (key : Row -> float) (descending : bool) (a b : Row) : Prop :=
  if descending then metric_le (key b) (key a) else metric_le (key a) (key b).

(** The cells of the nine columns of the raw table. *)
Definition base_cells (r : Row) : string * string * Z * Z * float * Z * Z * float * Z :=
  (Symbol r, Expiry r, Put_Volume r, Call_Volume r, Volume_PCR r,
   Put_OI r, Call_OI r, OI_PCR r, Total_OI r).

(** In exact arithmetic, a stored put/call ratio is NaN exactly when the
    call count is 0, and else the quotient of the two counts rounded to six
    decimals.  (Binary64 agrees with this up to the rounding of the
    quotient: see [ratio_near_counts].) *)
Definition ratio_of_counts (ratio : float) (put call : Z) : Prop :=
  (ratio = nan <-> call = 0)
  /\ (forall q, ratio = Some q ->
                q = round_nd 6 (inject_Z put / inject_Z call) /\ (0 <= q)%Q).

(** ** Binary64 *)

From Stdlib Require PrimFloat FloatOps SpecFloat Uint63.

(** Single expressions of the script evaluated in IEEE binary64, the
    arithmetic of Python and NumPy floats, for the places where it parts
    from exact arithmetic. *)
Module Float64.

Import PrimFloat.

(** The exact value of a finite double. *)
Definition to_Q (x : float) : option Q :=
  match FloatOps.Prim2SF x with
  | SpecFloat.S754_zero _ => Some 0%Q
  | SpecFloat.S754_finite s m e =>
      let mag := if 0 <=? e
                 then inject_Z (Zpos m * 2 ^ e)
                 else Qmake (Zpos m) (Pos.pow 2 (Z.to_pos (- e))) in
      Some (if s then (- mag)%Q else mag)
  | _ => None
  end.

Definition two52 : float := 4503599627370496%float.

(** [numpy.rint]: the nearest integer, a tie going to the even neighbour.
    Below 2^52 in size, adding and taking away 2^52 rounds to an integer in
    the default rounding mode; from 2^52 on every double is an integer. *)
Definition rint (x : float) : float :=
  if (abs x <? two52)%float
  then if (x <? 0)%float then ((x - two52) + two52)%float
       else ((x + two52) - two52)%float
  else x.

(** [Series.round(6)], which is [numpy.round]: scale by 10^6, [rint],
    scale back. *)
Definition np_round6 (x : float) : float :=
  (rint (x * 1000000) / 1000000)%float.

(** The impulse cell of [add_flow_vs_positioning]:
    [np.where((oi > 0) & np.isfinite(oi) & np.isfinite(v), v / oi, np.nan)]
    followed by [.round(6)]. *)
Definition impulse (v oi : float) : float :=
  np_round6 (if (0 <? oi)%float && is_finite oi && is_finite v
             then (v / oi)%float else nan).

(** [float(s.sum())] of a three-cell column. *)
Definition sum3 (a b c : float) : float := ((a + b) + c)%float.

(** [int(round(x))] of a float, kept as a double: the nearest integer, a tie
    going to the even neighbour. *)
Definition int_round (x : float) : float := rint x.

(** The three open-interest cells of a row of [per_expiry_totals], from the
    two column sums [p_oi] and [c_oi]. *)
Definition Put_OI (p_oi c_oi : float) : float := int_round p_oi.
Definition Call_OI (p_oi c_oi : float) : float := int_round c_oi.
Definition Total_OI (p_oi c_oi : float) : float := int_round (p_oi + c_oi).

(** Python's [round(x, 6)] of a finite double with fewer than sixteen
    digits: the double nearest to the exact value of [x] rounded, a tie
    going to the even neighbour, to six decimals. *)
Definition py_round6 (x : float) : float :=
  match to_Q x with
  | Some q =>
      let k := Num.round_half_even (q * inject_Z 1000000) in
      if Z.ltb k 0
      then (- (of_uint63 (Uint63.of_Z (- k)) / 1000000))%float
      else (of_uint63 (Uint63.of_Z k) / 1000000)%float
  | None => x
  end.

(** A put/call ratio of [per_expiry_totals] over a positive call total:
    the quotient [p / c], and the cell [round(float(p / c), 6)] stored for
    it. *)
Definition pcr (p c : float) : float := (p / c)%float.
Definition stored_pcr (p c : float) : float := py_round6 (pcr p c).

(** Doubles the examples use; a decimal that is not a double is written
    as a quotient of whole numbers, which rounds to the double nearest to
    it. *)
Definition one : float := 1%float.
Definition two53 : float := 9007199254740992%float.
Definition d300000 : float := 300000%float.
Definition d7em6 : float := (7 / 1000000)%float.
Definition d0_333333 : float := (333333 / 1000000)%float.
Definition d2633 : float := 2633%float.
Definition d640 : float := 640%float.

End Float64.

(** ** Vocabulary of the statements that carry a tolerance *)

(** The per-expiry total of the retrieved open interest is at most
    [bound]. *)
Definition oi_at_most (bound : Z) (tk : Ticker) (exp : string) : bool :=
  match option_chain tk exp with
  | Some ch =>
      match openInterest (calls ch), openInterest (puts ch) with
      | Some co, Some po =>
          Qle_bool (qsum (fillna 0 co) + qsum (fillna 0 po)) (inject_Z bound)
      | _, _ => true
      end
  | None => true
  end.

(** The open interest retrieved for [exp] consists of counts (whole, not
    negative, possibly null) that add up to at most 2^53, the range in
    which binary64 adds whole numbers without loss. *)
Definition exact_oi (tk : Ticker) (exp : string) : bool :=
  integral_oi tk exp && nonneg_oi tk exp && oi_at_most (2 ^ 53) tk exp.

(** Each of the four columns retrieved for [exp] adds up to at most
    [bound]. *)
Definition feed_at_most (bound : Z) (tk : Ticker) (exp : string) : bool :=
  match option_chain tk exp with
  | Some ch =>
      let within c := match c with
                      | Some l => Qle_bool (qsum (fillna 0 l)) (inject_Z bound)
                      | None => true
                      end in
      within (volume (calls ch)) && within (volume (puts ch))
      && within (openInterest (calls ch)) && within (openInterest (puts ch))
  | None => true
  end.

(** The four columns retrieved for [exp] hold counts, each column adding up
    to at most 10^9. *)
Definition ordinary_feed (tk : Ticker) (exp : string) : bool :=
  count_feed tk exp && feed_at_most (10 ^ 9) tk exp.

(** A stored put/call ratio goes with the two stored counts next to it:
    NaN exactly when the call count is 0, and otherwise a number that is
    not negative and within 1e-6 of put / call. *)
Definition ratio_near_counts (ratio : float) (put call : Z) : Prop :=
  (ratio = nan <-> call = 0)
  /\ (forall q, ratio = Some q ->
                (0 <= q)%Q
                /\ (Qabs (q - inject_Z put / inject_Z call) <= 1 # 1000000)%Q).

(** What a row's impulse is, given its two ratios: NaN unless both are
    numbers and OI_PCR is positive, and then a number which, while the
    quotient is at most 10^8 in size, is within 1e-6 of it. *)
Definition impulse_near_quotient (r : Row) : Prop :=
  (OI_PCR r = nan -> Impulse_Vol_over_OI r = nan)
  /\ (forall o, OI_PCR r = Some o -> (o <= 0)%Q -> Impulse_Vol_over_OI r = nan)
  /\ (forall o, OI_PCR r = Some o -> (0 < o)%Q -> Volume_PCR r = nan ->
                Impulse_Vol_over_OI r = nan)
  /\ (forall o v, OI_PCR r = Some o -> (0 < o)%Q -> Volume_PCR r = Some v ->
        exists i, Impulse_Vol_over_OI r = Some i
                  /\ ((Qabs (v / o) <= inject_Z (10 ^ 8))%Q ->
                      (Qabs (i - v / o) <= 1 # 1000000)%Q
                      /\ (Qabs (i * o - v) <= (1 # 1000000) * o)%Q)).

(** The rows hold counts: no count is negative and each count column adds
    up to at most [bound]. *)
Definition count_table (bound : Z) (l : list Row) : Prop :=
  Forall (fun r => 0 <= Put_OI r /\ 0 <= Call_OI r
                   /\ 0 <= Put_Volume r /\ 0 <= Call_Volume r
                   /\ 0 <= Total_OI r) l
  /\ zsum (map Put_OI l) <= bound
  /\ zsum (map Call_OI l) <= bound
  /\ zsum (map Put_Volume l) <= bound
  /\ zsum (map Call_Volume l) <= bound
  /\ zsum (map Total_OI l) <= bound.

(** ** The script's expressions, every operation rounded *)

(** The same expressions with the rounding of each floating-point operation
    written as a function [fl] from the exact result to the stored one.
    Round-to-nearest binary64 is one such function; all that is used of it
    is [accurate]. *)
Module Rounded.

(** The unit roundoff of binary64, 2^-53. *)
Definition u : Q := 1 # 9007199254740992.

(** [fl] returns a result within a relative error of 2^-53, and returns a
    whole number of at most 2^53 in size as it is. *)
Definition accurate (fl : Q -> Q) : Prop :=
  (forall x : Q, (Qabs (fl x - x) <= u * Qabs x)%Q)
  /\ (forall (x : Q) (z : Z),
         (x == inject_Z z)%Q -> Z.abs z <= 2 ^ 53 -> (fl x == inject_Z z)%Q).

Section Expressions.

Variable fl : Q -> Q.

(** [Series.round(6)]: the product with 10^6 is rounded, [rint] is exact,
    the quotient by 10^6 is rounded. *)
Definition np_round6 (x : Q) : Q :=
  fl (inject_Z (round_half_even (fl (x * (1000000 # 1)))) / (1000000 # 1)).

(** [round(x, 6)]: the double nearest to the decimal rounding of [x]. *)
Definition py_round6 (x : Q) : Q := fl (round_nd 6 x).

(** The impulse cell for [OI_PCR = o > 0] and [Volume_PCR = v]. *)
Definition impulse (v o : Q) : Q := np_round6 (fl (v / o)).

(** The ratio cell [round(float(p / c), 6)] for [c > 0]. *)
Definition pcr (p c : Q) : Q := py_round6 (fl (p / c)).

(** [float(s.sum())] of a float column, added up from the left. *)
Definition sum (l : list Q) : Q := fold_left (fun a x => fl (a + x)) l 0%Q.

(** The concentration shares of the buckets whose score is a number, from
    those scores: each over their sum when that is positive, rounded to six
    decimals. *)
Definition shares (scores : list Q) : list Q :=
  map (fun s => np_round6 (fl (s / sum scores))) scores.

(** The three open-interest cells of a row, from the two columns. *)
Definition Put_OI (po co : list Q) : Z := round_half_even (sum po).
Definition Call_OI (po co : list Q) : Z := round_half_even (sum co).
Definition Total_OI (po co : list Q) : Z := round_half_even (fl (sum po + sum co)).

End Expressions.

End Rounded.

(** Every entry is a whole number that is not negative. *)
Definition counts (l : list Q) : Prop :=
  Forall (fun q => exists z : Z, 0 <= z /\ (q == inject_Z z)%Q) l.
(** * Verification *)

(** ** The two-expiry example *)

(** C1.  On the two-expiry input (A: call_vol=600, put_vol=900,
    call_oi=2000, put_oi=1000; B: call_vol=0, put_vol=50, call_oi=500,
    put_oi=2000) the pipeline yields, for A, volume_pcr 1.5, oi_pcr 0.5 and
    impulse 3; for B, volume_pcr NaN, oi_pcr 4 and impulse NaN.  The
    table-wide total open interest is 5500, A's event score is
    round((3000/5500)*0.5, 8), about 0.272727, and B's is
    round((2500/5500)*4, 8), about 1.818182.  (The run is dated
    2024-01-02; the date only enters the DTE column.) *)
Theorem two_expiry_example :
  exists (a b : Row) (df : DataFrame),
    enrich_per_expiry Sample.iso_date Sample.asof_2024 Sample.two_expiries SYMBOL None
    = Ok df
    /\ rows df = [a; b]
    /\ (Call_Volume a, Put_Volume a, Call_OI a, Put_OI a) = (600, 900, 2000, 1000)
    /\ (Call_Volume b, Put_Volume b, Call_OI b, Put_OI b) = (0, 50, 500, 2000)
    /\ Volume_PCR a = Some (3 # 2)
    /\ OI_PCR a = Some (1 # 2)
    /\ Impulse_Vol_over_OI a = Some (3 # 1)
    /\ Volume_PCR b = nan
    /\ OI_PCR b = Some (4 # 1)
    /\ Impulse_Vol_over_OI b = nan
    /\ total_oi_sum (rows df) = 5500 # 1
    /\ (Total_OI a, Total_OI b) = (3000, 2500)
    /\ EventScore_OIshare_x_OI_PCR a = Some (round_nd 8 ((3000 # 5500) * (1 # 2)))
    /\ EventScore_OIshare_x_OI_PCR b = Some (round_nd 8 ((2500 # 5500) * (4 # 1)))
    /\ (Qabs (round_nd 8 ((3000 # 5500) * (1 # 2)) - (272727 # 1000000)) < 1 # 1000000)%Q
    /\ (Qabs (round_nd 8 ((2500 # 5500) * (4 # 1)) - (1818182 # 1000000)) < 1 # 1000000)%Q.
Proof.
  eexists _, _, _.
  split; [ vm_compute; reflexivity | ].
  split; [ reflexivity | ].
  repeat split; vm_compute; reflexivity.
Qed.

(** ** Rounding *)

Section RoundingFacts.

Local Open Scope Q_scope.

Lemma round_half_even_error (x : Q) :
  Qabs (inject_Z (round_half_even x) - x) <= 1 # 2.
Proof.
  unfold round_half_even.
  pose proof (Qfloor_le x) as Hlo.
  pose proof (Qlt_floor x) as Hhi.
  rewrite inject_Z_plus in Hhi. change (inject_Z 1) with 1 in Hhi.
  apply Qabs_Qle_condition.
  destruct (Qcompare (x - inject_Z (Qfloor x)) (1 # 2)) eqn:Hc.
  - apply Qeq_alt in Hc.
    destruct (Z.even (Qfloor x));
      [ | rewrite inject_Z_plus; change (inject_Z 1) with 1 ]; lra.
  - apply Qlt_alt in Hc. lra.
  - apply Qgt_alt in Hc. rewrite inject_Z_plus. change (inject_Z 1) with 1. lra.
Qed.

Lemma round_half_even_comp (x y : Q) :
  x == y -> round_half_even x = round_half_even y.
Proof.
  intros E. unfold round_half_even.
  rewrite (Qfloor_comp _ _ E).
  assert (Hc : Qcompare (x - inject_Z (Qfloor y)) (1 # 2)
               = Qcompare (y - inject_Z (Qfloor y)) (1 # 2)).
  { apply Qcompare_comp; [ rewrite E; reflexivity | reflexivity ]. }
  rewrite Hc. reflexivity.
Qed.

Lemma round_half_even_Z (z : Z) : round_half_even (inject_Z z) = z.
Proof.
  unfold round_half_even. rewrite Qfloor_Z.
  assert (Hc : Qcompare (inject_Z z - inject_Z z) (1 # 2) = Lt).
  { apply (proj1 (Qlt_alt _ _)). lra. }
  rewrite Hc. reflexivity.
Qed.

Lemma round_half_even_integer (x : Q) (z : Z) :
  x == inject_Z z -> round_half_even x = z.
Proof.
  intros E. rewrite (round_half_even_comp _ _ E). apply round_half_even_Z.
Qed.

(** Rounding does not cross an integer: a value at or above [z] rounds
    to at least [z], and symmetrically. *)
Lemma round_half_even_ge (x : Q) (z : Z) :
  inject_Z z <= x -> (z <= round_half_even x)%Z.
Proof.
  intros H. unfold round_half_even.
  assert (Hf : (z <= Qfloor x)%Z).
  { rewrite <- (Qfloor_Z z). apply Qfloor_resp_le. exact H. }
  destruct (Qcompare _ _); [ destruct (Z.even _) | | ]; lia.
Qed.

Lemma round_half_even_le (x : Q) (z : Z) :
  x <= inject_Z z -> (round_half_even x <= z)%Z.
Proof.
  intros H.
  destruct (Z_le_gt_dec (round_half_even x) z) as [ | Hgt ]; [ assumption | exfalso ].
  unfold round_half_even in Hgt.
  pose proof (Qfloor_le x) as Hlo.
  assert (Hf : (Qfloor x <= z)%Z).
  { rewrite Zle_Qle. lra. }
  assert (Hz : Qfloor x = z).
  { destruct (Qcompare _ _); [ destruct (Z.even _) | | ]; lia. }
  assert (Hx : x == inject_Z z) by (rewrite <- Hz in *; lra).
  assert (Hc : Qcompare (x - inject_Z (Qfloor x)) (1 # 2) = Lt).
  { apply (proj1 (Qlt_alt _ _)). rewrite Hz. lra. }
  rewrite Hc in Hgt. lia.
Qed.

Lemma round_nd_eq (n : nat) (x : Q) :
  round_nd n x
  == inject_Z (round_half_even (x * inject_Z (Zpos (pow10 n)))) / inject_Z (Zpos (pow10 n)).
Proof.
  unfold round_nd. rewrite Qred_correct.
  rewrite Qmake_Qdiv. reflexivity.
Qed.

Lemma pow10_pos (n : nat) : 0 < inject_Z (Zpos (pow10 n)).
Proof. reflexivity. Qed.

(** The error of [round_nd n] is at most half a unit of the [n]-th
    decimal. *)
Lemma round_nd_error (n : nat) (x : Q) :
  Qabs (round_nd n x - x) <= (1 # 2) / inject_Z (Zpos (pow10 n)).
Proof.
  rewrite round_nd_eq.
  set (p := inject_Z (Zpos (pow10 n))).
  assert (Hp : 0 < p) by apply pow10_pos.
  pose proof (round_half_even_error (x * p)) as He.
  set (k := inject_Z (round_half_even (x * p))) in *.
  apply Qabs_Qle_condition in He. destruct He as [H1 H2].
  apply Qabs_Qle_condition.
  assert (Hd1 : k / p - x == (k - x * p) / p) by (field; lra).
  rewrite Hd1. split.
  - apply Qle_shift_div_l; [ exact Hp | ].
    assert (E : - ((1 # 2) / p) * p == - (1 # 2)) by (field; lra).
    rewrite E. exact H1.
  - apply Qle_shift_div_r; [ exact Hp | ].
    assert (E : (1 # 2) / p * p == 1 # 2) by (field; lra).
    rewrite E. exact H2.
Qed.

Lemma round_nd_nonneg (n : nat) (x : Q) : 0 <= x -> 0 <= round_nd n x.
Proof.
  intros H. rewrite round_nd_eq.
  set (p := inject_Z (Zpos (pow10 n))).
  assert (Hp : 0 < p) by apply pow10_pos.
  apply Qle_shift_div_l; [ exact Hp | ].
  rewrite Qmult_0_l.
  change 0 with (inject_Z 0). rewrite <- Zle_Qle.
  apply round_half_even_ge. change (inject_Z 0) with 0.
  apply Qmult_le_0_compat; lra.
Qed.

Lemma round_nd_nonpos (n : nat) (x : Q) : x <= 0 -> round_nd n x <= 0.
Proof.
  intros H. rewrite round_nd_eq.
  set (p := inject_Z (Zpos (pow10 n))).
  assert (Hp : 0 < p) by apply pow10_pos.
  apply Qle_shift_div_r; [ exact Hp | ].
  rewrite Qmult_0_l.
  change 0 with (inject_Z 0). rewrite <- Zle_Qle.
  apply round_half_even_le. change (inject_Z 0) with 0.
  assert (Hm : 0 <= (- x) * p) by (apply Qmult_le_0_compat; lra).
  lra.
Qed.

End RoundingFacts.

(** ** Lists, sorting and slices *)

Section ListFacts.

Context {A : Type}.

Lemma insert_by_perm (leb : A -> A -> bool) (x : A) (l : list A) :
  Permutation (insert_by leb x l) (x :: l).
Proof.
  induction l as [ | y tl IH ]; simpl.
  - apply Permutation_refl.
  - destruct (leb x y).
    + apply Permutation_refl.
    + eapply perm_trans; [ apply perm_skip, IH | apply perm_swap ].
Qed.

Lemma sort_by_perm (leb : A -> A -> bool) (l : list A) :
  Permutation (sort_by leb l) l.
Proof.
  induction l as [ | x tl IH ]; simpl.
  - apply perm_nil.
  - eapply perm_trans; [ apply insert_by_perm | apply perm_skip, IH ].
Qed.

Lemma sort_by_nil (leb : A -> A -> bool) (l : list A) :
  sort_by leb l = [] -> l = [].
Proof.
  intros H. apply Permutation_nil.
  rewrite <- H. apply sort_by_perm.
Qed.

Variable leb : A -> A -> bool.
Hypothesis leb_total : forall a b, leb a b = false -> leb b a = true.

Lemma insert_by_sorted (x : A) (l : list A) :
  Sorted (fun a b => leb a b = true) l ->
  Sorted (fun a b => leb a b = true) (insert_by leb x l).
Proof.
  induction 1 as [ | y tl Hs IH Hhd ]; simpl.
  - repeat constructor.
  - destruct (leb x y) eqn:E.
    + constructor; [ constructor; assumption | constructor; exact E ].
    + constructor; [ exact IH | ].
      destruct tl as [ | z tl' ]; simpl.
      * constructor. apply leb_total, E.
      * destruct (leb x z); constructor.
        -- apply leb_total, E.
        -- inversion Hhd; assumption.
Qed.

Lemma sort_by_sorted (l : list A) :
  Sorted (fun a b => leb a b = true) (sort_by leb l).
Proof.
  induction l as [ | x tl IH ]; simpl.
  - constructor.
  - apply insert_by_sorted, IH.
Qed.

End ListFacts.

Lemma Sorted_firstn {A : Type} (R : A -> A -> Prop) (n : nat) (l : list A) :
  Sorted R l -> Sorted R (firstn n l).
Proof.
  revert l. induction n as [ | n IH ]; intros l Hs; simpl.
  - constructor.
  - destruct l as [ | x tl ]; [ constructor | ].
    inversion Hs as [ | ? ? Htl Hhd ]; subst.
    constructor; [ apply IH, Htl | ].
    destruct n; simpl; [ constructor | ].
    destruct tl; [ constructor | ].
    inversion Hhd; subst. constructor. assumption.
Qed.

Lemma Sorted_map {A B : Type} (R : B -> B -> Prop) (f : A -> B) (l : list A) :
  Sorted (fun a b => R (f a) (f b)) l -> Sorted R (map f l).
Proof.
  induction 1 as [ | x tl Hs IH Hhd ]; simpl; constructor.
  - exact IH.
  - destruct Hhd; simpl; constructor. assumption.
Qed.

Lemma firstn_incl {A : Type} (n : nat) (l : list A) (x : A) :
  In x (firstn n l) -> In x l.
Proof.
  intros H. rewrite <- (firstn_skipn n l). apply in_or_app. left. exact H.
Qed.

Lemma prefix_incl {A : Type} (n : Z) (l : list A) (x : A) :
  In x (prefix n l) -> In x l.
Proof.
  unfold prefix. destruct (0 <=? n); apply firstn_incl.
Qed.

Lemma prefix_length {A : Type} (n : Z) (l : list A) :
  0 <= n -> Z.of_nat (List.length (prefix n l)) <= n.
Proof.
  intros Hn. unfold prefix.
  destruct (Z.leb_spec 0 n); [ | lia ].
  pose proof (firstn_le_length (Z.to_nat n) l).
  rewrite length_firstn. lia.
Qed.

Lemma prefix_sorted {A : Type} (R : A -> A -> Prop) (n : Z) (l : list A) :
  Sorted R l -> Sorted R (prefix n l).
Proof.
  intros H. unfold prefix. destruct (0 <=? n); apply Sorted_firstn, H.
Qed.

Lemma prefix_nil {A : Type} (n : Z) : prefix n (@nil A) = [].
Proof.
  unfold prefix. destruct (0 <=? n); apply firstn_nil.
Qed.

(** ** Raw aggregation *)

Lemma loop_fold (tk : Ticker) (symbol : string) (l : list string) (st : list Row * Z) :
  fold_left (loop_step tk symbol) l st
  = (fst st ++ aggregated tk symbol l,
     snd st + Z.of_nat (List.length (aggregated tk symbol l))).
Proof.
  revert st. induction l as [ | exp tl IH ]; intros [rs used]; simpl.
  - rewrite app_nil_r, Z.add_0_r. reflexivity.
  - rewrite IH. unfold loop_step.
    destruct (try_expiry tk symbol exp) as [ row | ]; simpl.
    + rewrite <- app_assoc. simpl. f_equal. lia.
    + reflexivity.
Qed.

Lemma aggregated_expiries (tk : Ticker) (symbol : string) (l : list string) :
  map Expiry (aggregated tk symbol l) = filter (succeeded tk symbol) l.
Proof.
  induction l as [ | exp tl IH ]; simpl; [ reflexivity | ].
  unfold succeeded at 1.
  destruct (try_expiry tk symbol exp) as [ row | ] eqn:E; simpl.
  - f_equal; [ | exact IH ].
    unfold try_expiry in E.
    destruct (option_chain tk exp) as [ ch | ]; [ | discriminate ].
    destruct (volume (calls ch)), (volume (puts ch)),
             (openInterest (calls ch)), (openInterest (puts ch));
      try discriminate.
    injection E as <-. reflexivity.
  - exact IH.
Qed.

Lemma aggregated_nil_iff (tk : Ticker) (symbol : string) (l : list string) :
  aggregated tk symbol l = [] <-> filter (succeeded tk symbol) l = [].
Proof.
  rewrite <- aggregated_expiries.
  destruct (aggregated tk symbol l); simpl; split; congruence.
Qed.

Lemma per_expiry_totals_unfold (yf : string -> Ticker) (symbol : string)
      (max_expiries : option Z) :
  let tk := yf symbol in
  let expiries := requested_expiries tk max_expiries in
  per_expiry_totals yf symbol max_expiries
  = match options tk with
    | [] => Raise (RuntimeError ("No option expirations for " ++ symbol))
    | _ =>
        match aggregated tk symbol expiries with
        | [] => Raise (RuntimeError ("No chain data aggregated for " ++ symbol))
        | _ =>
            Ok (mkDF BASE_COLUMNS (sort_values_Expiry (aggregated tk symbol expiries))
                     [("Expiries_Used"%string,
                       Z.of_nat (List.length (aggregated tk symbol expiries)));
                      ("Expiries_Requested"%string, Z.of_nat (List.length expiries))])
        end
    end.
Proof.
  intros tk expiries. unfold per_expiry_totals. fold tk. fold expiries.
  rewrite loop_fold. simpl.
  destruct (options tk); reflexivity.
Qed.

Lemma requested_of_no_options (tk : Ticker) (max_expiries : option Z) :
  options tk = [] -> requested_expiries tk max_expiries = [].
Proof.
  intros H. unfold requested_expiries. rewrite H.
  destruct max_expiries; [ apply prefix_nil | reflexivity ].
Qed.

(** C6.  A failure inside the [try] block of one expiry (the retrieval
    raising, or a column missing) drops that expiry only: the table holds
    exactly the rows of the expiries that succeeded, sorted by label.
    [Expiries_Used] counts the expiries that succeeded, which is
    [Expiries_Requested] less the number of failures, while
    [Expiries_Requested] is the number of listed (and capped) expiries and so
    is the same for any provider that lists the same expiries.  When no
    expiry yields a row the call raises [RuntimeError] (the "no data" error)
    and returns no table. *)
Theorem per_expiry_totals_failure_policy (yf : string -> Ticker) (symbol : string)
        (max_expiries : option Z) :
  let tk := yf symbol in
  let expiries := requested_expiries tk max_expiries in
  let used := filter (succeeded tk symbol) expiries in
  let failed := filter (fun exp => negb (succeeded tk symbol exp)) expiries in
  match per_expiry_totals yf symbol max_expiries with
  | Ok df =>
      used <> []
      /\ rows df = sort_values_Expiry (aggregated tk symbol expiries)
      /\ Permutation (map Expiry (rows df)) used
      /\ attrs_get "Expiries_Used" (attrs df) = Some (Z.of_nat (List.length used))
      /\ attrs_get "Expiries_Requested" (attrs df)
         = Some (Z.of_nat (List.length expiries))
      /\ Z.of_nat (List.length used)
         = Z.of_nat (List.length expiries) - Z.of_nat (List.length failed)
      /\ (forall (yf' : string -> Ticker) (df' : DataFrame),
             options (yf' symbol) = options tk ->
             per_expiry_totals yf' symbol max_expiries = Ok df' ->
             attrs_get "Expiries_Requested" (attrs df')
             = attrs_get "Expiries_Requested" (attrs df))
  | Raise e =>
      used = []
      /\ exists msg, e = RuntimeError (msg ++ symbol)
  end.
Proof.
  intros tk expiries used failed.
  assert (Hlen : Z.of_nat (List.length used)
                 = Z.of_nat (List.length expiries) - Z.of_nat (List.length failed)).
  { subst used failed. clear. induction expiries as [ | e tl IH ]; [ reflexivity | ].
    cbn [filter]. destruct (succeeded tk symbol e); cbn [negb List.length];
      rewrite ?Nat2Z.inj_succ; lia. }
  assert (Hother : forall (yf' : string -> Ticker) (df' : DataFrame),
             options (yf' symbol) = options tk ->
             per_expiry_totals yf' symbol max_expiries = Ok df' ->
             attrs_get "Expiries_Requested" (attrs df')
             = Some (Z.of_nat (List.length expiries))).
  { intros yf' df' Hsame Hok.
    pose proof (per_expiry_totals_unfold yf' symbol max_expiries) as Hu'.
    cbv zeta in Hu'. rewrite Hu' in Hok.
    assert (Hreq : requested_expiries (yf' symbol) max_expiries = expiries).
    { subst expiries. unfold requested_expiries. rewrite Hsame. reflexivity. }
    rewrite Hreq in Hok.
    destruct (options (yf' symbol)); [ discriminate | ].
    destruct (aggregated (yf' symbol) symbol expiries); [ discriminate | ].
    injection Hok as <-. reflexivity. }
  pose proof (per_expiry_totals_unfold yf symbol max_expiries) as Hu.
  cbv zeta in Hu. fold tk in Hu. fold expiries in Hu. rewrite Hu.
  destruct (options tk) as [ | o os ] eqn:Hopt.
  - split; [ | eexists; reflexivity ].
    subst used expiries. rewrite (requested_of_no_options tk max_expiries Hopt).
    reflexivity.
  - destruct (aggregated tk symbol expiries) as [ | r rs ] eqn:Hagg.
    + split; [ | eexists; reflexivity ].
      apply aggregated_nil_iff. exact Hagg.
    + rewrite <- Hagg.
      assert (Hused : map Expiry (aggregated tk symbol expiries) = used)
        by apply aggregated_expiries.
      split.
      { intros Hnil. apply aggregated_nil_iff in Hnil. congruence. }
      split; [ reflexivity | ].
      split.
      { cbn [rows]. rewrite <- Hused. apply Permutation_map, sort_by_perm. }
      split.
      { cbn. rewrite <- Hused, length_map. reflexivity. }
      split; [ reflexivity | ].
      split; [ exact Hlen | ].
      intros yf' df' Hsame Hok.
      rewrite (Hother yf' df' Hsame Hok). reflexivity.
Qed.

(** Of three listed expiries, one retrieval raises and one chain lacks a
    column: one row is kept, one expiry is used, three were requested. *)
Example one_good_of_three_run :
  exists df,
    per_expiry_totals Sample.one_good_of_three SYMBOL None = Ok df
    /\ map Expiry (rows df) = [Sample.expiry_A]
    /\ attrs df = [("Expiries_Used"%string, 1); ("Expiries_Requested"%string, 3)].
Proof.
  eexists. split; [ vm_compute; reflexivity | split; reflexivity ].
Qed.

Example all_fail_run :
  per_expiry_totals Sample.all_fail SYMBOL None
  = Raise (RuntimeError "No chain data aggregated for SPY").
Proof. reflexivity. Qed.

(** ** Total open interest against its two sides *)

Lemma qsum_fold (l : list Q) (a : Q) : (fold_left Qplus l a == a + qsum l)%Q.
Proof.
  unfold qsum. revert a. induction l as [ | x tl IH ]; intros a; simpl.
  - ring.
  - rewrite (IH (a + x)%Q), (IH (0 + x)%Q). ring.
Qed.

Lemma qsum_cons (x : Q) (l : list Q) : (qsum (x :: l) == x + qsum l)%Q.
Proof.
  unfold qsum at 1. simpl. rewrite qsum_fold. ring.
Qed.

Lemma integral_spec (q : Q) : integral q = true -> (q == inject_Z (Qfloor q))%Q.
Proof.
  unfold integral. apply Qeq_bool_iff.
Qed.

Lemma integral_col_sum (l : list float) :
  integral_col (Some l) = true ->
  exists z : Z, (qsum (fillna 0 l) == inject_Z z)%Q.
Proof.
  induction l as [ | x tl IH ]; simpl; intros H.
  - exists 0. reflexivity.
  - apply andb_prop in H. destruct H as [Hx Htl].
    destruct (IH Htl) as [z Hz].
    destruct x as [ q | ].
    + exists (Qfloor q + z). rewrite qsum_cons, Hz, inject_Z_plus.
      rewrite <- (integral_spec q Hx). reflexivity.
    + exists z. rewrite qsum_cons, Hz. ring.
Qed.

Lemma try_expiry_total_oi (tk : Ticker) (symbol exp : string) (row : Row) :
  integral_oi tk exp = true ->
  try_expiry tk symbol exp = Some row ->
  Total_OI row = Put_OI row + Call_OI row.
Proof.
  unfold integral_oi, try_expiry. intros Hint Htry.
  destruct (option_chain tk exp) as [ ch | ]; [ | discriminate ].
  destruct (volume (calls ch)) as [ cv | ]; [ | discriminate ].
  destruct (volume (puts ch)) as [ pv | ]; [ | discriminate ].
  destruct (openInterest (calls ch)) as [ co | ]; [ | discriminate ].
  destruct (openInterest (puts ch)) as [ po | ]; [ | discriminate ].
  apply andb_prop in Hint. destruct Hint as [Hc Hp].
  destruct (integral_col_sum co Hc) as [zc Ezc].
  destruct (integral_col_sum po Hp) as [zp Ezp].
  injection Htry as <-. cbn [Total_OI Put_OI Call_OI].
  rewrite (round_half_even_integer _ zp Ezp).
  rewrite (round_half_even_integer _ zc Ezc).
  apply round_half_even_integer.
  rewrite Ezp, Ezc, inject_Z_plus. reflexivity.
Qed.

Lemma aggregated_Forall (P : Row -> Prop) (tk : Ticker) (symbol : string)
      (l : list string) :
  (forall exp row, In exp l -> try_expiry tk symbol exp = Some row -> P row) ->
  Forall P (aggregated tk symbol l).
Proof.
  induction l as [ | exp tl IH ]; intros H; simpl; [ constructor | ].
  apply Forall_app. split.
  - destruct (try_expiry tk symbol exp) as [ row | ] eqn:E; constructor.
    + apply (H exp row); [ left; reflexivity | exact E ].
    + constructor.
  - apply IH. intros e r Hin. apply H. right. exact Hin.
Qed.

(** C5, as the code has it.  When the open-interest entries retrieved for
    the requested expiries are counts (whole, not negative, null entries
    allowed) that add up, per expiry, to at most 2^53, every row of the raw
    aggregation has [Total_OI = Put_OI + Call_OI] exactly. *)
Theorem total_oi_is_put_plus_call (yf : string -> Ticker) (symbol : string)
        (max_expiries : option Z) (df : DataFrame) :
  forallb (exact_oi (yf symbol)) (requested_expiries (yf symbol) max_expiries) = true ->
  per_expiry_totals yf symbol max_expiries = Ok df ->
  Forall (fun r => Total_OI r = Put_OI r + Call_OI r) (rows df).
Proof.
  intros Hint Hok.
  pose proof (per_expiry_totals_unfold yf symbol max_expiries) as Hu.
  cbv zeta in Hu. rewrite Hu in Hok. clear Hu.
  destruct (options (yf symbol)); [ discriminate | ].
  set (expiries := requested_expiries (yf symbol) max_expiries) in *.
  assert (Hall : Forall (fun r => Total_OI r = Put_OI r + Call_OI r)
                        (aggregated (yf symbol) symbol expiries)).
  { apply aggregated_Forall. intros exp row Hin Htry.
    apply (try_expiry_total_oi (yf symbol) symbol exp); [ | exact Htry ].
    rewrite forallb_forall in Hint. specialize (Hint exp Hin).
    unfold exact_oi in Hint.
    apply andb_prop in Hint. destruct Hint as [Hint _].
    apply andb_prop in Hint. destruct Hint as [Hint _]. exact Hint. }
  destruct (aggregated (yf symbol) symbol expiries) eqn:Hagg; [ discriminate | ].
  injection Hok as <-. cbn [rows].
  rewrite Forall_forall in *. intros x Hx. apply Hall.
  eapply Permutation_in; [ apply sort_by_perm | exact Hx ].
Qed.

Lemma total_oi_is_put_plus_call_witness :
  exists df,
    per_expiry_totals Sample.two_expiries SYMBOL None = Ok df
    /\ Forall (fun r => Total_OI r = Put_OI r + Call_OI r) (rows df).
Proof.
  eexists. split.
  - vm_compute. reflexivity.
  - apply (total_oi_is_put_plus_call Sample.two_expiries SYMBOL None).
    + vm_compute. reflexivity.
    + vm_compute. reflexivity.
Defined.

(** C5, as stated, fails twice over.  On fractional sums: with an open
    interest of 3/8 on each side, both sides round to 0 and their sum 3/4
    rounds to 1.  On large counts: in binary64 the sum of 1 and 2^53 is
    2^53, so the row stores a total that is one below its two sides. *)
Lemma total_oi_rounding_drift :
  (exists df r,
      per_expiry_totals Sample.fractional_oi SYMBOL None = Ok df
      /\ rows df = [r]
      /\ Put_OI r = 0 /\ Call_OI r = 0 /\ Total_OI r = 1
      /\ (Total_OI r =? Put_OI r + Call_OI r) = false)
  /\ (exists p c t : Q,
         Float64.to_Q (Float64.Put_OI Float64.one Float64.two53) = Some p
         /\ Float64.to_Q (Float64.Call_OI Float64.one Float64.two53) = Some c
         /\ Float64.to_Q (Float64.Total_OI Float64.one Float64.two53) = Some t
         /\ (p == 1)%Q /\ (c == inject_Z (2 ^ 53))%Q /\ (t == inject_Z (2 ^ 53))%Q
         /\ (t < p + c)%Q).
Proof.
  split.
  - eexists _, _. split; [ vm_compute; reflexivity | ].
    repeat split.
  - eexists _, _, _.
    split; [ vm_compute; reflexivity | ].
    split; [ vm_compute; reflexivity | ].
    split; [ vm_compute; reflexivity | ].
    repeat split.
Qed.

(** ** Divergence and impulse *)

Lemma Qltb_true (a b : Q) : Qltb a b = true <-> (a < b)%Q.
Proof.
  unfold Qltb. rewrite negb_true_iff. split; intros H.
  - apply Qnot_le_lt. intros Hle. apply Qle_bool_iff in Hle. congruence.
  - destruct (Qle_bool b a) eqn:E; [ | reflexivity ].
    apply Qle_bool_iff in E. exfalso. apply (Qlt_not_le _ _ H E).
Qed.

Lemma Qltb_false (a b : Q) : Qltb a b = false <-> (b <= a)%Q.
Proof.
  unfold Qltb. rewrite negb_false_iff. apply Qle_bool_iff.
Qed.

Lemma ratio_or_nan_some (a b q : Q) :
  ratio_or_nan a b = Some q -> (0 < b)%Q /\ q = (a / b)%Q.
Proof.
  unfold ratio_or_nan. destruct (Qltb 0 b) eqn:E; [ | discriminate ].
  intros [= <-]. split; [ apply Qltb_true, E | reflexivity ].
Qed.

Lemma scaled_error (i v o tol : Q) :
  (0 < o)%Q -> (Qabs (i - v / o) <= tol)%Q -> (Qabs (i * o - v) <= tol * o)%Q.
Proof.
  intros Ho H. apply Qabs_Qle_condition in H. destruct H as [H1 H2].
  apply Qabs_Qle_condition.
  assert (E : (i * o - v == (i - v / o) * o)%Q) by (field; lra).
  rewrite E. split.
  - assert (E' : (- (tol * o) == (- tol) * o)%Q) by ring.
    rewrite E'. apply Qmult_le_compat_r; lra.
  - apply Qmult_le_compat_r; lra.
Qed.

Lemma flow_row_impulse (r : Row) : impulse_consistent (flow_row r).
Proof.
  unfold impulse_consistent, flow_row.
  cbn [OI_PCR Volume_PCR Impulse_Vol_over_OI set_flow].
  destruct (OI_PCR r) as [ o | ]; cbn [fgt0 isfinite andb].
  - destruct (Qltb 0 o) eqn:Epos; cbn [andb].
    + apply Qltb_true in Epos.
      destruct (Volume_PCR r) as [ v | ]; cbn [isfinite fdiv lift2 fround option_map].
      * split; [ discriminate | ]. split; [ | split ].
        -- intros o' [= <-] Hle. exfalso. apply (Qlt_not_le _ _ Epos Hle).
        -- intros o' v' [= <-] _ [= <-].
           exists (round_nd 6 (v / o)).
           pose proof (round_nd_error 6 (v / o)) as He.
           split; [ reflexivity | ]. split; [ exact He | ].
           apply scaled_error; assumption.
        -- discriminate.
      * split; [ discriminate | ]. split; [ | split ].
        -- reflexivity.
        -- discriminate.
        -- reflexivity.
    + apply Qltb_false in Epos. cbn [fround option_map nan].
      split; [ reflexivity | ]. split; [ reflexivity | split ].
      * intros o' v' [= <-] Hpos. exfalso. apply (Qlt_not_le _ _ Hpos Epos).
      * reflexivity.
  - cbn [fround option_map nan].
    split; [ reflexivity | ]. split; [ reflexivity | split ].
    + discriminate.
    + reflexivity.
Qed.

Lemma impulse_consistent_ext (x y : Row) :
  OI_PCR y = OI_PCR x -> Volume_PCR y = Volume_PCR x ->
  Impulse_Vol_over_OI y = Impulse_Vol_over_OI x ->
  impulse_consistent x -> impulse_consistent y.
Proof.
  unfold impulse_consistent. intros -> -> ->. exact (fun H => H).
Qed.

Lemma impulse_near_of_exact (r : Row) : impulse_consistent r -> impulse_near_quotient r.
Proof.
  unfold impulse_consistent, impulse_near_quotient.
  intros [Hnan [Hle [Hnum Hv]]].
  split; [ exact Hnan | ]. split; [ exact Hle | ]. split; [ exact Hv | ].
  intros o v Ho Hpos Hvol.
  destruct (Hnum o v Ho Hpos Hvol) as [i [Ei [Herr _]]].
  exists i. split; [ exact Ei | ]. intros _.
  assert (Hi : (Qabs (i - v / o) <= 1 # 1000000)%Q).
  { eapply Qle_trans; [ exact Herr | ]. vm_compute. discriminate. }
  split; [ exact Hi | ].
  apply scaled_error; assumption.
Qed.

(** C4, as the code has it.  In every row of a table that went through
    [add_flow_vs_positioning] and the two later passes, the impulse is NaN
    when [OI_PCR] is NaN, zero or negative, and also when [Volume_PCR] is
    NaN.  Otherwise, with [OI_PCR = o > 0] and [Volume_PCR = v], the impulse
    is a number [i] and, as long as the quotient [v / o] is at most 10^8 in
    size, [i] is within one unit of the sixth decimal of [v / o], so that
    [i * o] is within that tolerance, scaled by [o], of [v].  (Six decimals
    of a quotient of that size are within the precision of binary64; the
    rounding itself accounts for half a unit.) *)
Theorem impulse_policy (df : DataFrame) (min_call_oi min_call_vol min_total_oi : Z) :
  Forall (fun r =>
            (OI_PCR r = nan -> Impulse_Vol_over_OI r = nan)
            /\ (forall o, OI_PCR r = Some o -> (o <= 0)%Q ->
                          Impulse_Vol_over_OI r = nan)
            /\ (forall o, OI_PCR r = Some o -> (0 < o)%Q -> Volume_PCR r = nan ->
                          Impulse_Vol_over_OI r = nan)
            /\ (forall o v, OI_PCR r = Some o -> (0 < o)%Q -> Volume_PCR r = Some v ->
                  exists i, Impulse_Vol_over_OI r = Some i
                            /\ ((Qabs (v / o) <= inject_Z (10 ^ 8))%Q ->
                                (Qabs (i - v / o) <= 1 # 1000000)%Q
                                /\ (Qabs (i * o - v) <= (1 # 1000000) * o)%Q)))
         (rows (add_event_score
                  (add_quality_flags (add_flow_vs_positioning df)
                                     min_call_oi min_call_vol min_total_oi))).
Proof.
  change (Forall impulse_near_quotient
                 (rows (add_event_score
                          (add_quality_flags (add_flow_vs_positioning df)
                                             min_call_oi min_call_vol min_total_oi)))).
  unfold add_event_score, add_quality_flags, add_flow_vs_positioning. cbn [rows].
  destruct (Qle_bool _ 0); rewrite !Forall_map; apply Forall_forall; intros r _;
    apply impulse_near_of_exact;
    apply (impulse_consistent_ext (flow_row r)); try reflexivity;
    apply flow_row_impulse.
Qed.

(** C4, as stated, fails in binary64 once the quotient is large.  Put
    volume 300000 against call volume 1, with put open interest 7 against
    call open interest 1000000, gives the ratios 300000.0 and 7e-06.  The
    impulse stored for them is 42857142857.14286, which is more than two
    units of the sixth decimal away from the quotient, whether the divisor
    is read as the double or as the decimal 0.000007; and multiplied by
    [OI_PCR] it is more than that tolerance, scaled by [OI_PCR], away from
    [Volume_PCR]. *)
Lemma impulse_misses_tolerance :
  (exists df r,
      per_expiry_totals Sample.steep_ratios SYMBOL None = Ok df
      /\ rows df = [r]
      /\ Volume_PCR r = Some (300000 # 1) /\ OI_PCR r = Some (7 # 1000000))
  /\ (exists v o i : Q,
         Float64.to_Q Float64.d300000 = Some v
         /\ Float64.to_Q Float64.d7em6 = Some o
         /\ Float64.to_Q (Float64.impulse Float64.d300000 Float64.d7em6) = Some i
         /\ (v == 300000 # 1)%Q
         /\ (0 < o)%Q
         /\ (Qabs (i - (4285714285714286 # 100000)) < 1 # 100000)%Q
         /\ ((2 # 1000000) < Qabs (i - v / o))%Q
         /\ ((2 # 1000000) < Qabs (i - v / (7 # 1000000)))%Q
         /\ ((2 # 1000000) * o < Qabs (i * o - v))%Q).
Proof.
  split.
  - eexists _, _. split; [ vm_compute; reflexivity | ].
    repeat split.
  - eexists _, _, _.
    split; [ vm_compute; reflexivity | ].
    split; [ vm_compute; reflexivity | ].
    split; [ vm_compute; reflexivity | ].
    repeat split.
Qed.

(** ** Days to expiry *)

Lemma map_result_ok {A B : Type} (f : A -> result B) (g : A -> B) (l : list A) :
  (forall x, In x l -> f x = Ok (g x)) -> map_result f l = Ok (map g l).
Proof.
  induction l as [ | x tl IH ]; intros H; simpl; [ reflexivity | ].
  rewrite (H x (or_introl eq_refl)). simpl.
  rewrite IH; [ reflexivity | ].
  intros y Hy. apply H. right. exact Hy.
Qed.

Lemma map_result_raise {A B : Type} (f : A -> result B) (l : list A) (x : A) (e : exn) :
  In x l -> f x = Raise e -> exists e', map_result f l = Raise e'.
Proof.
  induction l as [ | y tl IH ]; intros Hin Hx; [ contradiction | ].
  simpl. destruct Hin as [ -> | Hin ].
  - rewrite Hx. simpl. eexists. reflexivity.
  - destruct (f y) as [ b | e0 ]; simpl; [ | eexists; reflexivity ].
    destruct (IH Hin Hx) as [e' ->]. simpl. eexists. reflexivity.
Qed.

Section DaysToExpiry.

Variable to_datetime : string -> option date.
Variable today : date.

(** When every label parses, the pass succeeds and each row gets the
    whole number of days from the as-of date to its expiry date. *)
Lemma add_dte_parseable (df : DataFrame) (asof : option date) :
  (forall r, In r (rows df) -> to_datetime (Expiry r) <> None) ->
  add_dte to_datetime today df asof
  = Ok (mkDF (add_column "DTE" (columns df))
             (map (fun r => set_DTE (option_map (fun d => days_between d (as_of today asof))
                                                (to_datetime (Expiry r))) r)
                  (rows df))
             (attrs df)).
Proof.
  intros H. unfold add_dte. fold (as_of today asof).
  rewrite (map_result_ok _
             (fun r => set_DTE (option_map (fun d => days_between d (as_of today asof))
                                           (to_datetime (Expiry r))) r)).
  - reflexivity.
  - intros r Hr. specialize (H r Hr). unfold dt_date.
    destruct (to_datetime (Expiry r)); [ reflexivity | congruence ].
Qed.

(** A label pandas cannot parse becomes [NaT], which is not [None]: the
    subtraction raises and the pass returns no table. *)
Lemma add_dte_unparseable (df : DataFrame) (asof : option date) (r : Row) :
  In r (rows df) -> to_datetime (Expiry r) = None ->
  exists e, add_dte to_datetime today df asof = Raise e.
Proof.
  intros Hin Hnone. unfold add_dte.
  destruct (map_result_raise
              (fun r => bind (dte_of (as_of today asof) (dt_date to_datetime (Expiry r)))
                             (fun v => Ok (set_DTE v r)))
              (rows df) r
              (TypeError "unsupported operand type(s) for -: 'NaTType' and 'datetime.date'")
              Hin) as [e He].
  - unfold dt_date. rewrite Hnone. reflexivity.
  - exists e. unfold as_of in He. rewrite He. reflexivity.
Qed.

End DaysToExpiry.

(** The parseable half of C8 on a sample: one expiry four days before the
    as-of date, one seventeen days after. *)
Example add_dte_dated_table :
  exists df,
    add_dte Sample.iso_date Sample.asof_2024 Sample.dated_table None = Ok df
    /\ map DTE (rows df) = [Some (-4); Some 17].
Proof.
  eexists. split; [ vm_compute; reflexivity | reflexivity ].
Qed.

(** C8, the unparseable half, run on the code: a table with the label
    "not-a-date" makes the DTE pass raise [TypeError]; it does not set the
    cell to NaN. *)
Theorem add_dte_bad_label_raises :
  add_dte Sample.iso_date Sample.asof_2024 Sample.bad_label_table None
  = Raise (TypeError "unsupported operand type(s) for -: 'NaTType' and 'datetime.date'").
Proof. vm_compute. reflexivity. Qed.

(** ** Buckets: the two denominators *)

Lemma round_ratio (n : nat) (a b : Q) :
  round_if_finite n (ratio_or_nan a b)
  = if Qltb 0 b then Some (round_nd n (a / b)) else nan.
Proof.
  unfold ratio_or_nan. destruct (Qltb 0 b); reflexivity.
Qed.

Lemma add_concentration_keeps {X : Type} (f : BucketRow -> X) (out : list BucketRow) :
  (forall s sh b, f (set_concentration s sh b) = f b) ->
  map f (add_concentration out) = map f out.
Proof.
  intros H. unfold add_concentration. rewrite map_map.
  apply map_ext. intros b. apply H.
Qed.

Lemma quality_filter_gated (df : DataFrame) :
  str_in "Quality_OK" (columns df) = true ->
  quality_filter true df = filter Quality_OK (rows df).
Proof.
  intros H. unfold quality_filter. rewrite H. reflexivity.
Qed.




(** ** Buckets: an empty band *)

Lemma nansum_skip (l1 l2 : list float) :
  nansum (l1 ++ None :: l2) = nansum (l1 ++ l2).
Proof.
  unfold nansum. rewrite !fold_left_app. reflexivity.
Qed.

Lemma add_concentration_skip (l1 l2 : list BucketRow) (b : BucketRow) :
  raw_score b = nan ->
  exists rows1 rows2,
    add_concentration (l1 ++ b :: l2) = rows1 ++ set_concentration nan nan b :: rows2
    /\ add_concentration (l1 ++ l2) = rows1 ++ rows2
    /\ List.length rows1 = List.length l1.
Proof.
  intros Hb. unfold add_concentration.
  rewrite !map_app. cbn [map]. rewrite Hb.
  change (nansum (map raw_score l1 ++ nan :: map raw_score l2))
    with (nansum (map raw_score l1 ++ None :: map raw_score l2)).
  rewrite nansum_skip.
  set (denom := nansum (map raw_score l1 ++ map raw_score l2)).
  eexists _, _. split; [ | split ].
  - f_equal. f_equal.
    cbn [fround option_map]. destruct (Qltb 0 denom); reflexivity.
  - reflexivity.
  - apply length_map.
Qed.

Lemma empty_band_row (t : list Row) (denom : Q) (name : string) (lo hi : Z) :
  (0 < denom)%Q ->
  filter (in_band lo hi) t = [] ->
  bucket_row t denom (name, lo, hi)
  = mkBucket name lo hi 0 0 nan 0 0 nan 0 (Some 0%Q) nan nan.
Proof.
  intros Hpos Hempty. unfold bucket_row. rewrite Hempty.
  rewrite !round_ratio.
  apply Qltb_true in Hpos. rewrite Hpos.
  reflexivity.
Qed.

(** C10.  When the total open interest of the (quality-filtered) table is
    positive, a band with no member row is still present in the bucket
    table, at its place, with all sums 0, a share of exactly 0, NaN ratios,
    a NaN concentration score and a NaN concentration share; and the rows of
    the other bands, their concentration shares included, are the ones the
    table would have without that band. *)
Theorem empty_band_is_emitted (df : DataFrame) (require_quality_ok : bool)
        (before after : list (string * Z * Z)) (name : string) (lo hi : Z) :
  BUCKETS = before ++ (name, lo, hi) :: after ->
  (0 < col_sum Total_OI (quality_filter require_quality_ok df))%Q ->
  filter (in_band lo hi) (quality_filter require_quality_ok df) = [] ->
  exists rows1 rows2,
    bucket_term_structure df require_quality_ok
    = rows1 ++ mkBucket name lo hi 0 0 nan 0 0 nan 0 (Some 0%Q) nan nan :: rows2
    /\ bucket_term_structure_on (before ++ after) df require_quality_ok = rows1 ++ rows2
    /\ List.length rows1 = List.length before.
Proof.
  intros Hb Hpos Hempty.
  unfold bucket_term_structure, bucket_term_structure_on. rewrite Hb.
  set (t := quality_filter require_quality_ok df) in *.
  rewrite !map_app. cbn [map].
  rewrite (empty_band_row t _ name lo hi Hpos Hempty).
  destruct (add_concentration_skip
              (map (bucket_row t (col_sum Total_OI t)) before)
              (map (bucket_row t (col_sum Total_OI t)) after)
              (mkBucket name lo hi 0 0 nan 0 0 nan 0 (Some 0%Q) nan nan)
              eq_refl) as [rows1 [rows2 [H1 [H2 H3]]]].
  exists rows1, rows2. split; [ exact H1 | ]. split; [ exact H2 | ].
  rewrite H3. apply length_map.
Qed.

Lemma empty_band_is_emitted_witness :
  exists rows1 rows2,
    bucket_term_structure (Sample.enriched Sample.four_expiries) true
    = rows1 ++ mkBucket "Mid_21_60" 21 60 0 0 nan 0 0 nan 0 (Some 0%Q) nan nan :: rows2
    /\ bucket_term_structure_on [("Short_1_20"%string, 1, 20); ("Long_61_120"%string, 61, 120)]
                                (Sample.enriched Sample.four_expiries) true
       = rows1 ++ rows2
    /\ List.length rows1 = 1%nat.
Proof.
  apply (empty_band_is_emitted (Sample.enriched Sample.four_expiries) true
           [("Short_1_20"%string, 1, 20)] [("Long_61_120"%string, 61, 120)]
           "Mid_21_60" 21 60).
  - reflexivity.
  - reflexivity.
  - reflexivity.
Defined.

(** ** Buckets: normalised concentration shares *)

Section ShareSums.

Local Open Scope Q_scope.

Lemma nansum_fold (l : list float) (a : Q) :
  fold_left (fun acc x => match x with Some q => acc + q | None => acc end) l a
  == a + nansum l.
Proof.
  unfold nansum. revert a. induction l as [ | x tl IH ]; intros a; simpl.
  - ring.
  - destruct x as [ q | ].
    + rewrite (IH (a + q)), (IH (0 + q)). ring.
    + apply IH.
Qed.

Lemma nansum_cons_some (q : Q) (l : list float) :
  nansum (Some q :: l) == q + nansum l.
Proof.
  unfold nansum at 1. simpl. rewrite nansum_fold. ring.
Qed.

Lemma nansum_somes (l : list float) : nansum l == qsum (somes l).
Proof.
  induction l as [ | x tl IH ]; [ reflexivity | ].
  destruct x as [ q | ].
  - rewrite nansum_cons_some. cbn [somes flat_map app].
    rewrite qsum_cons. fold (somes tl). rewrite IH. reflexivity.
  - exact IH.
Qed.

Lemma somes_map (g : Q -> Q) (l : list float) :
  somes (map (option_map g) l) = map g (somes l).
Proof.
  induction l as [ | x tl IH ]; [ reflexivity | ].
  destruct x as [ q | ]; simpl; fold (somes tl);
    fold (somes (map (option_map g) tl)); rewrite IH; reflexivity.
Qed.

Lemma somes_length (l : list float) : (List.length (somes l) <= List.length l)%nat.
Proof.
  induction l as [ | x tl IH ]; [ apply le_n | ].
  destruct x; simpl; fold (somes tl); lia.
Qed.

Lemma qsum_scale (d : Q) (xs : list Q) :
  ~ d == 0 -> qsum (map (fun q => q / d) xs) == qsum xs / d.
Proof.
  intros Hd. induction xs as [ | x tl IH ].
  - unfold qsum. simpl. field. exact Hd.
  - cbn [map]. rewrite !qsum_cons, IH. field. exact Hd.
Qed.

Lemma nansum_nonneg (l : list float) : nonneg_cells l -> 0 <= nansum l.
Proof.
  induction 1 as [ | x tl Hx _ IH ]; [ apply Qle_refl | ].
  destruct x as [ q | ].
  - rewrite nansum_cons_some. lra.
  - exact IH.
Qed.

Lemma nansum_pos (l : list float) (q : Q) :
  nonneg_cells l -> In (Some q) l -> 0 < q -> 0 < nansum l.
Proof.
  induction 1 as [ | x tl Hx Htl IH ]; intros Hin Hq; [ contradiction | ].
  destruct Hin as [ -> | Hin ].
  - rewrite nansum_cons_some. pose proof (nansum_nonneg tl Htl). lra.
  - specialize (IH Hin Hq). destruct x as [ y | ].
    + rewrite nansum_cons_some. lra.
    + exact IH.
Qed.

(** The rounded values add up to a whole number of units of the sixth
    decimal, which is off the exact total by at most half a unit per
    term. *)
Lemma rounded_sum_units (ys : list Q) :
  exists K : Z,
    qsum (map (round_nd 6) ys) == inject_Z K / (1000000 # 1)
    /\ Qabs (inject_Z K - qsum ys * (1000000 # 1))
       <= (1 # 2) * inject_Z (Z.of_nat (List.length ys)).
Proof.
  induction ys as [ | y tl [K [HK Herr]] ].
  - exists 0%Z. split; [ reflexivity | vm_compute; discriminate ].
  - exists (round_half_even (y * (1000000 # 1)) + K)%Z.
    pose proof (round_half_even_error (y * (1000000 # 1))) as Hy.
    pose proof (round_nd_eq 6 y) as Hr.
    change (inject_Z (Zpos (pow10 6))) with (1000000 # 1) in Hr.
    cbn [map List.length]. rewrite !qsum_cons, Hr, HK.
    rewrite inject_Z_plus, Nat2Z.inj_succ.
    unfold Z.succ. rewrite inject_Z_plus. change (inject_Z 1) with 1.
    split; [ field | ].
    apply Qabs_Qle_condition in Hy. apply Qabs_Qle_condition in Herr.
    apply Qabs_Qle_condition. lra.
Qed.

(** At most three values that add up to 1, each rounded to six decimals,
    add up to 1 within one unit of the sixth decimal. *)
Lemma rounded_shares_sum (ys : list Q) :
  (List.length ys <= 3)%nat -> qsum ys == 1 ->
  Qabs (qsum (map (round_nd 6) ys) - 1) <= 1 # 1000000.
Proof.
  intros Hlen Hsum.
  destruct (rounded_sum_units ys) as [K [HK Herr]].
  rewrite Hsum in Herr. rewrite HK.
  assert (Hn : inject_Z (Z.of_nat (List.length ys)) <= 3).
  { change 3 with (inject_Z 3). rewrite <- Zle_Qle. lia. }
  apply Qabs_Qle_condition in Herr. destruct Herr as [Hlo Hhi].
  assert (HloZ : (1000000 - 1 <= K)%Z).
  { destruct (Z_le_gt_dec (1000000 - 1) K) as [ | Hgt ]; [ assumption | exfalso ].
    assert (Hq : inject_Z K <= inject_Z (1000000 - 2)) by (rewrite <- Zle_Qle; lia).
    change (inject_Z (1000000 - 2)) with (999998 # 1) in Hq. lra. }
  assert (HhiZ : (K <= 1000000 + 1)%Z).
  { destruct (Z_le_gt_dec K (1000000 + 1)) as [ | Hgt ]; [ assumption | exfalso ].
    assert (Hq : inject_Z (1000000 + 2) <= inject_Z K) by (rewrite <- Zle_Qle; lia).
    change (inject_Z (1000000 + 2)) with (1000002 # 1) in Hq. lra. }
  rewrite Zle_Qle in HloZ, HhiZ.
  change (inject_Z (1000000 - 1)) with (999999 # 1) in HloZ.
  change (inject_Z (1000000 + 1)) with (1000001 # 1) in HhiZ.
  assert (Hdiv : inject_Z K / (1000000 # 1) == inject_Z K * (1 # 1000000))
    by (field; discriminate).
  rewrite Hdiv.
  apply Qabs_Qle_condition. lra.
Qed.

Lemma normalised_shares_sum (scores : list float) :
  (List.length scores <= 3)%nat -> 0 < nansum scores ->
  Qabs (nansum (map (fun s => fround 6 (fdiv s (Some (nansum scores)))) scores) - 1)
  <= 1 # 1000000.
Proof.
  intros Hlen Hpos.
  set (d := nansum scores) in *.
  assert (Hmap : map (fun s => fround 6 (fdiv s (Some d))) scores
                 = map (option_map (fun q => round_nd 6 (q / d))) scores).
  { apply map_ext. intros [ q | ]; reflexivity. }
  rewrite Hmap, nansum_somes, somes_map.
  rewrite <- (map_map (fun q => q / d) (round_nd 6)).
  apply rounded_shares_sum.
  - rewrite length_map. pose proof (somes_length scores). lia.
  - rewrite qsum_scale by lra.
    unfold d at 1. rewrite <- (nansum_somes scores). fold d. field. lra.
Qed.

End ShareSums.

Lemma zsum_fold (l : list Z) (a : Z) : fold_left Z.add l a = a + zsum l.
Proof.
  unfold zsum. revert a. induction l as [ | x tl IH ]; intros a; simpl.
  - lia.
  - rewrite (IH (a + x)), (IH x). lia.
Qed.

Lemma zsum_nonneg (l : list Z) : Forall (fun z => 0 <= z) l -> 0 <= zsum l.
Proof.
  induction 1 as [ | x tl Hx _ IH ]; [ reflexivity | ].
  unfold zsum. simpl. rewrite zsum_fold. lia.
Qed.

Lemma col_sum_nonneg (f : Row -> Z) (w : list Row) :
  Forall (fun r => 0 <= f r) w -> (0 <= col_sum f w)%Q.
Proof.
  intros H. unfold col_sum. change 0%Q with (inject_Z 0). rewrite <- Zle_Qle.
  apply zsum_nonneg. apply Forall_map. exact H.
Qed.

Lemma Forall_filter {A : Type} (P : A -> Prop) (f : A -> bool) (l : list A) :
  Forall P l -> Forall P (filter f l).
Proof.
  rewrite !Forall_forall. intros H x Hx. apply filter_In in Hx. apply H, Hx.
Qed.

Lemma quality_filter_Forall (P : Row -> Prop) (rq : bool) (df : DataFrame) :
  Forall P (rows df) -> Forall P (quality_filter rq df).
Proof.
  intros H. unfold quality_filter.
  destruct (rq && str_in "Quality_OK" (columns df)); [ apply Forall_filter | ]; exact H.
Qed.

Lemma raw_score_nonneg (t : list Row) (denom : Q) (band : string * Z * Z) :
  Forall (fun r => 0 <= Put_OI r /\ 0 <= Total_OI r) t ->
  match raw_score (bucket_row t denom band) with
  | Some q => (0 <= q)%Q
  | None => True
  end.
Proof.
  intros Hwf. destruct band as [[name lo] hi].
  unfold raw_score, bucket_row.
  cbn [Bucket_TotalOI_Share Bucket_OI_PCR]. rewrite !round_ratio.
  set (w := filter (in_band lo hi) t).
  assert (Hw : Forall (fun r => 0 <= Put_OI r /\ 0 <= Total_OI r) w)
    by (apply Forall_filter, Hwf).
  assert (Hput : (0 <= col_sum Put_OI w)%Q).
  { apply col_sum_nonneg. eapply Forall_impl; [ | exact Hw ]. intros r [H _]. exact H. }
  assert (Htot : (0 <= col_sum Total_OI w)%Q).
  { apply col_sum_nonneg. eapply Forall_impl; [ | exact Hw ]. intros r [_ H]. exact H. }
  destruct (Qltb 0 denom) eqn:Ed; [ | exact I ].
  destruct (Qltb 0 (col_sum Call_OI w)) eqn:Ec; [ | exact I ].
  apply Qltb_true in Ed. apply Qltb_true in Ec.
  cbn [fmul lift2].
  apply Qmult_le_0_compat; apply round_nd_nonneg; apply Qle_shift_div_l;
    try assumption; rewrite Qmult_0_l; assumption.
Qed.

Lemma nansum_all_nan (l : list float) :
  Forall (fun x => x = nan) l -> nansum l = 0%Q.
Proof.
  intros H. unfold nansum. generalize 0%Q.
  induction H as [ | x tl Hx _ IH ]; intros a; simpl; [ reflexivity | ].
  rewrite Hx. apply IH.
Qed.

(** C2, as the code has it.  On a table whose open-interest columns are
    non-negative: if some bucket has a positive Bucket_Concentration_Score,
    the non-NaN Bucket_Concentration_Share values add up to 1 within 1e-6,
    up to the noise of binary64 (1e-12 here); and if every bucket's score is
    NaN, or the sum the code normalises by (the NaN-skipping sum of the
    scores, taken before their final rounding to eight decimals) is not
    positive, the share of each of the three buckets is NaN. *)
Theorem concentration_shares_normalised (df : DataFrame) (require_quality_ok : bool) :
  Forall (fun r => 0 <= Put_OI r /\ 0 <= Total_OI r) (rows df) ->
  let out := bucket_term_structure df require_quality_ok in
  ((exists b s, In b out /\ Bucket_Concentration_Score b = Some s /\ (0 < s)%Q) ->
   (Qabs (nansum (map Bucket_Concentration_Share out) - 1)
    <= (1 # 1000000) + (1 # 1000000000000))%Q)
  /\ ((Forall (fun b => Bucket_Concentration_Score b = nan) out
       \/ (nansum (map raw_score out) <= 0)%Q) ->
      List.length out = 3%nat
      /\ Forall (fun b => Bucket_Concentration_Share b = nan) out).
Proof.
  intros Hwf out. subst out.
  unfold bucket_term_structure, bucket_term_structure_on.
  set (t := quality_filter require_quality_ok df).
  set (base := map (bucket_row t (col_sum Total_OI t)) BUCKETS).
  assert (Ht : Forall (fun r => 0 <= Put_OI r /\ 0 <= Total_OI r) t)
    by (apply quality_filter_Forall, Hwf).
  assert (Hlen : List.length (map raw_score base) = 3%nat) by reflexivity.
  assert (Hnn : nonneg_cells (map raw_score base)).
  { unfold nonneg_cells, base. rewrite map_map. apply Forall_map.
    apply Forall_forall. intros band _. apply raw_score_nonneg, Ht. }
  assert (Hraw : map raw_score (add_concentration base) = map raw_score base)
    by (apply add_concentration_keeps; reflexivity).
  set (denom := nansum (map raw_score base)) in *.
  split.
  - intros [b [s [Hin [Hs Hpos]]]].
    assert (Hdenom : (0 < denom)%Q).
    { unfold add_concentration in Hin. apply in_map_iff in Hin.
      destruct Hin as [b0 [<- Hb0]].
      cbn [Bucket_Concentration_Score set_concentration] in Hs.
      destruct (raw_score b0) as [ q | ] eqn:Eq; [ | discriminate ].
      injection Hs as Hs.
      assert (Hq : (0 < q)%Q).
      { apply Qnot_le_lt. intros Hle.
        pose proof (round_nd_nonpos 8 q Hle) as Hr. rewrite Hs in Hr.
        apply (Qlt_not_le _ _ Hpos Hr). }
      apply (nansum_pos _ q Hnn); [ | exact Hq ].
      rewrite <- Eq. apply in_map. exact Hb0. }
    assert (Hshares : map Bucket_Concentration_Share (add_concentration base)
                      = map (fun s => fround 6 (fdiv s (Some denom))) (map raw_score base)).
    { unfold add_concentration. fold denom. rewrite !map_map.
      apply map_ext. intros b0. cbn [Bucket_Concentration_Share set_concentration].
      apply Qltb_true in Hdenom. rewrite Hdenom. reflexivity. }
    rewrite Hshares.
    apply (Qle_trans _ (1 # 1000000)); [ | vm_compute; discriminate ].
    apply normalised_shares_sum; [ rewrite Hlen; apply le_n | exact Hdenom ].
  - intros Hcase.
    assert (Hdenom : Qltb 0 denom = false).
    { apply Qltb_false. destruct Hcase as [Hall | Hle].
      - assert (Hz : denom = 0%Q).
        { apply nansum_all_nan. apply Forall_map.
          unfold add_concentration in Hall. apply Forall_map in Hall.
          rewrite Forall_forall in *. intros b0 Hb0.
          specialize (Hall b0 Hb0).
          cbn [Bucket_Concentration_Score set_concentration] in Hall.
          destruct (raw_score b0); [ discriminate | reflexivity ]. }
        rewrite Hz. apply Qle_refl.
      - rewrite Hraw in Hle. exact Hle. }
    split.
    + unfold add_concentration. rewrite length_map. reflexivity.
    + unfold add_concentration. fold denom. apply Forall_map.
      apply Forall_forall. intros b0 _.
      cbn [Bucket_Concentration_Share set_concentration]. rewrite Hdenom. reflexivity.
Qed.

Lemma concentration_shares_normalised_witness :
  (Qabs (nansum (map Bucket_Concentration_Share
                     (bucket_term_structure (Sample.enriched Sample.four_expiries) true))
         - 1) <= (1 # 1000000) + (1 # 1000000000000))%Q.
Proof.
  assert (Hwf : Forall (fun r => 0 <= Put_OI r /\ 0 <= Total_OI r)
                       (rows (Sample.enriched Sample.four_expiries))).
  { vm_compute. repeat constructor; discriminate. }
  destruct (concentration_shares_normalised
              (Sample.enriched Sample.four_expiries) true Hwf) as [H _].
  apply H. eexists _, _.
  split; [ left; reflexivity | ]. split; reflexivity.
Defined.

(** C2, as stated, fails twice over.  A score below half a unit of the
    eighth decimal is stored as 0.0 and still normalises to a share: with
    one put against a million calls in the only banded expiry, the stored
    scores are 0.0, NaN, NaN, their sum is not positive, and the first
    bucket's share is 1.0, not NaN.  And three equal buckets each get the
    share 0.333333; the three doubles add up to a number that is more than
    1e-6 away from 1, both as binary64 adds them and exactly. *)
Lemma zero_score_keeps_share_and_thirds_overshoot :
  (map (fun b => (Bucket_Concentration_Score b, Bucket_Concentration_Share b))
       (bucket_term_structure (Sample.enriched Sample.thin_puts) true)
   = [(Some (0 # 1), Some (1 # 1)); (nan, nan); (nan, nan)]
   /\ (nansum (map Bucket_Concentration_Score
                   (bucket_term_structure (Sample.enriched Sample.thin_puts) true))
       <= 0)%Q)
  /\ (map Bucket_Concentration_Share
          (bucket_term_structure (Sample.enriched Sample.three_equal) true)
      = [Some (333333 # 1000000); Some (333333 # 1000000); Some (333333 # 1000000)]
      /\ exists d s : Q,
          Float64.to_Q Float64.d0_333333 = Some d
          /\ Float64.to_Q (Float64.sum3 Float64.d0_333333 Float64.d0_333333
                                        Float64.d0_333333) = Some s
          /\ (Qabs (d - (333333 # 1000000)) < 1 # 10000000000000000)%Q
          /\ ((1 # 1000000) < Qabs (s - 1))%Q
          /\ ((1 # 1000000) < Qabs (d + d + d - 1))%Q).
Proof.
  split; [ split; vm_compute; [ reflexivity | discriminate ] | ].
  split; [ vm_compute; reflexivity | ].
  eexists _, _.
  split; [ vm_compute; reflexivity | ].
  split; [ vm_compute; reflexivity | ].
  repeat split.
Qed.

(** In exact arithmetic the three shares 0.333333 add up to 0.999999, at
    the bound of 1e-6. *)
Example three_equal_shares :
  (nansum (map Bucket_Concentration_Share
               (bucket_term_structure (Sample.enriched Sample.three_equal) true))
   == 999999 # 1000000)%Q.
Proof. vm_compute. reflexivity. Qed.

(** ** Rankings *)

Lemma Sorted_impl_in {A : Type} (R1 R2 : A -> A -> Prop) (l : list A) :
  (forall a b, In a l -> In b l -> R1 a b -> R2 a b) ->
  Sorted R1 l -> Sorted R2 l.
Proof.
  intros H Hs. induction Hs as [ | x tl Hs IH Hhd ]; constructor.
  - apply IH. intros a b Ha Hb. apply H; right; assumption.
  - destruct Hhd as [ | y tl' Hxy ]; constructor.
    apply H; [ left; reflexivity | right; left; reflexivity | exact Hxy ].
Qed.

Lemma Qle_bool_total (a b : Q) : Qle_bool a b = false -> Qle_bool b a = true.
Proof.
  intros H. apply Qle_bool_iff. apply Qlt_le_weak. apply Qnot_le_lt.
  intros Hle. apply Qle_bool_iff in Hle. congruence.
Qed.

Lemma sort_values_perm (key : Row -> float) (ascending : bool) (l : list Row) :
  Permutation (sort_values key ascending l) l.
Proof. apply sort_by_perm. Qed.

Lemma sort_values_ordered (key : Row -> float) (ascending : bool) (l : list Row) :
  Forall (fun r => key r <> nan) l ->
  ordered key (negb ascending) (sort_values key ascending l).
Proof.
  intros Hl. unfold ordered, sort_values.
  set (k := fun r => match key r with Some q => q | None => 0%Q end).
  set (leb := fun a b => if ascending then Qle_bool (k a) (k b) else Qle_bool (k b) (k a)).
  assert (Hs : Sorted (fun a b => leb a b = true) (sort_by leb l)).
  { apply sort_by_sorted. intros a b. unfold leb.
    destruct ascending; apply Qle_bool_total. }
  revert Hs. apply Sorted_impl_in. intros a b Ha Hb Hab.
  assert (Hin : forall r, In r (sort_by leb l) -> key r = Some (k r)).
  { intros r Hr. apply (Permutation_in _ (sort_by_perm leb l)) in Hr.
    rewrite Forall_forall in Hl. specialize (Hl r Hr).
    unfold k. destruct (key r); [ reflexivity | contradiction ]. }
  rewrite (Hin a Ha), (Hin b Hb). unfold leb in Hab.
  destruct ascending; cbn [negb metric_le]; apply Qle_bool_iff; exact Hab.
Qed.

Lemma filter_notna (key : Row -> float) (l : list Row) :
  Forall (fun r => key r <> nan) (filter (fun r => notna (key r)) l).
Proof.
  apply Forall_forall. intros r Hr. apply filter_In in Hr.
  destruct Hr as [_ Hr]. destruct (key r); [ discriminate | discriminate ].
Qed.

Lemma ordered_map (key : Row -> float) (descending : bool) (f : Row -> Row)
      (l : list Row) :
  (forall r, key (f r) = key r) -> ordered key descending l ->
  ordered key descending (map f l).
Proof.
  intros Hf Hs. unfold ordered in *. apply Sorted_map.
  revert Hs. apply Sorted_impl_in. intros a b _ _. rewrite !Hf. exact (fun H => H).
Qed.

Lemma Forall_perm_prefix (P : Row -> Prop) (n : Z) (l l' : list Row) :
  Permutation l' l -> Forall P l -> Forall P (prefix n l').
Proof.
  intros Hp Hl. rewrite Forall_forall in *. intros r Hr.
  apply Hl. apply (Permutation_in _ Hp). apply (prefix_incl n). exact Hr.
Qed.

Lemma str_in_true (x : string) (l : list string) : str_in x l = true <-> In x l.
Proof.
  unfold str_in. rewrite existsb_exists. split.
  - intros [y [Hy E]]. apply String.eqb_eq in E. subst. exact Hy.
  - intros H. exists x. split; [ exact H | apply String.eqb_refl ].
Qed.

Lemma str_in_filter (x : string) (f : string -> bool) (l : list string) :
  str_in x l = true -> f x = true -> str_in x (filter f l) = true.
Proof.
  intros Hl Hf. apply str_in_true. apply filter_In.
  split; [ apply str_in_true, Hl | exact Hf ].
Qed.

Section RankerFacts.

Variable to_numeric_str : string -> float.

Ltac metric_cases metric :=
  repeat match goal with
         | |- context [String.eqb metric ?name] =>
             let E := fresh "E" in
             destruct (String.eqb metric name) eqn:E;
             [ apply String.eqb_eq in E; subst metric | ]
         end.

(** Projecting on columns that include the metric keeps its cell. *)
Lemma metric_value_project (metric : string) (cols : list string) (r : Row) :
  str_in metric cols = true ->
  metric_value to_numeric_str metric (project cols r)
  = metric_value to_numeric_str metric r.
Proof.
  intros H. unfold metric_value. metric_cases metric;
    try (unfold project;
         cbn [Symbol Expiry Put_Volume Call_Volume Volume_PCR Put_OI Call_OI OI_PCR
              Total_OI DTE Divergence_Vol_minus_OI Impulse_Vol_over_OI Quality_OK
              EventScore_OIshare_x_OI_PCR];
         rewrite H; reflexivity).
  reflexivity.
Qed.

(** Only the fourteen known columns hold numbers. *)
Lemma metric_value_known (metric : string) (r : Row) :
  metric_value to_numeric_str metric r <> nan ->
  str_in metric TOP_METRIC_COLUMNS = true.
Proof.
  unfold metric_value. metric_cases metric; try (intros _; reflexivity).
  intros H. contradiction H. reflexivity.
Qed.

Lemma top_expiries_by_oi_pcr_rows (df : DataFrame) (top_n : Z) :
  rows (top_expiries_by_oi_pcr df top_n)
  = map (project TOP_OI_COLUMNS)
        (prefix top_n (sort_values OI_PCR false
                                   (filter (fun r => notna (OI_PCR r)) (rows df)))).
Proof.
  unfold top_expiries_by_oi_pcr, empty, with_rows. cbn [rows columns attrs].
  destruct (filter (fun r => notna (OI_PCR r)) (rows df)) eqn:E.
  - unfold sort_values. cbn [rows sort_by]. rewrite prefix_nil. reflexivity.
  - reflexivity.
Qed.

Lemma top_by_metric_rows (df t : DataFrame) (metric : string) (top_n : Z)
      (descending require_quality_ok : bool) :
  top_by_metric to_numeric_str df metric top_n descending require_quality_ok = Ok t ->
  str_in metric (columns df) = true
  /\ exists cols,
      (rows t <> [] ->
       cols = filter (fun c => str_in c (columns df)) TOP_METRIC_COLUMNS
       /\ str_in metric cols = true)
      /\ rows t
         = map (project cols)
               (prefix top_n
                  (sort_values (metric_value to_numeric_str metric) (negb descending)
                     (filter (fun r => notna (metric_value to_numeric_str metric r))
                             (quality_filter require_quality_ok df)))).
Proof.
  unfold top_by_metric, empty, with_rows. cbn [rows columns attrs].
  destruct (str_in metric (columns df)) eqn:Hcol; cbn [negb]; [ | discriminate ].
  intros H. split; [ reflexivity | ].
  set (key := metric_value to_numeric_str metric) in *.
  destruct (filter (fun r => notna (key r))
                   (quality_filter require_quality_ok df)) as [ | r0 tl ] eqn:E.
  - injection H as <-. exists []. cbn [rows].
    split; [ intros Hne; contradiction Hne; reflexivity | ].
    unfold sort_values. cbn [sort_by]. rewrite prefix_nil. reflexivity.
  - injection H as <-.
    exists (filter (fun c => str_in c (columns df)) TOP_METRIC_COLUMNS).
    split; [ | reflexivity ].
    intros _. split; [ reflexivity | ].
    apply str_in_filter; [ | exact Hcol ].
    apply (metric_value_known metric r0).
    pose proof (filter_notna key (quality_filter require_quality_ok df)) as Hf.
    rewrite E in Hf. inversion Hf; assumption.
Qed.

End RankerFacts.

(** C3, as the code has it.  Both rankings return rows none of which has NaN
    in the ranked metric, and consecutive rows follow the requested
    direction without being strictly ordered: rows with equal metric values
    may follow one another.  This holds for every [top_n]; for a
    non-negative [top_n] at most [top_n] rows are returned.  The generic
    ranking returns a table whenever the metric names a column. *)
Theorem ranking_bounded_and_ordered (to_numeric_str : string -> float)
        (df : DataFrame) (metric : string) (top_n : Z)
        (descending require_quality_ok : bool) :
  ((0 <= top_n ->
    Z.of_nat (List.length (rows (top_expiries_by_oi_pcr df top_n))) <= top_n)
   /\ Forall (fun r => OI_PCR r <> nan) (rows (top_expiries_by_oi_pcr df top_n))
   /\ ordered OI_PCR true (rows (top_expiries_by_oi_pcr df top_n)))
  /\ (str_in metric (columns df) = true ->
      exists t, top_by_metric to_numeric_str df metric top_n descending
                              require_quality_ok = Ok t)
  /\ (forall t,
         top_by_metric to_numeric_str df metric top_n descending require_quality_ok
         = Ok t ->
         (0 <= top_n -> Z.of_nat (List.length (rows t)) <= top_n)
         /\ Forall (fun r => metric_value to_numeric_str metric r <> nan) (rows t)
         /\ ordered (metric_value to_numeric_str metric) descending (rows t)).
Proof.
  split; [ | split ].
  - rewrite top_expiries_by_oi_pcr_rows.
    set (l := filter (fun r => notna (OI_PCR r)) (rows df)).
    pose proof (filter_notna OI_PCR (rows df)) as Hl. fold l in Hl.
    split; [ | split ].
    + intros Hn. rewrite length_map. apply prefix_length, Hn.
    + apply Forall_map.
      apply (Forall_perm_prefix _ top_n l); [ apply sort_values_perm | exact Hl ].
    + apply ordered_map; [ reflexivity | ].
      apply prefix_sorted. apply (sort_values_ordered OI_PCR false l Hl).
  - intros Hcol. unfold top_by_metric. rewrite Hcol. cbn [negb].
    destruct (empty _); eexists; reflexivity.
  - intros t Ht.
    destruct (top_by_metric_rows to_numeric_str df t metric top_n descending
                require_quality_ok Ht) as [_ [cols [Hcols Hrows]]].
    set (key := metric_value to_numeric_str metric) in *.
    set (l := filter (fun r => notna (key r)) (quality_filter require_quality_ok df)) in *.
    pose proof (filter_notna key (quality_filter require_quality_ok df)) as Hl.
    fold l in Hl.
    destruct (rows t) as [ | x xs ] eqn:Ert.
    + split; [ intros Hn; exact Hn | ]. split; constructor.
    + assert (Hkeep : forall r, key (project cols r) = key r).
      { intros r. apply metric_value_project. apply Hcols. discriminate. }
      rewrite Hrows. split; [ | split ].
      * intros Hn. rewrite length_map. apply prefix_length, Hn.
      * apply Forall_map.
        apply (Forall_perm_prefix (fun r => key (project cols r) <> nan) top_n l).
        -- apply sort_values_perm.
        -- eapply Forall_impl; [ | exact Hl ]. intros r. rewrite Hkeep. exact (fun H => H).
      * apply ordered_map; [ exact Hkeep | ].
        apply prefix_sorted.
        pose proof (sort_values_ordered key (negb descending) l Hl) as Hs.
        rewrite negb_involutive in Hs. exact Hs.
Qed.

(** The ranking of the four-expiry table, at [top_n = 2] and at
    [top_n = -1]. *)
Lemma ranking_bounded_and_ordered_witness :
  Z.of_nat (List.length (rows (top_expiries_by_oi_pcr
                                 (Sample.enriched Sample.four_expiries) 2))) <= 2
  /\ ordered OI_PCR true
             (rows (top_expiries_by_oi_pcr (Sample.enriched Sample.four_expiries) (-1)))
  /\ exists t,
      top_by_metric Sample.no_number (Sample.enriched Sample.four_expiries)
                    "DTE" 2 false true = Ok t.
Proof.
  destruct (ranking_bounded_and_ordered
              Sample.no_number (Sample.enriched Sample.four_expiries)
              "DTE" 2 false true) as [[Hlen _] [Hok _]].
  destruct (ranking_bounded_and_ordered
              Sample.no_number (Sample.enriched Sample.four_expiries)
              "DTE" (-1) false true) as [[_ [_ Hord]] _].
  split; [ apply Hlen; lia | ]. split; [ exact Hord | ].
  apply Hok. reflexivity.
Defined.

(** C3, as stated, fails.  Ranked by OI_PCR, the two expiries with
    OI_PCR 0.5 come out one after the other, so the rows are not strictly
    ordered, in either ranking; and with [top_n = -1] the ranking of a
    four-row table returns three rows. *)
Lemma ranking_ties_and_negative_top_n :
  map OI_PCR (rows (top_expiries_by_oi_pcr (Sample.enriched Sample.four_expiries) 5))
  = [Some (3 # 2); Some (3 # 4); Some (1 # 2); Some (1 # 2)]
  /\ (exists t,
         top_by_metric Sample.no_number (Sample.enriched Sample.four_expiries)
                       "OI_PCR" 5 true false = Ok t
         /\ map OI_PCR (rows t) = [Some (3 # 2); Some (3 # 4); Some (1 # 2); Some (1 # 2)])
  /\ List.length (rows (top_expiries_by_oi_pcr (Sample.enriched Sample.four_expiries) (-1)))
     = 3%nat.
Proof.
  split; [ vm_compute; reflexivity | ].
  split; [ | vm_compute; reflexivity ].
  eexists. split; [ vm_compute; reflexivity | reflexivity ].
Qed.

(** ** The fixed-metric ranking has no quality gate *)

Lemma insert_by_map {A : Type} (f : A -> A) (leb : A -> A -> bool) (x : A) (l : list A) :
  (forall a b, leb (f a) (f b) = leb a b) ->
  insert_by leb (f x) (map f l) = map f (insert_by leb x l).
Proof.
  intros H. induction l as [ | y tl IH ]; simpl; [ reflexivity | ].
  rewrite H. destruct (leb x y); simpl; [ reflexivity | ].
  rewrite IH. reflexivity.
Qed.

Lemma sort_by_map {A : Type} (f : A -> A) (leb : A -> A -> bool) (l : list A) :
  (forall a b, leb (f a) (f b) = leb a b) ->
  sort_by leb (map f l) = map f (sort_by leb l).
Proof.
  intros H. induction l as [ | x tl IH ]; simpl; [ reflexivity | ].
  rewrite IH. apply insert_by_map, H.
Qed.

Lemma filter_map_same {A : Type} (f : A -> A) (p : A -> bool) (l : list A) :
  (forall a, p (f a) = p a) -> filter p (map f l) = map f (filter p l).
Proof.
  intros H. induction l as [ | x tl IH ]; simpl; [ reflexivity | ].
  rewrite H. destruct (p x); simpl; rewrite IH; reflexivity.
Qed.

Lemma prefix_map {A B : Type} (f : A -> B) (n : Z) (l : list A) :
  prefix n (map f l) = map f (prefix n l).
Proof.
  unfold prefix. rewrite length_map. destruct (0 <=? n); apply firstn_map.
Qed.

Lemma prefix_all {A : Type} (n : Z) (l : list A) :
  Z.of_nat (List.length l) <= n -> prefix n l = l.
Proof.
  intros H. unfold prefix. destruct (Z.leb_spec 0 n); [ | lia ].
  apply firstn_all2. lia.
Qed.

(** C9.  [top_expiries_by_oi_pcr] never looks at [Quality_OK]: setting the
    flags of the table in any way leaves its result unchanged, and when
    [top_n] covers the table every row with a non-NaN OI_PCR is in the
    result, flagged or not.  The generic ranking with its default
    arguments, on a table that has the [Quality_OK] column, returns only
    rows whose flag is true. *)
Theorem oi_pcr_ranking_has_no_quality_gate (to_numeric_str : string -> float)
        (df : DataFrame) (top_n : Z) (flag : Row -> bool) (metric : string) :
  top_expiries_by_oi_pcr
    (with_rows (map (fun r => set_Quality_OK (flag r) r)) df) top_n
  = top_expiries_by_oi_pcr df top_n
  /\ (forall r, In r (rows df) -> OI_PCR r <> nan ->
                Z.of_nat (List.length (rows df)) <= top_n ->
                In (project TOP_OI_COLUMNS r) (rows (top_expiries_by_oi_pcr df top_n)))
  /\ (str_in "Quality_OK" (columns df) = true ->
      forall t, top_by_metric_default to_numeric_str df metric = Ok t ->
                Forall (fun r => Quality_OK r = true) (rows t)).
Proof.
  split; [ | split ].
  - set (F := fun r => set_Quality_OK (flag r) r).
    unfold top_expiries_by_oi_pcr, empty, with_rows. cbn [rows columns attrs].
    rewrite (filter_map_same F (fun r => notna (OI_PCR r))) by reflexivity.
    destruct (filter (fun r => notna (OI_PCR r)) (rows df)) as [ | r0 tl ]; cbn [map].
    + reflexivity.
    + f_equal. change (F r0 :: map F tl) with (map F (r0 :: tl)).
      unfold sort_values. rewrite sort_by_map by reflexivity.
      rewrite prefix_map, map_map. apply map_ext. reflexivity.
  - intros r Hin Hnum Hn.
    rewrite top_expiries_by_oi_pcr_rows. apply in_map.
    set (l := filter (fun r => notna (OI_PCR r)) (rows df)).
    assert (Hr : In r l).
    { apply filter_In. split; [ exact Hin | ].
      destruct (OI_PCR r); [ reflexivity | contradiction ]. }
    assert (Hlen : (List.length l <= List.length (rows df))%nat) by apply filter_length_le.
    rewrite prefix_all.
    + apply (Permutation_in _ (Permutation_sym (sort_values_perm OI_PCR false l))). exact Hr.
    + rewrite (Permutation_length (sort_values_perm OI_PCR false l)). lia.
  - intros Hcol t Ht. unfold top_by_metric_default in Ht.
    destruct (top_by_metric_rows to_numeric_str df t metric 5 true true Ht)
      as [_ [cols [Hcols Hrows]]].
    destruct (rows t) as [ | x xs ] eqn:Ert; [ constructor | ].
    destruct Hcols as [Hc _]; [ discriminate | ].
    rewrite Hrows. apply Forall_map.
    assert (Hq : str_in "Quality_OK" cols = true).
    { rewrite Hc. apply str_in_filter; [ reflexivity | exact Hcol ]. }
    eapply Forall_perm_prefix; [ apply sort_values_perm | ].
    apply Forall_filter. rewrite (quality_filter_gated df Hcol).
    apply Forall_forall. intros r Hr. apply filter_In in Hr.
    unfold project. cbn [Quality_OK]. rewrite Hq. apply Hr.
Qed.

(** On the sample table the expiry that fails the quality gate is ranked
    by the fixed-metric ranking and left out by the generic one. *)
Example gate_on_sample :
  In Sample.expiry_B
     (map Expiry (rows (top_expiries_by_oi_pcr_default
                          (Sample.enriched Sample.four_expiries))))
  /\ exists t,
      top_by_metric_default Sample.no_number (Sample.enriched Sample.four_expiries) "OI_PCR"
      = Ok t
      /\ map Expiry (rows t) = [Sample.expiry_A; Sample.expiry_D; Sample.expiry_C].
Proof.
  split; [ vm_compute; tauto | ].
  eexists. split; [ vm_compute; reflexivity | reflexivity ].
Qed.

(** ** Enriched tables have non-negative open interest *)

Lemma qsum_nonneg (l : list float) :
  nonneg_col (Some l) = true -> (0 <= qsum (fillna 0 l))%Q.
Proof.
  induction l as [ | x tl IH ]; simpl; intros H.
  - apply Qle_refl.
  - apply andb_prop in H. destruct H as [Hx Htl]. specialize (IH Htl).
    rewrite qsum_cons. destruct x as [ q | ].
    + apply Qle_bool_iff in Hx. lra.
    + lra.
Qed.

Lemma try_expiry_nonneg (tk : Ticker) (symbol exp : string) (row : Row) :
  nonneg_oi tk exp = true ->
  try_expiry tk symbol exp = Some row ->
  0 <= Put_OI row /\ 0 <= Total_OI row.
Proof.
  unfold nonneg_oi, try_expiry. intros Hnn Htry.
  destruct (option_chain tk exp) as [ ch | ]; [ | discriminate ].
  destruct (volume (calls ch)) as [ cv | ]; [ | discriminate ].
  destruct (volume (puts ch)) as [ pv | ]; [ | discriminate ].
  destruct (openInterest (calls ch)) as [ co | ]; [ | discriminate ].
  destruct (openInterest (puts ch)) as [ po | ]; [ | discriminate ].
  apply andb_prop in Hnn. destruct Hnn as [Hc Hp].
  pose proof (qsum_nonneg co Hc) as Hco.
  pose proof (qsum_nonneg po Hp) as Hpo.
  injection Htry as <-. cbn [Put_OI Total_OI].
  split; apply round_half_even_ge; change (inject_Z 0) with 0%Q; lra.
Qed.

Lemma map_result_In {A B : Type} (f : A -> result B) (l : list A) (l' : list B) :
  map_result f l = Ok l' ->
  forall y, In y l' -> exists x, In x l /\ f x = Ok y.
Proof.
  revert l'. induction l as [ | x tl IH ]; intros l' H y Hy; simpl in H.
  - injection H as <-. contradiction.
  - destruct (f x) as [ b | ] eqn:Ex; simpl in H; [ | discriminate ].
    destruct (map_result f tl) as [ bs | ]; simpl in H; [ | discriminate ].
    injection H as <-. destruct Hy as [ <- | Hy ].
    + exists x. split; [ left; reflexivity | exact Ex ].
    + destruct (IH bs eq_refl y Hy) as [x' [Hx' Hf]].
      exists x'. split; [ right; exact Hx' | exact Hf ].
Qed.

(** The table [enrich_per_expiry] returns for a provider without negative
    open interest has non-negative [Put_OI] and [Total_OI] columns. *)
Lemma enriched_open_interest_nonneg (to_datetime : string -> option date) (today : date)
      (yf : string -> Ticker) (symbol : string) (max_expiries : option Z)
      (df : DataFrame) :
  forallb (nonneg_oi (yf symbol)) (requested_expiries (yf symbol) max_expiries) = true ->
  enrich_per_expiry to_datetime today yf symbol max_expiries = Ok df ->
  Forall (fun r => 0 <= Put_OI r /\ 0 <= Total_OI r) (rows df).
Proof.
  intros Hnn Hok. unfold enrich_per_expiry in Hok.
  destruct (per_expiry_totals yf symbol max_expiries) as [ base | ] eqn:Hbase;
    [ | discriminate ].
  cbn [bind] in Hok.
  assert (Hb : Forall (fun r => 0 <= Put_OI r /\ 0 <= Total_OI r) (rows base)).
  { pose proof (per_expiry_totals_unfold yf symbol max_expiries) as Hu.
    cbv zeta in Hu. rewrite Hu in Hbase. clear Hu.
    destruct (options (yf symbol)); [ discriminate | ].
    set (expiries := requested_expiries (yf symbol) max_expiries) in *.
    assert (Hall : Forall (fun r => 0 <= Put_OI r /\ 0 <= Total_OI r)
                          (aggregated (yf symbol) symbol expiries)).
    { apply aggregated_Forall. intros exp row Hin Htry.
      apply (try_expiry_nonneg (yf symbol) symbol exp); [ | exact Htry ].
      rewrite forallb_forall in Hnn. apply Hnn, Hin. }
    destruct (aggregated (yf symbol) symbol expiries) eqn:Hagg; [ discriminate | ].
    injection Hbase as <-. cbn [rows].
    rewrite Forall_forall in *. intros x Hx. apply Hall.
    eapply Permutation_in; [ apply sort_by_perm | exact Hx ]. }
  unfold add_dte in Hok.
  destruct (map_result _ (rows base)) as [ rs | ] eqn:Hrs; [ | discriminate ].
  cbn [bind] in Hok. injection Hok as <-.
  cbn [rows add_event_score add_quality_flags add_flow_vs_positioning].
  assert (Hd : Forall (fun r => 0 <= Put_OI r /\ 0 <= Total_OI r) rs).
  { apply Forall_forall. intros y Hy.
    destruct (map_result_In _ _ _ Hrs y Hy) as [x [Hx Hf]].
    rewrite Forall_forall in Hb. specialize (Hb x Hx).
    destruct (dte_of _ _) as [ v | ]; [ | discriminate ].
    cbn [bind] in Hf. injection Hf as <-. exact Hb. }
  destruct (Qle_bool _ 0); rewrite !Forall_map;
    (eapply Forall_impl; [ | exact Hd ]); intros r Hr; exact Hr.
Qed.

(** * Further properties of the code *)

(** ** The raw table *)

Lemma try_expiry_labels (tk : Ticker) (symbol exp : string) (row : Row) :
  try_expiry tk symbol exp = Some row -> Symbol row = symbol /\ Expiry row = exp.
Proof.
  unfold try_expiry. intros H.
  destruct (option_chain tk exp) as [ ch | ]; [ | discriminate ].
  destruct (volume (calls ch)), (volume (puts ch)),
           (openInterest (calls ch)), (openInterest (puts ch));
    try discriminate.
  injection H as <-. split; reflexivity.
Qed.

Lemma per_expiry_totals_ok (yf : string -> Ticker) (symbol : string)
      (max_expiries : option Z) (df : DataFrame) :
  per_expiry_totals yf symbol max_expiries = Ok df ->
  let expiries := requested_expiries (yf symbol) max_expiries in
  aggregated (yf symbol) symbol expiries <> []
  /\ df = mkDF BASE_COLUMNS (sort_values_Expiry (aggregated (yf symbol) symbol expiries))
               [("Expiries_Used"%string,
                 Z.of_nat (List.length (aggregated (yf symbol) symbol expiries)));
                ("Expiries_Requested"%string, Z.of_nat (List.length expiries))].
Proof.
  intros Hok expiries.
  pose proof (per_expiry_totals_unfold yf symbol max_expiries) as Hu.
  cbv zeta in Hu. fold expiries in Hu. rewrite Hu in Hok. clear Hu.
  destruct (options (yf symbol)); [ discriminate | ].
  destruct (aggregated (yf symbol) symbol expiries) eqn:E; [ discriminate | ].
  injection Hok as <-. split; [ discriminate | reflexivity ].
Qed.

Lemma per_expiry_totals_rows_Forall (P : Row -> Prop) (yf : string -> Ticker)
      (symbol : string) (max_expiries : option Z) (df : DataFrame) :
  per_expiry_totals yf symbol max_expiries = Ok df ->
  (forall exp row, In exp (requested_expiries (yf symbol) max_expiries) ->
                   try_expiry (yf symbol) symbol exp = Some row -> P row) ->
  Forall P (rows df).
Proof.
  intros Hok HP.
  destruct (per_expiry_totals_ok yf symbol max_expiries df Hok) as [_ ->].
  cbn [rows].
  pose proof (aggregated_Forall P (yf symbol) symbol _ HP) as Hall.
  rewrite Forall_forall in *. intros x Hx. apply Hall.
  eapply Permutation_in; [ apply sort_by_perm | exact Hx ].
Qed.

(** X1.  The table [per_expiry_totals] returns is never empty, has the nine
    raw columns, carries the requested symbol in every row, and its rows are
    in ascending order of their expiry labels. *)
Theorem per_expiry_totals_sorted (yf : string -> Ticker) (symbol : string)
        (max_expiries : option Z) (df : DataFrame) :
  per_expiry_totals yf symbol max_expiries = Ok df ->
  rows df <> []
  /\ columns df = BASE_COLUMNS
  /\ Forall (fun r => Symbol r = symbol) (rows df)
  /\ Sorted (fun a b => String.leb (Expiry a) (Expiry b) = true) (rows df).
Proof.
  intros Hok.
  pose proof (per_expiry_totals_rows_Forall (fun r => Symbol r = symbol)
                yf symbol max_expiries df Hok) as Hsym.
  destruct (per_expiry_totals_ok yf symbol max_expiries df Hok) as [Hne ->].
  cbn [rows columns] in *.
  split; [ | split; [ reflexivity | split ] ].
  - intros Hnil. apply Hne. apply (sort_by_nil _ _ Hnil).
  - apply Hsym. intros exp row _ Htry.
    apply (try_expiry_labels _ _ _ _ Htry).
  - apply (sort_by_sorted (fun a b => String.leb (Expiry a) (Expiry b))).
    intros a b Hab.
    destruct (String.leb_total (Expiry a) (Expiry b)) as [ H | H ];
      [ congruence | exact H ].
Qed.

Lemma per_expiry_totals_sorted_witness :
  exists df,
    per_expiry_totals Sample.four_expiries SYMBOL None = Ok df
    /\ Sorted (fun a b => String.leb (Expiry a) (Expiry b) = true) (rows df).
Proof.
  eexists. split; [ vm_compute; reflexivity | ].
  apply (per_expiry_totals_sorted Sample.four_expiries SYMBOL None).
  vm_compute. reflexivity.
Defined.

Lemma prefix_length_le {A : Type} (n : Z) (l : list A) :
  (List.length (prefix n l) <= List.length l)%nat.
Proof.
  unfold prefix. destruct (0 <=? n); rewrite length_firstn; lia.
Qed.

Lemma aggregated_length (tk : Ticker) (symbol : string) (l : list string) :
  (List.length (aggregated tk symbol l) <= List.length l)%nat.
Proof.
  rewrite <- (length_map Expiry), aggregated_expiries. apply filter_length_le.
Qed.

(** X2.  In the table [per_expiry_totals] returns, [Expiries_Used] is the
    number of rows, it is at least 1 and at most [Expiries_Requested], which
    is at most the number of listed expiries and, under a cap
    [max_expiries >= 0], at most the cap. *)
Theorem per_expiry_totals_counts (yf : string -> Ticker) (symbol : string)
        (max_expiries : option Z) (df : DataFrame) :
  per_expiry_totals yf symbol max_expiries = Ok df ->
  exists used requested : Z,
    attrs_get "Expiries_Used" (attrs df) = Some used
    /\ attrs_get "Expiries_Requested" (attrs df) = Some requested
    /\ used = Z.of_nat (List.length (rows df))
    /\ 1 <= used <= requested
    /\ requested <= Z.of_nat (List.length (options (yf symbol)))
    /\ (forall n, max_expiries = Some n -> 0 <= n -> requested <= n).
Proof.
  intros Hok.
  destruct (per_expiry_totals_ok yf symbol max_expiries df Hok) as [Hne ->].
  set (expiries := requested_expiries (yf symbol) max_expiries) in *.
  set (agg := aggregated (yf symbol) symbol expiries) in *.
  exists (Z.of_nat (List.length agg)), (Z.of_nat (List.length expiries)).
  split; [ reflexivity | ]. split; [ reflexivity | ].
  split.
  { cbn [rows]. unfold sort_values_Expiry.
    rewrite (Permutation_length (sort_by_perm _ agg)). reflexivity. }
  split.
  { pose proof (aggregated_length (yf symbol) symbol expiries). fold agg in H.
    destruct agg; [ contradiction Hne; reflexivity | cbn [List.length] in *; lia ]. }
  split.
  { unfold expiries, requested_expiries. destruct max_expiries as [ n | ].
    - pose proof (prefix_length_le n (options (yf symbol))). lia.
    - lia. }
  intros n -> Hn. unfold expiries, requested_expiries.
  apply prefix_length, Hn.
Qed.

Lemma per_expiry_totals_counts_witness :
  exists df used requested,
    per_expiry_totals Sample.one_good_of_three SYMBOL (Some 2) = Ok df
    /\ attrs_get "Expiries_Used" (attrs df) = Some used
    /\ attrs_get "Expiries_Requested" (attrs df) = Some requested
    /\ 1 <= used <= requested /\ requested <= 2.
Proof.
  assert (Hok : per_expiry_totals Sample.one_good_of_three SYMBOL (Some 2)
                = Ok (mkDF BASE_COLUMNS
                           [Sample.raw_row Sample.expiry_A 600 900 2000 1000]
                           [("Expiries_Used"%string, 1); ("Expiries_Requested"%string, 2)])).
  { vm_compute. reflexivity. }
  destruct (per_expiry_totals_counts Sample.one_good_of_three SYMBOL (Some 2) _ Hok)
    as [used [requested [H1 [H2 [_ [H4 [_ H6]]]]]]].
  eexists _, used, requested.
  split; [ exact Hok | ]. split; [ exact H1 | ]. split; [ exact H2 | ].
  split; [ exact H4 | ]. apply (H6 2 eq_refl). lia.
Defined.

Lemma round_nd_comp (n : nat) (x y : Q) : (x == y)%Q -> round_nd n x = round_nd n y.
Proof.
  intros E. unfold round_nd.
  rewrite (round_half_even_comp (x * inject_Z (Zpos (pow10 n)))
                                (y * inject_Z (Zpos (pow10 n)))).
  - reflexivity.
  - rewrite E. reflexivity.
Qed.

Lemma count_col_sum (l : list float) :
  count_col (Some l) = true ->
  exists z : Z, 0 <= z /\ (qsum (fillna 0 l) == inject_Z z)%Q.
Proof.
  unfold count_col. intros H. apply andb_prop in H. destruct H as [Hi Hn].
  destruct (integral_col_sum l Hi) as [z Hz].
  pose proof (qsum_nonneg l Hn) as Hq.
  exists z. split; [ | exact Hz ].
  rewrite Zle_Qle. rewrite <- Hz. exact Hq.
Qed.

Lemma ratio_of_counts_ok (p c : Q) (zp zc : Z) :
  (p == inject_Z zp)%Q -> (c == inject_Z zc)%Q -> 0 <= zp -> 0 <= zc ->
  ratio_of_counts (round_if_finite 6 (ratio_or_nan p c)) zp zc.
Proof.
  intros Ep Ec Hp Hc. rewrite round_ratio. unfold ratio_of_counts.
  destruct (Qltb 0 c) eqn:E.
  - apply Qltb_true in E. rewrite Ec in E.
    change 0%Q with (inject_Z 0) in E. rewrite <- Zlt_Qlt in E.
    split.
    + split; [ discriminate | lia ].
    + intros q [= <-]. split.
      * apply round_nd_comp. rewrite Ep, Ec. reflexivity.
      * apply round_nd_nonneg. rewrite Ep, Ec.
        apply Qle_shift_div_l.
        -- change 0%Q with (inject_Z 0). rewrite <- Zlt_Qlt. exact E.
        -- rewrite Qmult_0_l. change 0%Q with (inject_Z 0). rewrite <- Zle_Qle. exact Hp.
  - apply Qltb_false in E. rewrite Ec in E.
    change 0%Q with (inject_Z 0) in E. rewrite <- Zle_Qle in E.
    split.
    + split; [ intros _; lia | reflexivity ].
    + discriminate.
Qed.

Lemma try_expiry_ratios (tk : Ticker) (symbol exp : string) (row : Row) :
  count_feed tk exp = true ->
  try_expiry tk symbol exp = Some row ->
  ratio_of_counts (OI_PCR row) (Put_OI row) (Call_OI row)
  /\ ratio_of_counts (Volume_PCR row) (Put_Volume row) (Call_Volume row).
Proof.
  unfold count_feed, try_expiry. intros Hcnt Htry.
  destruct (option_chain tk exp) as [ ch | ]; [ | discriminate ].
  destruct (volume (calls ch)) as [ cv | ]; [ | discriminate ].
  destruct (volume (puts ch)) as [ pv | ]; [ | discriminate ].
  destruct (openInterest (calls ch)) as [ co | ]; [ | discriminate ].
  destruct (openInterest (puts ch)) as [ po | ]; [ | discriminate ].
  apply andb_prop in Hcnt. destruct Hcnt as [Hcnt Hpo].
  apply andb_prop in Hcnt. destruct Hcnt as [Hcnt Hco].
  apply andb_prop in Hcnt. destruct Hcnt as [Hcv Hpv].
  destruct (count_col_sum cv Hcv) as [zcv [Hcv0 Ecv]].
  destruct (count_col_sum pv Hpv) as [zpv [Hpv0 Epv]].
  destruct (count_col_sum co Hco) as [zco [Hco0 Eco]].
  destruct (count_col_sum po Hpo) as [zpo [Hpo0 Epo]].
  injection Htry as <-.
  cbn [OI_PCR Put_OI Call_OI Volume_PCR Put_Volume Call_Volume].
  rewrite (round_half_even_integer _ zcv Ecv), (round_half_even_integer _ zpv Epv),
          (round_half_even_integer _ zco Eco), (round_half_even_integer _ zpo Epo).
  split; apply ratio_of_counts_ok; assumption.
Qed.

Lemma ratio_near_of_exact (ratio : float) (put call : Z) :
  ratio_of_counts ratio put call -> ratio_near_counts ratio put call.
Proof.
  unfold ratio_of_counts, ratio_near_counts. intros [Hnan Hnum].
  split; [ exact Hnan | ].
  intros q Hq. destruct (Hnum q Hq) as [Eq Hpos].
  split; [ exact Hpos | ].
  rewrite Eq.
  eapply Qle_trans; [ apply round_nd_error | ]. vm_compute. discriminate.
Qed.

(** X3.  When the four retrieved columns of every requested expiry hold
    counts (whole, non-negative, possibly null) and each column adds up to
    at most 10^9, every row of the raw table has its two ratios in step with
    its stored counts: OI_PCR is NaN exactly when Call_OI is 0 and otherwise
    is a number, not negative, within one unit of the sixth decimal of
    Put_OI / Call_OI; likewise Volume_PCR with the two volumes. *)
Theorem raw_ratios_follow_counts (yf : string -> Ticker) (symbol : string)
        (max_expiries : option Z) (df : DataFrame) :
  forallb (ordinary_feed (yf symbol)) (requested_expiries (yf symbol) max_expiries)
  = true ->
  per_expiry_totals yf symbol max_expiries = Ok df ->
  Forall (fun r => ratio_near_counts (OI_PCR r) (Put_OI r) (Call_OI r)
                   /\ ratio_near_counts (Volume_PCR r) (Put_Volume r) (Call_Volume r))
         (rows df).
Proof.
  intros Hcnt Hok.
  apply (per_expiry_totals_rows_Forall _ yf symbol max_expiries df Hok).
  intros exp row Hin Htry.
  rewrite forallb_forall in Hcnt. specialize (Hcnt exp Hin).
  unfold ordinary_feed in Hcnt. apply andb_prop in Hcnt. destruct Hcnt as [Hcnt _].
  destruct (try_expiry_ratios (yf symbol) symbol exp row Hcnt Htry) as [Hoi Hvol].
  split; apply ratio_near_of_exact; assumption.
Qed.

Lemma raw_ratios_follow_counts_witness :
  exists df,
    per_expiry_totals Sample.two_expiries SYMBOL None = Ok df
    /\ Forall (fun r => ratio_near_counts (OI_PCR r) (Put_OI r) (Call_OI r)
                        /\ ratio_near_counts (Volume_PCR r) (Put_Volume r) (Call_Volume r))
              (rows df).
Proof.
  eexists. split.
  - vm_compute. reflexivity.
  - apply (raw_ratios_follow_counts Sample.two_expiries SYMBOL None).
    + vm_compute. reflexivity.
    + vm_compute. reflexivity.
Defined.

(** The sixth decimal itself can differ between exact and binary64
    arithmetic: 2633 / 640 is 4.1140625, a tie that rounds to 4.114062,
    while the double nearest to the quotient lies above the tie and
    [round(x, 6)] stores 4.114063. *)
Example tie_rounds_apart :
  (round_nd 6 (2633 # 640) == 4114062 # 1000000)%Q
  /\ exists x c : Q,
      Float64.to_Q (Float64.pcr Float64.d2633 Float64.d640) = Some x
      /\ Float64.to_Q (Float64.stored_pcr Float64.d2633 Float64.d640) = Some c
      /\ ((2633 # 640) < x)%Q
      /\ (Qabs (c - (4114063 # 1000000)) < 1 # 1000000000000000)%Q.
Proof.
  split; [ vm_compute; reflexivity | ].
  eexists _, _.
  split; [ vm_compute; reflexivity | ].
  split; [ vm_compute; reflexivity | ].
  split; reflexivity.
Qed.

(** Without whole counts the two can part: a call open interest of 3/8 is
    stored as 0 next to a defined ratio. *)
Example fractional_ratio_with_zero_count :
  exists df r,
    per_expiry_totals Sample.fractional_oi SYMBOL None = Ok df
    /\ rows df = [r] /\ Call_OI r = 0 /\ OI_PCR r = Some (1 # 1).
Proof.
  eexists _, _. split; [ vm_compute; reflexivity | ]. repeat split.
Qed.

(** ** The signal passes *)

(** X4.  After [add_quality_flags], a row is flagged exactly when its call
    open interest, call volume and total open interest each reach their
    threshold; the raw cells are untouched; raising thresholds can only
    clear flags; and running the pass again with other thresholds replaces
    the flags as if the first run had not happened. *)
Theorem quality_flags_follow_thresholds (df : DataFrame)
        (min_call_oi min_call_vol min_total_oi : Z) :
  let out := add_quality_flags df min_call_oi min_call_vol min_total_oi in
  Forall (fun r => Quality_OK r = true
                   <-> min_call_oi <= Call_OI r
                       /\ min_call_vol <= Call_Volume r
                       /\ min_total_oi <= Total_OI r)
         (rows out)
  /\ map base_cells (rows out) = map base_cells (rows df)
  /\ str_in "Quality_OK" (columns out) = true
  /\ (forall a b c,
         min_call_oi <= a -> min_call_vol <= b -> min_total_oi <= c ->
         Forall2 (fun strict loose => Quality_OK strict = true -> Quality_OK loose = true)
                 (rows (add_quality_flags df a b c)) (rows out))
  /\ (forall a b c,
         add_quality_flags (add_quality_flags df a b c)
                           min_call_oi min_call_vol min_total_oi
         = out).
Proof.
  intros out. subst out. unfold add_quality_flags. cbn [rows columns attrs].
  split; [ | split; [ | split; [ | split ] ] ].
  - apply Forall_map. apply Forall_forall. intros r _.
    cbn [Quality_OK Call_OI Call_Volume Total_OI set_Quality_OK].
    rewrite !andb_true_iff, !Z.leb_le. tauto.
  - rewrite map_map. apply map_ext. reflexivity.
  - unfold add_column. destruct (str_in "Quality_OK" (columns df)) eqn:E; [ exact E | ].
    apply str_in_true. apply in_or_app. right. left. reflexivity.
  - intros a b c Ha Hb Hc.
    induction (rows df) as [ | r tl IH ]; cbn [map]; constructor; [ | exact IH ].
    cbn [Quality_OK set_Quality_OK].
    rewrite !andb_true_iff, !Z.leb_le. lia.
  - intros a b c. f_equal.
    + unfold add_column.
      destruct (str_in "Quality_OK" (columns df)) eqn:E; [ rewrite E; reflexivity | ].
      assert (Hin : str_in "Quality_OK" (columns df ++ ["Quality_OK"%string]) = true).
      { apply str_in_true. apply in_or_app. right. left. reflexivity. }
      rewrite Hin. reflexivity.
    + rewrite map_map. apply map_ext. reflexivity.
Qed.

(** X5.  The three table-to-table passes read only raw cells and write
    cells of their own, so on the rows they commute with one another, and
    the flow pass and the event-score pass change nothing when run twice. *)
Theorem signal_passes_commute (df : DataFrame) (a b c : Z) :
  rows (add_quality_flags (add_flow_vs_positioning df) a b c)
  = rows (add_flow_vs_positioning (add_quality_flags df a b c))
  /\ rows (add_event_score (add_flow_vs_positioning df))
     = rows (add_flow_vs_positioning (add_event_score df))
  /\ rows (add_event_score (add_quality_flags df a b c))
     = rows (add_quality_flags (add_event_score df) a b c)
  /\ rows (add_flow_vs_positioning (add_flow_vs_positioning df))
     = rows (add_flow_vs_positioning df)
  /\ rows (add_event_score (add_event_score df)) = rows (add_event_score df).
Proof.
  assert (Htot : forall (g : Row -> Row) (l : list Row),
             (forall r, Total_OI (g r) = Total_OI r) ->
             total_oi_sum (map g l) = total_oi_sum l).
  { intros g l Hg. unfold total_oi_sum. rewrite map_map.
    rewrite (map_ext _ Total_OI Hg). reflexivity. }
  unfold add_event_score, add_quality_flags, add_flow_vs_positioning.
  cbn [rows columns attrs].
  split; [ | split; [ | split; [ | split ] ] ].
  - rewrite !map_map. apply map_ext. reflexivity.
  - rewrite (Htot flow_row) by reflexivity.
    destruct (Qle_bool _ 0); rewrite !map_map; apply map_ext; reflexivity.
  - rewrite Htot by reflexivity.
    destruct (Qle_bool _ 0); rewrite !map_map; apply map_ext; reflexivity.
  - rewrite !map_map. apply map_ext. reflexivity.
  - destruct (Qle_bool (total_oi_sum (rows df)) 0) eqn:E.
    + rewrite Htot by reflexivity. rewrite E.
      rewrite !map_map. apply map_ext. reflexivity.
    + rewrite Htot by reflexivity. rewrite E.
      rewrite !map_map. apply map_ext. reflexivity.
Qed.


Lemma round_half_even_cases (x : Q) :
  let f := Qfloor x in
  (round_half_even x = f /\ (x - inject_Z f <= 1 # 2)%Q)
  \/ (round_half_even x = f + 1 /\ (1 # 2 <= x - inject_Z f)%Q).
Proof.
  intros f. unfold round_half_even. fold f.
  destruct (Qcompare (x - inject_Z f) (1 # 2)) eqn:Hc.
  - apply Qeq_alt in Hc. destruct (Z.even f); [ left | right ];
      (split; [ reflexivity | rewrite Hc; apply Qle_refl ]).
  - apply Qlt_alt in Hc. left. split; [ reflexivity | apply Qlt_le_weak, Hc ].
  - apply Qgt_alt in Hc. right. split; [ reflexivity | apply Qlt_le_weak, Hc ].
Qed.

Lemma round_half_even_mono (x y : Q) :
  (x <= y)%Q -> round_half_even x <= round_half_even y.
Proof.
  intros Hxy.
  pose proof (Qfloor_resp_le x y Hxy) as Hf.
  destruct (Z.eq_dec (Qfloor x) (Qfloor y)) as [ E | Hne ].
  - destruct (round_half_even_cases x) as [[Hrx Hdx] | [Hrx Hdx]];
      destruct (round_half_even_cases y) as [[Hry Hdy] | [Hry Hdy]];
      try (rewrite Hrx, Hry; lia).
    assert (Heq : (x == y)%Q) by (rewrite E in Hdx; lra).
    rewrite (round_half_even_comp x y Heq). lia.
  - destruct (round_half_even_cases x) as [[-> _] | [-> _]];
      destruct (round_half_even_cases y) as [[-> _] | [-> _]]; lia.
Qed.

Lemma round_nd_mono (n : nat) (x y : Q) :
  (x <= y)%Q -> (round_nd n x <= round_nd n y)%Q.
Proof.
  intros Hxy. rewrite !round_nd_eq.
  set (p := inject_Z (Zpos (pow10 n))).
  assert (Hp : (0 < p)%Q) by apply pow10_pos.
  assert (Hm : round_half_even (x * p) <= round_half_even (y * p)).
  { apply round_half_even_mono. apply Qmult_le_compat_r; [ exact Hxy | lra ]. }
  rewrite Zle_Qle in Hm.
  unfold Qdiv. apply Qmult_le_compat_r; [ exact Hm | ].
  apply Qlt_le_weak, Qinv_lt_0_compat, Hp.
Qed.

Lemma zsum_cons (x : Z) (l : list Z) : zsum (x :: l) = x + zsum l.
Proof.
  unfold zsum at 1. simpl. apply zsum_fold.
Qed.

Lemma zsum_In_le (l : list Z) (x : Z) :
  Forall (fun z => 0 <= z) l -> In x l -> x <= zsum l.
Proof.
  induction 1 as [ | y tl Hy Htl IH ]; intros Hin; [ contradiction | ].
  rewrite zsum_cons. pose proof (zsum_nonneg tl Htl).
  destruct Hin as [ -> | Hin ]; [ lia | specialize (IH Hin); lia ].
Qed.

(** X7.  [add_event_score] gives every row NaN when the table's total open
    interest is not positive.  When it is positive, a row's score is NaN
    exactly when its OI_PCR is NaN; if moreover no row has a negative
    Total_OI, the score of a row with OI_PCR = o >= 0 lies between 0 and o
    rounded to eight decimals; and in a one-row table the score is the
    row's OI_PCR rounded to eight decimals. *)
Theorem event_score_policy (df : DataFrame) :
  let total := zsum (map Total_OI (rows df)) in
  let out := rows (add_event_score df) in
  (total <= 0 -> Forall (fun r => EventScore_OIshare_x_OI_PCR r = nan) out)
  /\ (0 < total ->
      Forall (fun r => EventScore_OIshare_x_OI_PCR r = nan <-> OI_PCR r = nan) out)
  /\ (0 < total -> Forall (fun r => 0 <= Total_OI r) (rows df) ->
      Forall (fun r => forall o, OI_PCR r = Some o -> (0 <= o)%Q ->
                exists e, EventScore_OIshare_x_OI_PCR r = Some e
                          /\ (0 <= e)%Q /\ (e <= round_nd 8 o)%Q) out)
  /\ (forall r, rows df = [r] -> 0 < Total_OI r ->
                map EventScore_OIshare_x_OI_PCR out = [fround 8 (OI_PCR r)]).
Proof.
  intros total out. subst out. unfold add_event_score, total_oi_sum. cbn [rows].
  fold total.
  assert (Hle : Qle_bool (inject_Z total) 0 = true <-> total <= 0).
  { rewrite Qle_bool_iff. change 0%Q with (inject_Z 0). rewrite <- Zle_Qle. tauto. }
  split; [ | split; [ | split ] ].
  - intros Ht. apply Hle in Ht. rewrite Ht.
    apply Forall_map. apply Forall_forall. reflexivity.
  - intros Ht.
    assert (E : Qle_bool (inject_Z total) 0 = false)
      by (apply not_true_is_false; intros E; apply Hle in E; lia).
    rewrite E.
    apply Forall_map. apply Forall_forall. intros r _.
    cbn [EventScore_OIshare_x_OI_PCR OI_PCR set_EventScore].
    destruct (OI_PCR r); cbn [fmul lift2 fround option_map];
      split; try discriminate; reflexivity.
  - intros Ht Hnn.
    assert (E : Qle_bool (inject_Z total) 0 = false)
      by (apply not_true_is_false; intros E; apply Hle in E; lia).
    rewrite E.
    apply Forall_map. apply Forall_forall. intros r Hr o.
    cbn [EventScore_OIshare_x_OI_PCR OI_PCR set_EventScore].
    intros -> Ho. cbn [fmul lift2 fround option_map].
    eexists. split; [ reflexivity | ].
    assert (Hr0 : 0 <= Total_OI r).
    { rewrite Forall_forall in Hnn. apply Hnn, Hr. }
    assert (Hr1 : Total_OI r <= total).
    { apply zsum_In_le; [ apply Forall_map, Hnn | apply in_map, Hr ]. }
    rewrite Zle_Qle in Hr0, Hr1. rewrite Zlt_Qlt in Ht.
    change (inject_Z 0) with 0%Q in *.
    set (t := inject_Z (Total_OI r)) in *. set (T := inject_Z total) in *.
    assert (Hs0 : (0 <= t / T)%Q).
    { apply Qle_shift_div_l; [ exact Ht | lra ]. }
    assert (Hs1 : (t / T <= 1)%Q).
    { apply Qle_shift_div_r; [ exact Ht | lra ]. }
    split.
    + apply round_nd_nonneg. apply Qmult_le_0_compat; assumption.
    + apply round_nd_mono.
      assert (Hm : (t / T * o <= 1 * o)%Q) by (apply Qmult_le_compat_r; assumption).
      lra.
  - intros r Hrows Hpos. unfold total. rewrite Hrows. cbn [map].
    rewrite zsum_cons. change (zsum []) with 0. rewrite Z.add_0_r.
    destruct (Qle_bool (inject_Z (Total_OI r)) 0) eqn:E.
    + apply Qle_bool_iff in E. change 0%Q with (inject_Z 0) in E.
      rewrite <- Zle_Qle in E. lia.
    + cbn [map EventScore_OIshare_x_OI_PCR set_EventScore]. f_equal.
      destruct (OI_PCR r) as [ o | ]; [ | reflexivity ].
      cbn [fmul lift2 fround option_map]. f_equal.
      apply round_nd_comp.
      rewrite Zlt_Qlt in Hpos. change (inject_Z 0) with 0%Q in Hpos.
      field. lra.
Qed.

(** ** The enrichment as a whole *)

(** X8.  An error of the raw aggregation passes through [enrich_per_expiry]
    unchanged.  When the aggregation returns a table and every label parses
    as a date, the enrichment returns a table with the fourteen columns in
    the order the passes add them, the same [attrs], and the rows of the raw
    table in the same order with their raw cells unchanged; each row's DTE
    is the number of days from today to its expiry, and its quality flag is
    set exactly when Call_OI >= 1000, Call_Volume >= 500 and
    Total_OI >= 10000. *)
Theorem enrich_per_expiry_composition (to_datetime : string -> option date)
        (today : date) (yf : string -> Ticker) (symbol : string)
        (max_expiries : option Z) :
  match per_expiry_totals yf symbol max_expiries with
  | Raise e =>
      enrich_per_expiry to_datetime today yf symbol max_expiries = Raise e
  | Ok base =>
      (forall r, In r (rows base) -> to_datetime (Expiry r) <> None) ->
      exists df,
        enrich_per_expiry to_datetime today yf symbol max_expiries = Ok df
        /\ columns df = ENRICHED_COLUMNS
        /\ attrs df = attrs base
        /\ map base_cells (rows df) = map base_cells (rows base)
        /\ Forall (fun r =>
                     DTE r = option_map (fun d => days_between d today)
                                        (to_datetime (Expiry r))
                     /\ (Quality_OK r = true
                         <-> 1000 <= Call_OI r /\ 500 <= Call_Volume r
                             /\ 10000 <= Total_OI r))
                  (rows df)
  end.
Proof.
  destruct (per_expiry_totals yf symbol max_expiries) as [ base | e ] eqn:Hbase.
  - intros Hparse.
    destruct (per_expiry_totals_ok yf symbol max_expiries base Hbase) as [_ Hshape].
    unfold enrich_per_expiry. rewrite Hbase. cbn [bind].
    rewrite (add_dte_parseable to_datetime today base None Hparse). cbn [bind].
    eexists. split; [ reflexivity | ].
    cbn [columns attrs rows add_event_score add_quality_flags add_flow_vs_positioning].
    split; [ rewrite Hshape; reflexivity | ].
    split; [ rewrite Hshape; reflexivity | ].
    split.
    + destruct (Qle_bool _ 0); rewrite !map_map; apply map_ext; reflexivity.
    + destruct (Qle_bool _ 0); rewrite !Forall_map; apply Forall_forall; intros r _;
        cbn [DTE Quality_OK Call_OI Call_Volume Total_OI Expiry
             set_EventScore set_Quality_OK flow_row set_flow set_DTE];
        (split; [ reflexivity | ]);
        unfold MIN_CALL_OI, MIN_CALL_VOL, MIN_TOTAL_OI;
        rewrite !andb_true_iff, !Z.leb_le; tauto.
  - unfold enrich_per_expiry. rewrite Hbase. reflexivity.
Qed.

(** The enrichment of the four-expiry sample. *)
Example enrich_four_expiries :
  exists df,
    enrich_per_expiry Sample.iso_date Sample.asof_2024 Sample.four_expiries SYMBOL None
    = Ok df
    /\ columns df = ENRICHED_COLUMNS
    /\ map (fun r => (Expiry r, DTE r, Quality_OK r)) (rows df)
       = [(Sample.expiry_A, Some 17, true); (Sample.expiry_B, Some 45, false);
          (Sample.expiry_C, Some 73, true); (Sample.expiry_D, Some 353, true)].
Proof.
  eexists. split; [ vm_compute; reflexivity | split; reflexivity ].
Qed.

(** ** Concentration summary *)

Section ConcentrationFacts.

Local Open Scope Q_scope.

Lemma qsum_app (l1 l2 : list Q) : qsum (l1 ++ l2) == qsum l1 + qsum l2.
Proof.
  induction l1 as [ | x tl IH ]; cbn [app].
  - unfold qsum at 2. simpl. ring.
  - rewrite !qsum_cons, IH. ring.
Qed.

Lemma qsum_perm (l l' : list Q) : Permutation l l' -> qsum l == qsum l'.
Proof.
  induction 1 as [ | x l l' _ IH | x y l | l l' l'' _ IH1 _ IH2 ].
  - reflexivity.
  - rewrite !qsum_cons, IH. reflexivity.
  - rewrite !qsum_cons. ring.
  - rewrite IH1. exact IH2.
Qed.

Lemma qsum_list_nonneg (l : list Q) : Forall (fun q => 0 <= q) l -> 0 <= qsum l.
Proof.
  induction 1 as [ | x tl Hx _ IH ]; [ apply Qle_refl | ].
  rewrite qsum_cons. lra.
Qed.

Lemma qsum_firstn_le (n : nat) (l : list Q) :
  Forall (fun q => 0 <= q) l -> qsum (firstn n l) <= qsum l.
Proof.
  intros H. rewrite <- (firstn_skipn n l) at 2. rewrite qsum_app.
  assert (Hs : 0 <= qsum (skipn n l)).
  { apply qsum_list_nonneg. rewrite <- (firstn_skipn n l) in H.
    apply Forall_app in H. apply H. }
  lra.
Qed.

Lemma qsum_prefix_le (n : Z) (l : list Q) :
  Forall (fun q => 0 <= q) l -> qsum (prefix n l) <= qsum l.
Proof.
  intros H. unfold prefix. destruct (0 <=? n)%Z; apply qsum_firstn_le, H.
Qed.

Lemma qsum_prefix_mono (k k' : Z) (l : list Q) :
  Forall (fun q => 0 <= q) l -> (0 <= k <= k')%Z ->
  qsum (prefix k l) <= qsum (prefix k' l).
Proof.
  intros H Hk. unfold prefix.
  destruct (Z.leb_spec 0 k); [ | lia ]. destruct (Z.leb_spec 0 k'); [ | lia ].
  assert (E : firstn (Z.to_nat k) l = firstn (Z.to_nat k) (firstn (Z.to_nat k') l)).
  { rewrite firstn_firstn. f_equal. lia. }
  rewrite E. apply qsum_firstn_le.
  rewrite <- (firstn_skipn (Z.to_nat k') l) in H. apply Forall_app in H. apply H.
Qed.

Lemma shares_sum (f : Row -> Z) (T : Q) (l : list Row) :
  ~ T == 0 ->
  qsum (map (fun r => inject_Z (f r) / T) l) == inject_Z (zsum (map f l)) / T.
Proof.
  intros HT. induction l as [ | r tl IH ].
  - unfold qsum, zsum. simpl. field. exact HT.
  - cbn [map]. rewrite qsum_cons, zsum_cons, IH, inject_Z_plus. field. exact HT.
Qed.

End ConcentrationFacts.

(** X9.  [compute_concentration_metrics] returns the degenerate summary
    (sum 0, share NaN) when the total open interest is not positive.
    Otherwise it returns the exact total and a share that is 1 as soon as
    [top_k] covers the table and 0 for [top_k = 0]; when no row has a
    negative Total_OI the share lies between 0 and 1 and does not decrease
    when [top_k] grows. *)
Theorem concentration_metrics_policy (df : DataFrame) (top_k : Z) :
  let total := zsum (map Total_OI (rows df)) in
  let key k := ("Top" ++ str_of_int k ++ "_TotalOIShare")%string in
  (total <= 0 ->
   compute_concentration_metrics df top_k
   = [("Sum_Total_OI"%string, VInt 0); (key top_k, VFloat nan)])
  /\ (0 < total ->
      exists s,
        compute_concentration_metrics df top_k
        = [("Sum_Total_OI"%string, VInt total); (key top_k, VFloat (Some s))]
        /\ (Z.of_nat (List.length (rows df)) <= top_k -> s = 1%Q)
        /\ (top_k = 0 -> s = 0%Q)
        /\ (Forall (fun r => 0 <= Total_OI r) (rows df) ->
            (0 <= s)%Q /\ (s <= 1)%Q
            /\ forall k', 0 <= top_k <= k' ->
                 exists s',
                   compute_concentration_metrics df k'
                   = [("Sum_Total_OI"%string, VInt total); (key k', VFloat (Some s'))]
                   /\ (s <= s')%Q)).
Proof.
  intros total key. unfold compute_concentration_metrics, total_oi_sum. fold total.
  assert (Hle : Qle_bool (inject_Z total) 0 = true <-> total <= 0).
  { rewrite Qle_bool_iff. change 0%Q with (inject_Z 0). rewrite <- Zle_Qle. tauto. }
  split.
  - intros Ht. apply Hle in Ht. rewrite Ht. reflexivity.
  - intros Ht.
    assert (E : Qle_bool (inject_Z total) 0 = false)
      by (apply not_true_is_false; intros E; apply Hle in E; lia).
    rewrite E. rewrite round_half_even_Z.
    set (T := inject_Z total).
    assert (HT : (0 < T)%Q).
    { unfold T. change 0%Q with (inject_Z 0). rewrite <- Zlt_Qlt. exact Ht. }
    set (share := map (fun r => (inject_Z (Total_OI r) / T)%Q) (rows df)).
    assert (Hperm : Permutation (sort_desc share) share) by apply sort_by_perm.
    assert (Hall : (qsum (sort_desc share) == 1)%Q).
    { rewrite (qsum_perm _ _ Hperm). unfold share. rewrite shares_sum by lra.
      fold total. fold T. field. lra. }
    eexists. split; [ reflexivity | ].
    split; [ | split ].
    + intros Hcov.
      rewrite prefix_all.
      * rewrite (round_nd_comp 6 _ 1 Hall). reflexivity.
      * rewrite (Permutation_length Hperm). unfold share. rewrite length_map. exact Hcov.
    + intros ->. reflexivity.
    + intros Hnn.
      assert (Hshare : Forall (fun q => (0 <= q)%Q) (sort_desc share)).
      { rewrite Forall_forall. intros q Hq.
        apply (Permutation_in _ Hperm) in Hq. unfold share in Hq.
        apply in_map_iff in Hq. destruct Hq as [r [<- Hr]].
        rewrite Forall_forall in Hnn. specialize (Hnn r Hr).
        apply Qle_shift_div_l; [ exact HT | ].
        rewrite Qmult_0_l. change 0%Q with (inject_Z 0). rewrite <- Zle_Qle. exact Hnn. }
      split; [ | split ].
      * apply round_nd_nonneg. apply qsum_list_nonneg.
        rewrite Forall_forall in *. intros q Hq. apply Hshare.
        apply (prefix_incl top_k). exact Hq.
      * change 1%Q with (round_nd 6 1). apply round_nd_mono.
        rewrite <- Hall. apply qsum_prefix_le, Hshare.
      * intros k' Hk. eexists. split; [ reflexivity | ].
        apply round_nd_mono. apply qsum_prefix_mono; assumption.
Qed.

(** The summary of the four-expiry sample: the three largest expiries hold
    all but 150 of the 100150 contracts. *)
Example concentration_of_four_expiries :
  compute_concentration_metrics (Sample.enriched Sample.four_expiries) 3
  = [("Sum_Total_OI"%string, VInt 100150);
     ("Top3_TotalOIShare"%string, VFloat (Some (round_nd 6 (100000 # 100150))))].
Proof. vm_compute. reflexivity. Qed.

(** ** The bucket table as a whole *)

Lemma band_split (f : Row -> Z) (t : list Row) :
  zsum (map f (filter (in_band 1 20) t))
  + zsum (map f (filter (in_band 21 60) t))
  + zsum (map f (filter (in_band 61 120) t))
  = zsum (map f (filter (in_band 1 120) t)).
Proof.
  induction t as [ | r tl IH ]; [ reflexivity | ].
  cbn [filter].
  destruct (in_band 1 20 r) eqn:E1, (in_band 21 60 r) eqn:E2,
           (in_band 61 120 r) eqn:E3, (in_band 1 120 r) eqn:E4;
    cbn [map]; rewrite ?zsum_cons; try lia; exfalso;
    unfold in_band in E1, E2, E3, E4; destruct (DTE r); try discriminate;
    rewrite ?andb_true_iff, ?andb_false_iff, ?Z.leb_le, ?Z.leb_gt in E1, E2, E3, E4;
    lia.
Qed.

Lemma zsum_filter_le (f : Row -> Z) (p : Row -> bool) (t : list Row) :
  Forall (fun r => 0 <= f r) t ->
  zsum (map f (filter p t)) <= zsum (map f t).
Proof.
  induction 1 as [ | r tl Hr _ IH ]; [ reflexivity | ].
  cbn [filter map]. destruct (p r); cbn [map]; rewrite ?zsum_cons; lia.
Qed.

Lemma bucket_sums (df : DataFrame) (rq : bool) (g : BucketRow -> Z) (f : Row -> Z) :
  (forall s sh b, g (set_concentration s sh b) = g b) ->
  (forall t d name lo hi,
      g (bucket_row t d (name, lo, hi))
      = round_half_even (col_sum f (filter (in_band lo hi) t))) ->
  zsum (map g (bucket_term_structure df rq))
  = zsum (map f (filter (in_band 1 120) (quality_filter rq df))).
Proof.
  intros Hkeep Hg. unfold bucket_term_structure, bucket_term_structure_on.
  rewrite (add_concentration_keeps g _ Hkeep).
  set (t := quality_filter rq df).
  unfold BUCKETS. cbn [map]. rewrite !Hg. unfold col_sum.
  rewrite !round_half_even_Z, !zsum_cons.
  change (zsum []) with 0. rewrite <- (band_split f t). lia.
Qed.

(** X10.  Whatever the table, [bucket_term_structure] returns the three
    bands Short 1-20, Mid 21-60 and Long 61-120, in that order.  Every row
    that passes the gate with a DTE from 1 to 120 is counted in exactly one
    band, so each of the five bucket sums adds up, over the bands, to the
    sum of its column over those rows; rows with a DTE outside 1-120 or NaN
    are in no band.  With non-negative Total_OI the bucket totals add up to
    at most the gated total. *)
Theorem bucket_table_partitions_rows (df : DataFrame) (require_quality_ok : bool) :
  let out := bucket_term_structure df require_quality_ok in
  let gated := quality_filter require_quality_ok df in
  let inside := filter (in_band 1 120) gated in
  map (fun b => (Bucket b, DTE_Min b, DTE_Max b)) out = BUCKETS
  /\ zsum (map Bucket_TotalOI out) = zsum (map Total_OI inside)
  /\ zsum (map Sum_Put_OI out) = zsum (map Put_OI inside)
  /\ zsum (map Sum_Call_OI out) = zsum (map Call_OI inside)
  /\ zsum (map Sum_Put_Volume out) = zsum (map Put_Volume inside)
  /\ zsum (map Sum_Call_Volume out) = zsum (map Call_Volume inside)
  /\ (Forall (fun r => 0 <= Total_OI r) (rows df) ->
      zsum (map Bucket_TotalOI out) <= zsum (map Total_OI gated)).
Proof.
  intros out gated inside. subst out gated inside.
  assert (Htot : zsum (map Bucket_TotalOI (bucket_term_structure df require_quality_ok))
                 = zsum (map Total_OI (filter (in_band 1 120)
                                              (quality_filter require_quality_ok df))))
    by (apply bucket_sums; reflexivity).
  split.
  { unfold bucket_term_structure, bucket_term_structure_on.
    rewrite add_concentration_keeps by reflexivity. reflexivity. }
  split; [ exact Htot | ].
  split; [ apply bucket_sums; reflexivity | ].
  split; [ apply bucket_sums; reflexivity | ].
  split; [ apply bucket_sums; reflexivity | ].
  split; [ apply bucket_sums; reflexivity | ].
  intros Hnn. rewrite Htot. apply zsum_filter_le.
  apply quality_filter_Forall, Hnn.
Qed.

(** X11.  The gate of [bucket_term_structure] is skipped without notice on
    a table that has no Quality_OK column, and turning the gate off gives
    the bucket table of the same rows with every flag set. *)
Theorem bucket_gate_switch (df : DataFrame) :
  (str_in "Quality_OK" (columns df) = false ->
   bucket_term_structure df true = bucket_term_structure df false)
  /\ (str_in "Quality_OK" (columns df) = true ->
      bucket_term_structure (with_rows (map (set_Quality_OK true)) df) true
      = bucket_term_structure df false).
Proof.
  split.
  - intros H. unfold bucket_term_structure, bucket_term_structure_on, quality_filter.
    rewrite H. reflexivity.
  - intros H. unfold bucket_term_structure, bucket_term_structure_on, quality_filter.
    cbn [with_rows columns rows andb]. rewrite H.
    assert (Hall : filter Quality_OK (map (set_Quality_OK true) (rows df))
                   = map (set_Quality_OK true) (rows df)).
    { induction (rows df) as [ | r tl IH ]; [ reflexivity | ].
      cbn [map filter Quality_OK set_Quality_OK]. rewrite IH. reflexivity. }
    rewrite Hall. f_equal.
    assert (Hcol : forall (f : Row -> Z) (p : Row -> bool) (l : list Row),
               (forall r, f (set_Quality_OK true r) = f r) ->
               (forall r, p (set_Quality_OK true r) = p r) ->
               col_sum f (filter p (map (set_Quality_OK true) l)) = col_sum f (filter p l)).
    { intros f p l Hf Hp. unfold col_sum.
      rewrite (filter_map_same (set_Quality_OK true) p l Hp), map_map.
      rewrite (map_ext _ f Hf). reflexivity. }
    assert (Hden : col_sum Total_OI (map (set_Quality_OK true) (rows df))
                   = col_sum Total_OI (rows df)).
    { unfold col_sum. rewrite map_map. reflexivity. }
    rewrite Hden. apply map_ext. intros [[name lo] hi].
    unfold bucket_row. rewrite !Hcol by reflexivity. reflexivity.
Qed.

Lemma bucket_gate_switch_witness :
  bucket_term_structure
    (with_rows (map (set_Quality_OK true)) (Sample.enriched Sample.four_expiries)) true
  = bucket_term_structure (Sample.enriched Sample.four_expiries) false.
Proof.
  apply (proj2 (bucket_gate_switch (Sample.enriched Sample.four_expiries))).
  reflexivity.
Defined.

(** ** What the rankings keep *)

Lemma metric_le_trans (x y z : float) : metric_le x y -> metric_le y z -> metric_le x z.
Proof.
  destruct x, y, z; cbn; try tauto. apply Qle_trans.
Qed.

Lemma not_before_trans (key : Row -> float) (descending : bool) (a b c : Row) :
  not_before key descending a b -> not_before key descending b c ->
  not_before key descending a c.
Proof.
  unfold not_before. destruct descending; intros H1 H2.
  - exact (metric_le_trans _ _ _ H2 H1).
  - exact (metric_le_trans _ _ _ H1 H2).
Qed.

Lemma StronglySorted_app_cross {A : Type} (R : A -> A -> Prop) (l1 l2 : list A) :
  StronglySorted R (l1 ++ l2) ->
  forall a b, In a l1 -> In b l2 -> R a b.
Proof.
  induction l1 as [ | x tl IH ]; intros Hs a b Ha Hb; [ contradiction | ].
  cbn [app] in Hs. inversion Hs as [ | ? ? Htl Hx ]; subst.
  destruct Ha as [ <- | Ha ].
  - rewrite Forall_forall in Hx. apply Hx. apply in_or_app. right. exact Hb.
  - apply (IH Htl); assumption.
Qed.

Lemma prefix_split {A : Type} (n : Z) (l : list A) :
  exists rest, l = prefix n l ++ rest
               /\ (Z.of_nat (List.length l) <= n -> rest = []).
Proof.
  unfold prefix. destruct (Z.leb_spec 0 n).
  - exists (skipn (Z.to_nat n) l). split; [ symmetry; apply firstn_skipn | ].
    intros Hn. apply skipn_all2. lia.
  - eexists. split; [ symmetry; apply firstn_skipn | ]. lia.
Qed.

Lemma sort_values_keeps_best (key : Row -> float) (ascending : bool) (n : Z)
      (l : list Row) :
  Forall (fun r => key r <> nan) l ->
  exists rest,
    Permutation l (prefix n (sort_values key ascending l) ++ rest)
    /\ (forall a b, In a (prefix n (sort_values key ascending l)) -> In b rest ->
                    not_before key (negb ascending) a b)
    /\ (Z.of_nat (List.length l) <= n -> rest = []).
Proof.
  intros Hl.
  set (s := sort_values key ascending l).
  destruct (prefix_split n s) as [rest [Hs Hcov]].
  exists rest. split; [ | split ].
  - rewrite <- Hs. apply Permutation_sym, sort_values_perm.
  - pose proof (sort_values_ordered key ascending l Hl) as Hord.
    fold s in Hord. unfold ordered in Hord.
    assert (Hstrong : StronglySorted (not_before key (negb ascending)) s).
    { apply Sorted_StronglySorted; [ | exact Hord ].
      intros a b c. apply not_before_trans. }
    rewrite Hs in Hstrong. apply (StronglySorted_app_cross _ _ _ Hstrong).
  - intros Hn. apply Hcov. unfold s.
    rewrite (Permutation_length (sort_values_perm key ascending l)). exact Hn.
Qed.

(** X12.  Both rankings keep the best rows: the eligible rows (non-NaN
    metric, and past the gate when it is on) split into the rows returned
    and the rows left out, and no row left out ranks before a returned row
    in the requested direction; nothing is left out when [top_n] covers the
    eligible rows. *)
Theorem rankings_keep_the_best (to_numeric_str : string -> float) (df : DataFrame)
        (metric : string) (top_n : Z) (descending require_quality_ok : bool) :
  (exists kept rest,
      Permutation (filter (fun r => notna (OI_PCR r)) (rows df)) (kept ++ rest)
      /\ rows (top_expiries_by_oi_pcr df top_n) = map (project TOP_OI_COLUMNS) kept
      /\ (forall a b, In a kept -> In b rest -> not_before OI_PCR true a b)
      /\ (Z.of_nat (List.length (filter (fun r => notna (OI_PCR r)) (rows df))) <= top_n ->
          rest = []))
  /\ (forall t,
         top_by_metric to_numeric_str df metric top_n descending require_quality_ok
         = Ok t ->
         let key := metric_value to_numeric_str metric in
         let eligible := filter (fun r => notna (key r))
                                (quality_filter require_quality_ok df) in
         exists cols kept rest,
           Permutation eligible (kept ++ rest)
           /\ rows t = map (project cols) kept
           /\ (forall a b, In a kept -> In b rest -> not_before key descending a b)
           /\ (Z.of_nat (List.length eligible) <= top_n -> rest = [])).
Proof.
  split.
  - destruct (sort_values_keeps_best OI_PCR false top_n
                (filter (fun r => notna (OI_PCR r)) (rows df))
                (filter_notna OI_PCR (rows df))) as [rest [Hp [Hbest Hcov]]].
    eexists _, rest. split; [ exact Hp | ].
    split; [ apply top_expiries_by_oi_pcr_rows | ].
    split; [ exact Hbest | exact Hcov ].
  - intros t Ht key eligible.
    destruct (top_by_metric_rows to_numeric_str df t metric top_n descending
                require_quality_ok Ht) as [_ [cols [_ Hrows]]].
    destruct (sort_values_keeps_best key (negb descending) top_n eligible
                (filter_notna key (quality_filter require_quality_ok df)))
      as [rest [Hp [Hbest Hcov]]].
    rewrite negb_involutive in Hbest.
    exists cols. eexists _, rest. split; [ exact Hp | ].
    split; [ exact Hrows | ]. split; [ exact Hbest | exact Hcov ].
Qed.

(** X13.  [top_by_metric] raises [ValueError] exactly when the metric is
    not a column of the table.  Otherwise it returns a table whose rows are
    rows of the input, cut down to the shown columns, each with a number in
    the metric and, when the gate is on and the table has the Quality_OK
    column, with its flag set.  When no gated row has a number in the
    metric, the result is the empty table with the columns of the input;
    [top_expiries_by_oi_pcr] does the same when every OI_PCR is NaN. *)
Theorem ranking_errors_and_provenance (to_numeric_str : string -> float)
        (df : DataFrame) (metric : string) (top_n : Z)
        (descending require_quality_ok : bool) :
  let key := metric_value to_numeric_str metric in
  let run := top_by_metric to_numeric_str df metric top_n descending
                           require_quality_ok in
  (str_in metric (columns df) = false ->
   run = Raise (ValueError ("Metric '" ++ metric ++ "' not found")))
  /\ (str_in metric (columns df) = true ->
      exists t,
        run = Ok t
        /\ (exists cols,
               Forall (fun r => exists r0,
                           In r0 (rows df) /\ key r0 <> nan
                           /\ (require_quality_ok = true ->
                               str_in "Quality_OK" (columns df) = true ->
                               Quality_OK r0 = true)
                           /\ r = project cols r0)
                      (rows t))
        /\ (Forall (fun r0 => key r0 = nan) (quality_filter require_quality_ok df) ->
            rows t = [] /\ columns t = columns df))
  /\ (Forall (fun r0 => OI_PCR r0 = nan) (rows df) ->
      rows (top_expiries_by_oi_pcr df top_n) = []
      /\ columns (top_expiries_by_oi_pcr df top_n) = columns df).
Proof.
  intros key run. subst run.
  assert (Hnone : forall (k : Row -> float) (l : list Row),
             Forall (fun r0 => k r0 = nan) l -> filter (fun r => notna (k r)) l = []).
  { intros k l H. induction H as [ | r tl Hr _ IH ]; [ reflexivity | ].
    cbn [filter]. rewrite Hr. exact IH. }
  split; [ | split ].
  - intros H. unfold top_by_metric. rewrite H. reflexivity.
  - intros Hcol.
    assert (Hrun : exists t, top_by_metric to_numeric_str df metric top_n descending
                                           require_quality_ok = Ok t).
    { unfold top_by_metric. rewrite Hcol. cbn [negb].
      destruct (empty _); eexists; reflexivity. }
    destruct Hrun as [t Ht]. exists t. split; [ exact Ht | ].
    destruct (top_by_metric_rows to_numeric_str df t metric top_n descending
                require_quality_ok Ht) as [_ [cols [_ Hrows]]].
    fold key in Hrows.
    split.
    + exists cols. rewrite Hrows. apply Forall_map. apply Forall_forall. intros r0 Hr0.
      apply prefix_incl in Hr0.
      apply (Permutation_in _ (sort_values_perm key (negb descending) _)) in Hr0.
      apply filter_In in Hr0. destruct Hr0 as [Hgate Hnum].
      exists r0. split; [ | split; [ | split; [ | reflexivity ] ] ].
      * unfold quality_filter in Hgate.
        destruct (require_quality_ok && str_in "Quality_OK" (columns df));
          [ apply filter_In in Hgate; apply Hgate | exact Hgate ].
      * destruct (key r0); [ discriminate | discriminate ].
      * intros -> Hq. unfold quality_filter in Hgate. rewrite Hq in Hgate.
        cbn [andb] in Hgate. apply filter_In in Hgate. apply Hgate.
    + intros Hall. unfold top_by_metric in Ht. rewrite Hcol in Ht. cbn [negb] in Ht.
      unfold empty, with_rows in Ht. cbn [rows columns attrs] in Ht.
      fold key in Ht. rewrite (Hnone key _ Hall) in Ht.
      injection Ht as <-. split; reflexivity.
  - intros Hall. unfold top_expiries_by_oi_pcr, empty, with_rows.
    cbn [rows columns attrs]. rewrite (Hnone OI_PCR _ Hall). split; reflexivity.
Qed.

(** A text column is no number: ranking the sample by Symbol gives the
    empty table, and an unknown name is an error. *)
Example ranking_by_text_and_unknown :
  (exists t,
      top_by_metric Sample.no_number (Sample.enriched Sample.four_expiries)
                    "Symbol" 5 true true = Ok t
      /\ rows t = [] /\ columns t = ENRICHED_COLUMNS)
  /\ top_by_metric Sample.no_number (Sample.enriched Sample.four_expiries)
                   "Gamma" 5 true true
     = Raise (ValueError "Metric 'Gamma' not found").
Proof.
  split; [ eexists; split; [ vm_compute; reflexivity | split; reflexivity ] | ].
  vm_compute. reflexivity.
Qed.

(** ** The per-expiry view *)

Lemma project_all (cols : list string) (r : Row) :
  forallb (fun c => str_in c cols) PER_EXPIRY_COLUMNS = true ->
  project cols r = r.
Proof.
  intros H. unfold PER_EXPIRY_COLUMNS in H. cbn [forallb] in H.
  repeat (apply andb_prop in H; let H1 := fresh "H" in destruct H as [H1 H]).
  unfold project. repeat match goal with
                         | E : str_in _ cols = true |- _ => rewrite E; clear E
                         end.
  destruct r; reflexivity.
Qed.

Lemma filter_all {A : Type} (p : A -> bool) (l : list A) :
  forallb p l = true -> filter p l = l.
Proof.
  induction l as [ | x tl IH ]; [ reflexivity | ].
  cbn [forallb filter]. intros H. apply andb_prop in H. destruct H as [Hx Htl].
  rewrite Hx, (IH Htl). reflexivity.
Qed.

(** X14.  On a table that has the fourteen columns of the enriched table,
    [_per_expiry_table] keeps every row as it is and only puts the columns
    in display order; on any table it keeps the number and order of the
    rows, shows only columns the table has, and never touches the raw
    cells of a table that has the nine raw columns. *)
Theorem per_expiry_table_keeps_rows (df : DataFrame) :
  List.length (rows (_per_expiry_table df)) = List.length (rows df)
  /\ (forall c, In c (columns (_per_expiry_table df)) ->
                In c (columns df) /\ In c PER_EXPIRY_COLUMNS)
  /\ (forallb (fun c => str_in c (columns df)) BASE_COLUMNS = true ->
      map base_cells (rows (_per_expiry_table df)) = map base_cells (rows df))
  /\ (forallb (fun c => str_in c (columns df)) PER_EXPIRY_COLUMNS = true ->
      _per_expiry_table df = mkDF PER_EXPIRY_COLUMNS (rows df) (attrs df)).
Proof.
  unfold _per_expiry_table. cbn [rows columns].
  split; [ apply length_map | ].
  split.
  { intros c Hc. apply filter_In in Hc. destruct Hc as [Hc Hin].
    split; [ apply str_in_true, Hin | exact Hc ]. }
  split.
  { intros H. unfold BASE_COLUMNS in H. cbn [forallb] in H.
    repeat (apply andb_prop in H; let H1 := fresh "H" in destruct H as [H1 H]).
    rewrite map_map. apply map_ext. intros r.
    set (cols := filter (fun c => str_in c (columns df)) PER_EXPIRY_COLUMNS).
    assert (Hcols : forall c, In c PER_EXPIRY_COLUMNS -> str_in c (columns df) = true ->
                              str_in c cols = true).
    { intros c Hc Hd. apply str_in_filter; [ apply str_in_true, Hc | exact Hd ]. }
    unfold base_cells, project.
    cbn [Symbol Expiry Put_Volume Call_Volume Volume_PCR Put_OI Call_OI OI_PCR Total_OI].
    rewrite !Hcols by (first [ assumption | unfold PER_EXPIRY_COLUMNS; cbn; tauto ]).
    reflexivity. }
  intros H. rewrite (filter_all _ _ H). f_equal.
  rewrite <- (map_id (rows df)) at 2. apply map_ext. intros r.
  apply project_all. reflexivity.
Qed.

Lemma per_expiry_table_keeps_rows_witness :
  _per_expiry_table (Sample.enriched Sample.four_expiries)
  = mkDF PER_EXPIRY_COLUMNS (rows (Sample.enriched Sample.four_expiries))
         (attrs (Sample.enriched Sample.four_expiries)).
Proof.
  apply (per_expiry_table_keeps_rows (Sample.enriched Sample.four_expiries)).
  reflexivity.
Defined.

(** ** Days to expiry, and what enrichment preserves *)

(** X15.  When every label parses as a date, [add_dte] returns the table
    with a DTE column, the raw cells and [attrs] unchanged, and in each row
    the number of days from the as-of date (today when none is given) to
    the row's expiry date, which is negative for an expiry before the as-of
    date; moving the as-of date forward by k days lowers every DTE by k. *)
Theorem add_dte_sets_days (to_datetime : string -> option date) (today : date)
        (df : DataFrame) (asof : option date) :
  (forall r, In r (rows df) -> to_datetime (Expiry r) <> None) ->
  exists out,
    add_dte to_datetime today df asof = Ok out
    /\ map base_cells (rows out) = map base_cells (rows df)
    /\ str_in "DTE" (columns out) = true
    /\ attrs out = attrs df
    /\ Forall (fun r => exists d,
                   to_datetime (Expiry r) = Some d
                   /\ DTE r = Some (toordinal d - toordinal (as_of today asof))
                   /\ (toordinal d < toordinal (as_of today asof) ->
                       exists k, DTE r = Some k /\ k < 0))
              (rows out)
    /\ (forall d1, exists out1,
           add_dte to_datetime today df (Some d1) = Ok out1
           /\ Forall2 (fun r r1 => exists k k1,
                           DTE r = Some k /\ DTE r1 = Some k1
                           /\ k1 = k - days_between d1 (as_of today asof))
                      (rows out) (rows out1)).
Proof.
  intros Hparse.
  rewrite (add_dte_parseable to_datetime today df asof Hparse).
  eexists. split; [ reflexivity | ]. cbn [rows columns attrs].
  split; [ rewrite map_map; apply map_ext; reflexivity | ].
  split.
  { unfold add_column. destruct (str_in "DTE" (columns df)) eqn:E; [ exact E | ].
    apply str_in_true. apply in_or_app. right. left. reflexivity. }
  split; [ reflexivity | ].
  split.
  { apply Forall_map. apply Forall_forall. intros r Hr.
    specialize (Hparse r Hr). cbn [DTE Expiry set_DTE].
    destruct (to_datetime (Expiry r)) as [ d | ]; [ | contradiction ].
    exists d. cbn [option_map]. unfold days_between.
    split; [ reflexivity | ]. split; [ reflexivity | ].
    intros Hlt. eexists. split; [ reflexivity | lia ]. }
  intros d1.
  rewrite (add_dte_parseable to_datetime today df (Some d1) Hparse).
  eexists. split; [ reflexivity | ]. cbn [rows as_of].
  induction (rows df) as [ | r tl IH ]; cbn [map]; constructor.
  - specialize (Hparse r (or_introl eq_refl)). cbn [DTE set_DTE].
    destruct (to_datetime (Expiry r)) as [ d | ]; [ | contradiction ].
    cbn [option_map]. eexists _, _. split; [ reflexivity | ].
    split; [ reflexivity | ]. unfold days_between. lia.
  - apply IH. intros x Hx. apply Hparse. right. exact Hx.
Qed.

Lemma add_dte_sets_days_witness :
  exists out,
    add_dte Sample.iso_date Sample.asof_2024 Sample.dated_table None = Ok out
    /\ map DTE (rows out) = [Some (-4); Some 17].
Proof.
  assert (Hparse : forall r, In r (rows Sample.dated_table) ->
                             Sample.iso_date (Expiry r) <> None).
  { intros r [ <- | [ <- | [] ] ]; discriminate. }
  destruct (add_dte_sets_days Sample.iso_date Sample.asof_2024 Sample.dated_table None
              Hparse) as [out [Hout _]].
  exists out. split; [ exact Hout | ].
  vm_compute in Hout. injection Hout as <-. reflexivity.
Defined.

Lemma enriched_rows_from_base (to_datetime : string -> option date) (today : date)
      (yf : string -> Ticker) (symbol : string) (max_expiries : option Z)
      (df : DataFrame) :
  enrich_per_expiry to_datetime today yf symbol max_expiries = Ok df ->
  exists base,
    per_expiry_totals yf symbol max_expiries = Ok base
    /\ Forall (fun r => exists r0, In r0 (rows base)
                                   /\ base_cells r = base_cells r0
                                   /\ Impulse_Vol_over_OI r
                                      = Impulse_Vol_over_OI (flow_row r0))
              (rows df).
Proof.
  intros Hok. unfold enrich_per_expiry in Hok.
  destruct (per_expiry_totals yf symbol max_expiries) as [ base | ] eqn:Hbase;
    [ | discriminate ].
  cbn [bind] in Hok. exists base. split; [ reflexivity | ].
  unfold add_dte in Hok.
  destruct (map_result _ (rows base)) as [ rs | ] eqn:Hrs; [ | discriminate ].
  cbn [bind] in Hok. injection Hok as <-.
  cbn [rows add_event_score add_quality_flags add_flow_vs_positioning].
  assert (Hd : Forall (fun r => exists r0, In r0 (rows base)
                                           /\ base_cells r = base_cells r0
                                           /\ flow_row r = set_DTE (DTE r) (flow_row r0))
                      rs).
  { apply Forall_forall. intros y Hy.
    destruct (map_result_In _ _ _ Hrs y Hy) as [x [Hx Hf]].
    destruct (dte_of _ _) as [ v | ]; [ | discriminate ].
    cbn [bind] in Hf. injection Hf as <-.
    exists x. split; [ exact Hx | split; reflexivity ]. }
  destruct (Qle_bool _ 0); rewrite !Forall_map;
    (eapply Forall_impl; [ | exact Hd ]); intros r [r0 [Hin [Hb Hf]]];
    exists r0; (split; [ exact Hin | ]); (split; [ exact Hb | ]);
    cbn [Impulse_Vol_over_OI set_EventScore set_Quality_OK];
    rewrite Hf; reflexivity.
Qed.

(** X16.  When the retrieved columns of every requested expiry hold counts
    that add up, column by column, to at most 10^9, every row of the table
    [enrich_per_expiry] returns still has Total_OI = Put_OI + Call_OI with
    no negative count, its two ratios in step with its counts (NaN exactly
    on a zero call count, otherwise within one unit of the sixth decimal of
    the quotient of the counts), and an impulse that is NaN when OI_PCR is
    NaN, zero or negative or Volume_PCR is NaN, and otherwise a number
    which, while Volume_PCR / OI_PCR is at most 10^8 in size, is within one
    unit of the sixth decimal of it. *)
Theorem enriched_rows_keep_raw_invariants (to_datetime : string -> option date)
        (today : date) (yf : string -> Ticker) (symbol : string)
        (max_expiries : option Z) (df : DataFrame) :
  forallb (ordinary_feed (yf symbol)) (requested_expiries (yf symbol) max_expiries)
  = true ->
  enrich_per_expiry to_datetime today yf symbol max_expiries = Ok df ->
  Forall (fun r =>
            Total_OI r = Put_OI r + Call_OI r
            /\ 0 <= Put_OI r /\ 0 <= Call_OI r
            /\ ratio_near_counts (OI_PCR r) (Put_OI r) (Call_OI r)
            /\ ratio_near_counts (Volume_PCR r) (Put_Volume r) (Call_Volume r)
            /\ impulse_near_quotient r)
         (rows df).
Proof.
  intros Hcnt Hok.
  destruct (enriched_rows_from_base _ _ _ _ _ _ Hok) as [base [Hbase Hrows]].
  assert (Hraw : Forall (fun r0 =>
                           Total_OI r0 = Put_OI r0 + Call_OI r0
                           /\ 0 <= Put_OI r0 /\ 0 <= Call_OI r0
                           /\ ratio_near_counts (OI_PCR r0) (Put_OI r0) (Call_OI r0)
                           /\ ratio_near_counts (Volume_PCR r0) (Put_Volume r0)
                                                (Call_Volume r0))
                        (rows base)).
  { apply (per_expiry_totals_rows_Forall _ yf symbol max_expiries base Hbase).
    intros exp row Hin Htry.
    rewrite forallb_forall in Hcnt. specialize (Hcnt exp Hin).
    unfold ordinary_feed in Hcnt. apply andb_prop in Hcnt. destruct Hcnt as [Hcnt _].
    destruct (try_expiry_ratios _ _ _ _ Hcnt Htry) as [Hoi Hvol].
    apply ratio_near_of_exact in Hoi. apply ratio_near_of_exact in Hvol.
    unfold count_feed in Hcnt.
    pose proof Htry as Htry'. unfold try_expiry in Htry'.
    destruct (option_chain (yf symbol) exp) as [ ch | ] eqn:Hch; [ | discriminate ].
    apply andb_prop in Hcnt. destruct Hcnt as [Hcnt Hpo].
    apply andb_prop in Hcnt. destruct Hcnt as [_ Hco].
    unfold count_col in Hpo, Hco.
    apply andb_prop in Hpo. destruct Hpo as [Hpoi Hpon].
    apply andb_prop in Hco. destruct Hco as [Hcoi Hcon].
    assert (Hint : integral_oi (yf symbol) exp = true).
    { unfold integral_oi. rewrite Hch, Hcoi, Hpoi. reflexivity. }
    assert (Hnn : nonneg_oi (yf symbol) exp = true).
    { unfold nonneg_oi. rewrite Hch, Hcon, Hpon. reflexivity. }
    pose proof (try_expiry_total_oi _ _ _ _ Hint Htry) as Htot.
    destruct (try_expiry_nonneg _ _ _ _ Hnn Htry) as [Hp Ht].
    destruct (volume (calls ch)) as [ cv | ]; [ | discriminate ].
    destruct (volume (puts ch)) as [ pv | ]; [ | discriminate ].
    destruct (openInterest (calls ch)) as [ co | ]; [ | discriminate ].
    destruct (openInterest (puts ch)) as [ po | ]; [ | discriminate ].
    pose proof (qsum_nonneg co Hcon) as Hcq.
    injection Htry' as <-. cbn [Total_OI Put_OI Call_OI] in *.
    split; [ exact Htot | ]. split; [ exact Hp | ].
    split; [ | split; [ exact Hoi | exact Hvol ] ].
    apply round_half_even_ge. exact Hcq. }
  rewrite Forall_forall in *. intros r Hr.
  destruct (Hrows r Hr) as [r0 [Hin [Hb Himp]]].
  specialize (Hraw r0 Hin). unfold base_cells in Hb.
  injection Hb as HS HE HPV HCV HV HPO HCO HO HT.
  rewrite HPV, HCV, HV, HPO, HCO, HO, HT.
  destruct Hraw as [H1 [H2 [H3 [H4 H5]]]].
  repeat (split; [ assumption | ]).
  apply impulse_near_of_exact.
  apply (impulse_consistent_ext (flow_row r0)).
  - exact HO.
  - exact HV.
  - exact Himp.
  - apply flow_row_impulse.
Qed.

Lemma enriched_rows_keep_raw_invariants_witness :
  exists df,
    enrich_per_expiry Sample.iso_date Sample.asof_2024 Sample.four_expiries SYMBOL None
    = Ok df
    /\ Forall (fun r => Total_OI r = Put_OI r + Call_OI r
                        /\ ratio_near_counts (OI_PCR r) (Put_OI r) (Call_OI r)
                        /\ impulse_near_quotient r)
              (rows df).
Proof.
  eexists. split; [ vm_compute; reflexivity | ].
  eapply Forall_impl;
    [ | apply (enriched_rows_keep_raw_invariants
                 Sample.iso_date Sample.asof_2024 Sample.four_expiries SYMBOL None);
        [ vm_compute; reflexivity | vm_compute; reflexivity ] ].
  intros r H. split; [ apply H | ]. split; apply H.
Defined.

(** ** Reading the bucket table *)

Lemma zsum_perm (l l' : list Z) : Permutation l l' -> zsum l = zsum l'.
Proof.
  induction 1 as [ | x l l' _ IH | x y l | l l' l'' _ IH1 _ IH2 ].
  - reflexivity.
  - rewrite !zsum_cons, IH. reflexivity.
  - rewrite !zsum_cons. lia.
  - rewrite IH1. exact IH2.
Qed.

Lemma filter_perm {A : Type} (p : A -> bool) (l l' : list A) :
  Permutation l l' -> Permutation (filter p l) (filter p l').
Proof.
  induction 1 as [ | x l l' _ IH | x y l | l l' l'' _ IH1 _ IH2 ]; cbn [filter].
  - constructor.
  - destruct (p x); [ apply perm_skip | ]; exact IH.
  - destruct (p x), (p y); try apply Permutation_refl. apply perm_swap.
  - exact (perm_trans IH1 IH2).
Qed.

Lemma col_sum_perm (f : Row -> Z) (p : Row -> bool) (l l' : list Row) :
  Permutation l l' -> col_sum f (filter p l) = col_sum f (filter p l').
Proof.
  intros H. unfold col_sum. f_equal.
  apply zsum_perm, Permutation_map, filter_perm, H.
Qed.

(** X17.  The bucket table does not depend on the order of the rows: two
    tables with the same columns whose rows are a rearrangement of one
    another give the same bucket table. *)
Theorem bucket_table_ignores_row_order (df df' : DataFrame) (require_quality_ok : bool) :
  columns df' = columns df ->
  Permutation (rows df) (rows df') ->
  bucket_term_structure df' require_quality_ok
  = bucket_term_structure df require_quality_ok.
Proof.
  intros Hcols Hperm.
  unfold bucket_term_structure, bucket_term_structure_on.
  assert (Hgate : Permutation (quality_filter require_quality_ok df)
                              (quality_filter require_quality_ok df')).
  { unfold quality_filter. rewrite Hcols.
    destruct (require_quality_ok && str_in "Quality_OK" (columns df));
      [ apply filter_perm | ]; exact Hperm. }
  set (t := quality_filter require_quality_ok df) in *.
  set (t' := quality_filter require_quality_ok df') in *.
  assert (Hden : col_sum Total_OI t' = col_sum Total_OI t).
  { unfold col_sum. f_equal. symmetry. apply zsum_perm, Permutation_map, Hgate. }
  rewrite Hden. f_equal. apply map_ext. intros [[name lo] hi].
  unfold bucket_row.
  rewrite !(col_sum_perm _ (in_band lo hi) t t' Hgate). reflexivity.
Qed.

Lemma bucket_table_ignores_row_order_witness :
  bucket_term_structure
    (with_rows (@rev Row) (Sample.enriched Sample.four_expiries)) true
  = bucket_term_structure (Sample.enriched Sample.four_expiries) true.
Proof.
  apply (bucket_table_ignores_row_order (Sample.enriched Sample.four_expiries)).
  - reflexivity.
  - apply Permutation_rev.
Defined.

Lemma nansum_ge_in (l : list float) (q : Q) :
  nonneg_cells l -> In (Some q) l -> (q <= nansum l)%Q.
Proof.
  induction 1 as [ | x tl Hx Htl IH ]; intros Hin; [ contradiction | ].
  destruct Hin as [ -> | Hin ].
  - rewrite nansum_cons_some. pose proof (nansum_nonneg tl Htl). lra.
  - specialize (IH Hin). destruct x as [ y | ].
    + rewrite nansum_cons_some. lra.
    + exact IH.
Qed.

(** X18.  Each row of the bucket table can be checked from its own cells.
    The concentration score is NaN exactly when the shown share of total
    open interest or the shown OI ratio is, and the concentration share is
    NaN whenever the score is.  When the rows of the table hold counts (no
    count negative, each count column adding up to at most 10^9), each
    bucket ratio is in step with the two bucket sums next to it (NaN
    exactly when the call sum is 0, otherwise not negative and within one
    unit of the sixth decimal of the put sum over the call sum), and every
    concentration share that is a number lies between 0 and 1. *)
Theorem bucket_rows_are_self_consistent (df : DataFrame) (require_quality_ok : bool) :
  Forall (fun b =>
            (Bucket_Concentration_Score b = nan
             <-> Bucket_TotalOI_Share b = nan \/ Bucket_OI_PCR b = nan)
            /\ (Bucket_Concentration_Score b = nan -> Bucket_Concentration_Share b = nan))
         (bucket_term_structure df require_quality_ok)
  /\ (count_table (10 ^ 9) (rows df) ->
      Forall (fun b =>
                ratio_near_counts (Bucket_OI_PCR b) (Sum_Put_OI b) (Sum_Call_OI b)
                /\ ratio_near_counts (Bucket_Volume_PCR b)
                                     (Sum_Put_Volume b) (Sum_Call_Volume b)
                /\ (forall c, Bucket_Concentration_Share b = Some c ->
                              (0 <= c)%Q /\ (c <= 1)%Q))
             (bucket_term_structure df require_quality_ok)).
Proof.
  unfold bucket_term_structure, bucket_term_structure_on.
  set (t := quality_filter require_quality_ok df).
  set (base := map (bucket_row t (col_sum Total_OI t)) BUCKETS).
  split.
  - unfold add_concentration. apply Forall_map. apply Forall_forall. intros b _.
    cbn [Bucket_Concentration_Score Bucket_Concentration_Share
         Bucket_TotalOI_Share Bucket_OI_PCR set_concentration].
    unfold raw_score.
    destruct (Bucket_TotalOI_Share b) as [ x | ], (Bucket_OI_PCR b) as [ y | ];
      cbn [fmul lift2 fround option_map fdiv nan].
    + split; [ split; [ discriminate | intros [ H | H ]; discriminate ] | discriminate ].
    + split; [ split; [ right; reflexivity | reflexivity ] | ].
      intros _. destruct (Qltb 0 _); reflexivity.
    + split; [ split; [ left; reflexivity | reflexivity ] | ].
      intros _. destruct (Qltb 0 _); reflexivity.
    + split; [ split; [ left; reflexivity | reflexivity ] | ].
      intros _. destruct (Qltb 0 _); reflexivity.
  - intros [Hnn _].
    assert (Ht : Forall (fun r => 0 <= Put_OI r /\ 0 <= Call_OI r
                                  /\ 0 <= Put_Volume r /\ 0 <= Call_Volume r
                                  /\ 0 <= Total_OI r) t)
      by (apply quality_filter_Forall, Hnn).
    assert (Hcells : nonneg_cells (map raw_score base)).
    { unfold nonneg_cells, base. rewrite map_map. apply Forall_map.
      apply Forall_forall. intros band _. apply raw_score_nonneg.
      eapply Forall_impl; [ | exact Ht ].
      intros r (H1 & H2 & H3 & H4 & H5). split; assumption. }
    unfold add_concentration. apply Forall_map.
    apply Forall_forall. intros b0 Hb0.
    cbn [Bucket_OI_PCR Sum_Put_OI Sum_Call_OI Bucket_Volume_PCR Sum_Put_Volume
         Sum_Call_Volume Bucket_Concentration_Share set_concentration].
    split; [ | split ].
    3: {
      intros c Hc.
      destruct (Qltb 0 (nansum (map raw_score base))) eqn:Ed; [ | discriminate ].
      apply Qltb_true in Ed.
      destruct (raw_score b0) as [ q | ] eqn:Eq; [ | discriminate ].
      cbn [fdiv lift2 fround option_map] in Hc. injection Hc as <-.
      assert (Hin : In (Some q) (map raw_score base)).
      { rewrite <- Eq. apply in_map. exact Hb0. }
      pose proof (nansum_ge_in _ q Hcells Hin) as Hle.
      assert (Hq : (0 <= q)%Q).
      { unfold nonneg_cells in Hcells. rewrite Forall_forall in Hcells.
        apply (Hcells (Some q) Hin). }
      split.
      - apply round_nd_nonneg. apply Qle_shift_div_l; [ exact Ed | ].
        rewrite Qmult_0_l. exact Hq.
      - apply (Qle_trans _ (round_nd 6 1)).
        + apply round_nd_mono. apply Qle_shift_div_r; [ exact Ed | ].
          rewrite Qmult_1_l. exact Hle.
        + vm_compute. discriminate. }
    all: unfold base in Hb0; apply in_map_iff in Hb0;
      destruct Hb0 as [[[name lo] hi] [<- _]];
      unfold bucket_row;
      cbn [Bucket_OI_PCR Sum_Put_OI Sum_Call_OI Bucket_Volume_PCR Sum_Put_Volume
           Sum_Call_Volume];
      unfold col_sum; rewrite !round_half_even_Z;
      apply ratio_near_of_exact;
      apply ratio_of_counts_ok; try reflexivity;
      apply zsum_nonneg; apply Forall_map;
      (eapply Forall_impl; [ | apply Forall_filter; exact Ht ]);
      intros r (H1 & H2 & H3 & H4 & H5); assumption.
Qed.

(** ** Binary64 stays inside the tolerances *)

Section Binary64Error.

Variable fl : Q -> Q.
Hypothesis fl_accurate : Rounded.accurate fl.

Local Open Scope Q_scope.

Lemma fl_within (x B : Q) :
  Qabs x <= B -> - (Rounded.u * B) <= fl x - x <= Rounded.u * B.
Proof.
  intros HB. destruct fl_accurate as [Herr _].
  apply Qabs_Qle_condition.
  eapply Qle_trans; [ apply Herr | ].
  apply Qmult_le_l; [ reflexivity | exact HB ].
Qed.

Lemma fl_nonneg (x : Q) : 0 <= x -> 0 <= fl x.
Proof.
  intros Hx.
  assert (HB : Qabs x <= x) by (rewrite Qabs_pos by exact Hx; apply Qle_refl).
  pose proof (fl_within x x HB) as [Hlo _].
  unfold Rounded.u in Hlo. lra.
Qed.

(** [Series.round(6)] of a number of at most [10^8 + 1] in size is within
    0.53 units of the sixth decimal of it. *)
Lemma np_round6_error (x : Q) :
  Qabs x <= 100000001 # 1 ->
  Qabs (Rounded.np_round6 fl x - x) <= 53 # 100000000.
Proof.
  intros Hx. unfold Rounded.np_round6.
  set (m := x * (1000000 # 1)).
  assert (Hm : Qabs m <= 100000001000000 # 1).
  { unfold m. rewrite Qabs_Qmult.
    change (Qabs (1000000 # 1)) with (1000000 # 1).
    apply Qabs_Qle_condition in Hx. 
    assert (H0 : 0 <= Qabs x) by apply Qabs_nonneg.
    setoid_replace (100000001000000 # 1) with ((100000001 # 1) * (1000000 # 1))
      by reflexivity.
    apply Qmult_le_compat_r; [ | discriminate ].
    apply Qabs_Qle_condition. exact Hx. }
  pose proof (fl_within m _ Hm) as Hx2.
  set (x2 := fl m) in *.
  pose proof (round_half_even_error x2) as Hk.
  set (k := inject_Z (round_half_even x2)) in *.
  apply Qabs_Qle_condition in Hk.
  set (y := k / (1000000 # 1)).
  assert (Ey : y * (1000000 # 1) == k) by (unfold y; field).
  apply Qabs_Qle_condition in Hx.
  assert (Hy : Qabs y <= 100000002 # 1).
  { apply Qabs_Qle_condition. unfold Rounded.u, m in *. lra. }
  pose proof (fl_within y _ Hy) as Hi.
  apply Qabs_Qle_condition. unfold Rounded.u, m in *. lra.
Qed.

(** The impulse the script stores is within one unit of the sixth decimal
    of the quotient of the two ratios as long as that quotient is at most
    10^8 in size. *)
Lemma impulse_binary64_error (v o : Q) :
  0 < o -> Qabs (v / o) <= inject_Z (10 ^ 8) ->
  Qabs (Rounded.impulse fl v o - v / o) <= 1 # 1000000
  /\ Qabs (Rounded.impulse fl v o * o - v) <= (1 # 1000000) * o.
Proof.
  intros Ho Hq.
  assert (Hi : Qabs (Rounded.impulse fl v o - v / o) <= 1 # 1000000).
  { unfold Rounded.impulse.
    change (inject_Z (10 ^ 8)) with (100000000 # 1) in Hq.
    pose proof (fl_within (v / o) _ Hq) as H1.
    set (q := v / o) in *. set (x1 := fl q) in *.
    apply Qabs_Qle_condition in Hq.
    assert (Hx1 : Qabs x1 <= 100000001 # 1).
    { apply Qabs_Qle_condition. unfold Rounded.u in *. lra. }
    pose proof (np_round6_error x1 Hx1) as H2.
    apply Qabs_Qle_condition in H2.
    apply Qabs_Qle_condition. unfold Rounded.u in *. lra. }
  split; [ exact Hi | ].
  apply scaled_error; assumption.
Qed.

(** The ratio the script stores for two counts of at most 10^9 is not
    negative and within one unit of the sixth decimal of their quotient. *)
Lemma pcr_binary64_error (p c : Z) :
  (0 <= p <= 10 ^ 9)%Z -> (0 < c <= 10 ^ 9)%Z ->
  0 <= Rounded.pcr fl (inject_Z p) (inject_Z c)
  /\ Qabs (Rounded.pcr fl (inject_Z p) (inject_Z c) - inject_Z p / inject_Z c)
     <= 1 # 1000000.
Proof.
  intros [Hp0 Hp1] [Hc0 Hc1].
  unfold Rounded.pcr, Rounded.py_round6.
  set (q := inject_Z p / inject_Z c).
  assert (Hcq : 1 <= inject_Z c).
  { change 1 with (inject_Z 1). rewrite <- Zle_Qle. lia. }
  assert (Hpq0 : 0 <= inject_Z p).
  { change 0 with (inject_Z 0). rewrite <- Zle_Qle. exact Hp0. }
  assert (Hpq1 : inject_Z p <= 1000000000 # 1).
  { change (1000000000 # 1) with (inject_Z (10 ^ 9)). rewrite <- Zle_Qle. exact Hp1. }
  assert (Hq0 : 0 <= q).
  { unfold q. apply Qle_shift_div_l; lra. }
  assert (Hq1 : q <= 1000000000 # 1).
  { unfold q. apply Qle_shift_div_r; [ lra | ].
    apply (Qle_trans _ ((1000000000 # 1) * 1)); [ lra | ].
    apply Qmult_le_l; [ reflexivity | exact Hcq ]. }
  assert (HB : Qabs q <= 1000000000 # 1) by (apply Qabs_Qle_condition; lra).
  pose proof (fl_within q _ HB) as H1.
  pose proof (fl_nonneg q Hq0) as Hx0.
  set (x1 := fl q) in *.
  pose proof (round_nd_error 6 x1) as H2.
  pose proof (round_nd_nonneg 6 x1 Hx0) as Hr0.
  set (r := round_nd 6 x1) in *.
  change ((1 # 2) / inject_Z (Zpos (pow10 6))) with (1 # 2000000) in H2.
  apply Qabs_Qle_condition in H2.
  assert (Hr : Qabs r <= 1000000002 # 1).
  { apply Qabs_Qle_condition. unfold Rounded.u in *. lra. }
  pose proof (fl_within r _ Hr) as H3.
  split; [ apply fl_nonneg, Hr0 | ].
  apply Qabs_Qle_condition. unfold Rounded.u in *. lra.
Qed.

Lemma counts_qsum (l : list Q) :
  counts l -> exists z : Z, (0 <= z)%Z /\ qsum l == inject_Z z.
Proof.
  induction 1 as [ | x tl [z [Hz Ez]] _ [t [Ht Et]] ].
  - exists 0%Z. split; [ apply Z.le_refl | reflexivity ].
  - exists (z + t)%Z. split; [ lia | ].
    rewrite qsum_cons, Ez, Et, inject_Z_plus. reflexivity.
Qed.

(** A column of counts that add up to at most 2^53 is added up without
    loss. *)
Lemma sum_of_counts (l : list Q) :
  counts l ->
  forall (acc : Q) (a total : Z),
    acc == inject_Z a -> (0 <= a)%Z ->
    inject_Z a + qsum l == inject_Z total -> (total <= 2 ^ 53)%Z ->
    fold_left (fun s x => fl (s + x)) l acc == inject_Z total.
Proof.
  induction 1 as [ | x tl [z [Hz Ez]] Htl IH ]; intros acc a total Ea Ha Et Hb.
  - cbn [fold_left]. rewrite Ea, <- Et. unfold qsum. cbn [fold_left]. ring.
  - cbn [fold_left]. rewrite qsum_cons in Et.
    destruct (counts_qsum tl Htl) as [t [Ht Etl]].
    assert (Etot : total = (a + z + t)%Z).
    { apply inject_Z_injective. rewrite <- Et, Ez, Etl, !inject_Z_plus. ring. }
    apply (IH (fl (acc + x)) (a + z)%Z total).
    + destruct fl_accurate as [_ Hint]. apply Hint.
      * rewrite Ea, Ez, inject_Z_plus. reflexivity.
      * lia.
    + lia.
    + rewrite <- Et, Ez, inject_Z_plus. ring.
    + exact Hb.
Qed.

(** With counts that add up, over both columns, to at most 2^53, the three
    stored open-interest cells are the exact sums, and the total is the sum
    of the two sides. *)
Lemma total_oi_binary64_exact (po co : list Q) :
  counts po -> counts co ->
  qsum po + qsum co <= inject_Z (2 ^ 53) ->
  (Rounded.Total_OI fl po co
   = Rounded.Put_OI fl po co + Rounded.Call_OI fl po co)%Z
  /\ inject_Z (Rounded.Put_OI fl po co) == qsum po
  /\ inject_Z (Rounded.Call_OI fl po co) == qsum co.
Proof.
  intros Hpo Hco Hb.
  destruct (counts_qsum po Hpo) as [zp [Hzp Ep]].
  destruct (counts_qsum co Hco) as [zc [Hzc Ec]].
  assert (Hbz : (zp + zc <= 2 ^ 53)%Z).
  { rewrite Zle_Qle, inject_Z_plus, <- Ep, <- Ec. exact Hb. }
  assert (Sp : Rounded.sum fl po == inject_Z zp).
  { unfold Rounded.sum. apply (sum_of_counts po Hpo 0 0%Z zp).
    - reflexivity.
    - apply Z.le_refl.
    - rewrite Ep. change (inject_Z 0) with 0. ring.
    - lia. }
  assert (Sc : Rounded.sum fl co == inject_Z zc).
  { unfold Rounded.sum. apply (sum_of_counts co Hco 0 0%Z zc).
    - reflexivity.
    - apply Z.le_refl.
    - rewrite Ec. change (inject_Z 0) with 0. ring.
    - lia. }
  assert (St : fl (Rounded.sum fl po + Rounded.sum fl co) == inject_Z (zp + zc)).
  { destruct fl_accurate as [_ Hint]. apply Hint.
    - rewrite Sp, Sc, inject_Z_plus. reflexivity.
    - lia. }
  unfold Rounded.Total_OI, Rounded.Put_OI, Rounded.Call_OI.
  rewrite (round_half_even_integer _ _ Sp), (round_half_even_integer _ _ Sc),
          (round_half_even_integer _ _ St).
  split; [ reflexivity | ]. split; symmetry; assumption.
Qed.

(** A column of at most three numbers, none negative, is added up within
    a relative error of four roundings. *)
Lemma sum_error (l : list Q) :
  Forall (fun q => 0 <= q) l -> (List.length l <= 3)%nat ->
  0 <= Rounded.sum fl l
  /\ Qabs (Rounded.sum fl l - qsum l) <= (4 # 1) * Rounded.u * qsum l.
Proof.
  intros Hl Hlen. unfold Rounded.sum.
  destruct l as [ | a [ | b [ | c [ | d tl ] ] ] ]; cbn [List.length] in Hlen;
    try lia; cbn [fold_left].
  - split; [ apply Qle_refl | vm_compute; discriminate ].
  - inversion Hl as [ | ? ? Ha _ ]; subst.
    assert (Ea : qsum [a] == a) by (unfold qsum; cbn [fold_left]; ring).
    assert (H1 : Qabs (0 + a) <= a) by (rewrite Qabs_pos by lra; lra).
    pose proof (fl_within _ _ H1) as E1.
    pose proof (fl_nonneg (0 + a)) as N1.
    rewrite Ea. split; [ apply N1; lra | ].
    apply Qabs_Qle_condition. unfold Rounded.u in *. lra.
  - inversion Hl as [ | ? ? Ha Hl1 ]; subst.
    inversion Hl1 as [ | ? ? Hb _ ]; subst.
    assert (Es : qsum [a; b] == a + b) by (unfold qsum; cbn [fold_left]; ring).
    assert (H1 : Qabs (0 + a) <= a) by (rewrite Qabs_pos by lra; lra).
    pose proof (fl_within _ _ H1) as E1.
    pose proof (fl_nonneg (0 + a)) as N1.
    set (y1 := fl (0 + a)) in *.
    assert (N1' : 0 <= y1) by (apply N1; lra).
    assert (H2 : Qabs (y1 + b) <= y1 + b) by (rewrite Qabs_pos by lra; lra).
    pose proof (fl_within _ _ H2) as E2.
    pose proof (fl_nonneg (y1 + b)) as N2.
    rewrite Es. split; [ apply N2; lra | ].
    apply Qabs_Qle_condition. unfold Rounded.u in *. lra.
  - inversion Hl as [ | ? ? Ha Hl1 ]; subst.
    inversion Hl1 as [ | ? ? Hb Hl2 ]; subst.
    inversion Hl2 as [ | ? ? Hc _ ]; subst.
    assert (Es : qsum [a; b; c] == a + b + c) by (unfold qsum; cbn [fold_left]; ring).
    assert (H1 : Qabs (0 + a) <= a) by (rewrite Qabs_pos by lra; lra).
    pose proof (fl_within _ _ H1) as E1.
    pose proof (fl_nonneg (0 + a)) as N1.
    set (y1 := fl (0 + a)) in *.
    assert (N1' : 0 <= y1) by (apply N1; lra).
    assert (H2 : Qabs (y1 + b) <= y1 + b) by (rewrite Qabs_pos by lra; lra).
    pose proof (fl_within _ _ H2) as E2.
    pose proof (fl_nonneg (y1 + b)) as N2.
    set (y2 := fl (y1 + b)) in *.
    assert (N2' : 0 <= y2) by (apply N2; lra).
    assert (H3 : Qabs (y2 + c) <= y2 + c) by (rewrite Qabs_pos by lra; lra).
    pose proof (fl_within _ _ H3) as E3.
    pose proof (fl_nonneg (y2 + c)) as N3.
    rewrite Es. split; [ apply N3; lra | ].
    apply Qabs_Qle_condition. unfold Rounded.u in *. lra.
Qed.

(** One share: a whole number of units of the sixth decimal, stored as the
    nearest double, the whole number being within half a unit (and a
    little) of the exact share. *)
Lemma share_units (x : Q) :
  0 <= x -> x <= 2 # 1 ->
  exists k : Z,
    (0 <= k)%Z
    /\ Rounded.np_round6 fl (fl x) = fl (inject_Z k / (1000000 # 1))
    /\ Qabs (inject_Z k - x * (1000000 # 1)) <= (1 # 2) + (1 # 1000000000).
Proof.
  intros Hx0 Hx1. unfold Rounded.np_round6.
  assert (HB : Qabs x <= 2 # 1) by (rewrite Qabs_pos by exact Hx0; exact Hx1).
  pose proof (fl_within x _ HB) as E1.
  pose proof (fl_nonneg x Hx0) as N1.
  set (x1 := fl x) in *.
  assert (HB2 : Qabs (x1 * (1000000 # 1)) <= 3000000 # 1).
  { apply Qabs_Qle_condition. unfold Rounded.u in *. lra. }
  pose proof (fl_within _ _ HB2) as E2.
  assert (N2 : 0 <= fl (x1 * (1000000 # 1))) by (apply fl_nonneg; lra).
  set (x2 := fl (x1 * (1000000 # 1))) in *.
  exists (round_half_even x2).
  split; [ apply round_half_even_ge; exact N2 | ].
  split; [ reflexivity | ].
  pose proof (round_half_even_error x2) as Hk.
  apply Qabs_Qle_condition in Hk.
  apply Qabs_Qle_condition. unfold Rounded.u in *. lra.
Qed.

Lemma shares_units (xs : list Q) :
  Forall (fun x => 0 <= x /\ x <= 2 # 1) xs ->
  exists K : Z,
    (0 <= K)%Z
    /\ Forall (fun y => 0 <= y) (map (fun x => Rounded.np_round6 fl (fl x)) xs)
    /\ Qabs (qsum (map (fun x => Rounded.np_round6 fl (fl x)) xs)
             - inject_Z K / (1000000 # 1))
       <= Rounded.u * (inject_Z K / (1000000 # 1))
    /\ Qabs (inject_Z K - qsum xs * (1000000 # 1))
       <= ((1 # 2) + (1 # 1000000000)) * inject_Z (Z.of_nat (List.length xs)).
Proof.
  induction 1 as [ | x tl [Hx0 Hx1] _ [K [HK [Hnn [Hsum Herr]]]] ].
  - exists 0%Z. split; [ apply Z.le_refl | ]. split; [ constructor | ].
    split; vm_compute; discriminate.
  - destruct (share_units x Hx0 Hx1) as [k [Hk [Ek Hkerr]]].
    exists (k + K)%Z. cbn [map List.length].
    rewrite Ek, !qsum_cons, Nat2Z.inj_succ. unfold Z.succ.
    rewrite !inject_Z_plus. change (inject_Z 1) with 1.
    set (yk := inject_Z k / (1000000 # 1)) in *.
    set (yK := inject_Z K / (1000000 # 1)) in *.
    assert (Eyk : yk * (1000000 # 1) == inject_Z k) by (unfold yk; field).
    assert (EyK : yK * (1000000 # 1) == inject_Z K) by (unfold yK; field).
    assert (Hkq : 0 <= inject_Z k)
      by (change 0 with (inject_Z 0); rewrite <- Zle_Qle; exact Hk).
    assert (HKq : 0 <= inject_Z K)
      by (change 0 with (inject_Z 0); rewrite <- Zle_Qle; exact HK).
    assert (Hyk : 0 <= yk) by lra.
    assert (HB : Qabs yk <= yk) by (rewrite Qabs_pos by exact Hyk; apply Qle_refl).
    pose proof (fl_within yk _ HB) as E.
    pose proof (fl_nonneg yk Hyk) as N.
    split; [ lia | ]. split; [ constructor; assumption | ].
    assert (Ediv : (inject_Z k + inject_Z K) / (1000000 # 1) == yk + yK)
      by (unfold yk, yK; field).
    rewrite Ediv.
    apply Qabs_Qle_condition in Hsum. apply Qabs_Qle_condition in Herr.
    apply Qabs_Qle_condition in Hkerr.
    split; apply Qabs_Qle_condition; unfold Rounded.u in *; lra.
Qed.

(** The concentration shares of at most three buckets, as the script
    computes and adds them, add up to 1 within 1e-6 and 1e-12. *)
Lemma shares_binary64_sum (scores : list Q) :
  Forall (fun q => 0 <= q) scores -> (List.length scores <= 3)%nat ->
  0 < Rounded.sum fl scores ->
  Qabs (Rounded.sum fl (Rounded.shares fl scores) - 1)
  <= (1 # 1000000) + (1 # 1000000000000).
Proof.
  intros Hnn Hlen Hpos.
  destruct (sum_error scores Hnn Hlen) as [_ HD].
  set (D := Rounded.sum fl scores) in *.
  set (S := qsum scores) in *.
  apply Qabs_Qle_condition in HD.
  set (X := S / D).
  assert (EX : X * D == S) by (unfold X; field; lra).
  assert (HXlo : 1 <= X * ((1 # 1) + (4 # 1) * Rounded.u)).
  { apply (Qmult_lt_0_le_reg_r _ _ D Hpos).
    setoid_replace (X * ((1 # 1) + (4 # 1) * Rounded.u) * D)
      with (S * ((1 # 1) + (4 # 1) * Rounded.u)) by (rewrite <- EX; ring).
    unfold Rounded.u in *. lra. }
  assert (HXhi : X * ((1 # 1) - (4 # 1) * Rounded.u) <= 1).
  { apply (Qmult_lt_0_le_reg_r _ _ D Hpos).
    setoid_replace (X * ((1 # 1) - (4 # 1) * Rounded.u) * D)
      with (S * ((1 # 1) - (4 # 1) * Rounded.u)) by (rewrite <- EX; ring).
    unfold Rounded.u in *. lra. }
  set (xs := map (fun s => s / D) scores).
  assert (Hxs : qsum xs == X).
  { unfold xs, X, S. apply qsum_scale. lra. }
  assert (Hx0 : Forall (fun x => 0 <= x) xs).
  { unfold xs. apply Forall_map. eapply Forall_impl; [ | exact Hnn ].
    intros s Hs. cbv beta in Hs |- *. apply Qle_shift_div_l; [ exact Hpos | lra ]. }
  assert (Hx : Forall (fun x => 0 <= x /\ x <= 2 # 1) xs).
  { rewrite Forall_forall in *. intros x Hin. split; [ apply Hx0, Hin | ].
    assert (Hle : x <= qsum xs).
    { clear - Hx0 Hin. induction xs as [ | y tl IH ]; [ contradiction | ].
      rewrite qsum_cons.
      assert (Hy : 0 <= y) by (apply Hx0; left; reflexivity).
      assert (Htl : 0 <= qsum tl).
      { apply qsum_list_nonneg. apply Forall_forall. intros z Hz.
        apply Hx0. right. exact Hz. }
      destruct Hin as [ -> | Hin ]; [ lra | ].
      assert (x <= qsum tl).
      { apply IH; [ | exact Hin ]. intros z Hz. apply Hx0. right. exact Hz. }
      lra. }
    rewrite Hxs in Hle. unfold Rounded.u in *. lra. }
  destruct (shares_units xs Hx) as [K [HK [Hynn [Hsum Herr]]]].
  assert (Eshares : Rounded.shares fl scores
                    = map (fun x => Rounded.np_round6 fl (fl x)) xs).
  { unfold Rounded.shares, xs. rewrite map_map. reflexivity. }
  rewrite <- Eshares in Hsum, Hynn.
  assert (Hlen' : (List.length (Rounded.shares fl scores) <= 3)%nat).
  { unfold Rounded.shares. rewrite length_map. exact Hlen. }
  destruct (sum_error _ Hynn Hlen') as [_ HT].
  assert (Hn : inject_Z (Z.of_nat (List.length xs)) <= 3).
  { unfold xs. rewrite length_map. change 3 with (inject_Z 3).
    rewrite <- Zle_Qle. lia. }
  assert (Hn0 : 0 <= inject_Z (Z.of_nat (List.length xs))).
  { change 0 with (inject_Z 0). rewrite <- Zle_Qle. lia. }
  rewrite Hxs in Herr.
  apply Qabs_Qle_condition in Herr. apply Qabs_Qle_condition in Hsum.
  apply Qabs_Qle_condition in HT.
  assert (HloZ : (1000000 - 1 <= K)%Z).
  { destruct (Z_le_gt_dec (1000000 - 1) K) as [ | Hgt ]; [ assumption | exfalso ].
    assert (Hq : inject_Z K <= inject_Z (1000000 - 2)) by (rewrite <- Zle_Qle; lia).
    change (inject_Z (1000000 - 2)) with (999998 # 1) in Hq.
    unfold Rounded.u in *. lra. }
  assert (HhiZ : (K <= 1000000 + 1)%Z).
  { destruct (Z_le_gt_dec K (1000000 + 1)) as [ | Hgt ]; [ assumption | exfalso ].
    assert (Hq : inject_Z (1000000 + 2) <= inject_Z K) by (rewrite <- Zle_Qle; lia).
    change (inject_Z (1000000 + 2)) with (1000002 # 1) in Hq.
    unfold Rounded.u in *. lra. }
  rewrite Zle_Qle in HloZ, HhiZ.
  change (inject_Z (1000000 - 1)) with (999999 # 1) in HloZ.
  change (inject_Z (1000000 + 1)) with (1000001 # 1) in HhiZ.
  set (yK := inject_Z K / (1000000 # 1)) in *.
  assert (EyK : yK * (1000000 # 1) == inject_Z K) by (unfold yK; field).
  apply Qabs_Qle_condition. unfold Rounded.u in *. lra.
Qed.

End Binary64Error.

(** Exact arithmetic is one such rounding, so the bounds above hold in
    particular of the embedding. *)
Example exact_is_accurate : Rounded.accurate (fun x => x).
Proof.
  split.
  - intros x.
    assert (E : (x - x == 0)%Q) by ring.
    rewrite E. change (Qabs 0) with 0%Q.
    apply Qmult_le_0_compat; [ discriminate | apply Qabs_nonneg ].
  - intros x z E _. exact E.
Qed.
